(** * Friendly Ground Truth: tools, undo snapshots and preview timer

    A shallow embedding of [friendly_ground_truth/controller/tools.py] and of
    [MainWindow.show_image] from [friendly_ground_truth/view/main_window.py].

    Python objects that are shared and mutated in place (patches) live in a
    heap of locations; [copy.deepcopy] allocates a fresh location.  Methods
    are computations in a state-and-exception monad over the receiving tool
    object paired with the shared world (patch heap, undo manager, and the
    ordered log of calls made to collaborators).  Python floats are IEEE
    binary64 numbers ([PrimFloat]); Python ints are [Z]. *)

From Stdlib Require Import ZArith List String Floats QArith Lia.
From Stdlib Require Import DecimalString Ascii.
From stdpp Require Import base option list gmap strings.

Local Open Scope Z_scope.
Set Warnings "-inexact-float".

(** ** Python numbers *)

(** Python's [a >= b] and [a > b] on floats, from the IEEE primitives:
    any comparison with a NaN is false. *)
Definition float_ge (a b : float) : bool := PrimFloat.leb b a.
Definition float_gt (a b : float) : bool := PrimFloat.ltb b a.

(** [str(n)] for an int. *)
Definition str (n : Z) : string := NilZero.string_of_int (Z.to_int n).

(** ** Exceptions and the method monad *)

Inductive Exc : Type :=
| AttributeError   (* attribute missing, or attribute access on [None] *)
| IndexError       (* list index out of range *)
| ValueRangeError  (* a patch threshold outside [0,1] *)
| DanglingRef.     (* a location outside the heap; unreachable from Python *)

Inductive Res (A : Type) : Type :=
| Ok (a : A)
| Raise (e : Exc).
Arguments Ok {A} a.
Arguments Raise {A} e.

Definition M (S A : Type) : Type := S -> Res (A * S).

#[global] Instance M_ret {S} : MRet (M S) := fun A a s => Ok (a, s).

#[global] Instance M_bind {S} : MBind (M S) := fun A B k c s =>
  match c s with
  | Ok (a, s') => k a s'
  | Raise e => Raise e
  end.

Definition raise {S A} (e : Exc) : M S A := fun _ => Raise e.
Definition gets {S A} (f : S -> A) : M S A := fun s => Ok (f s, s).
Definition modify {S} (f : S -> S) : M S unit := fun s => Ok (tt, f s).

(** [for x in xs: body(x)] *)
Fixpoint for_each {S A} (xs : list A) (body : A -> M S unit) : M S unit :=
  match xs with
  | [] => mret tt
  | x :: xs' => body x ;; for_each xs' body
  end.

(** [if c: body] *)
Definition when {S} (c : bool) (body : M S unit) : M S unit :=
  if c then body else mret tt.

(** Dereference an attribute that may be unset or [None]. *)
Definition attr {S A} (o : option A) : M S A :=
  match o with
  | Some a => mret a
  | None => raise AttributeError
  end.

(** Run a world computation from a method whose state is [tool * world]. *)
Definition in_world {T W A} (c : M W A) : M (T * W) A :=
  fun '(t, w) => match c w with
                 | Ok (a, w') => Ok (a, (t, w'))
                 | Raise e => Raise e
                 end.

Definition self {T W} : M (T * W) T := gets fst.
Definition set_self {T W} (f : T -> T) : M (T * W) unit :=
  modify (fun '(t, w) => (f t, w)).

(** ** The heap of patches *)

Definition loc := positive.
Definition position := (Z * Z)%type.
Definition bitmap := list (list bool).
Definition pixels := list (list float).

(** Modelled from the spec: the region-edit math provider, which is not
    among the sources.  Its functions are black boxes, deterministic in
    their inputs: [threshold_mask] thresholds pixel data into a mask, [disk]
    is the set of cells within the brush radius of a centre, clipped to the
    patch, and [flood] is the connected region grown from a seed under a
    tolerance (empty when the seed is outside the patch). *)
Class RegionMath : Type := {
  threshold_mask : pixels -> float -> bitmap;
  disk : pixels -> position -> Z -> bitmap;
  flood : pixels -> position -> float -> bitmap
}.

Definition bitmap_or (a b : bitmap) : bitmap := zip_with (zip_with orb) a b.
Definition bitmap_diff (a b : bitmap) : bitmap :=
  zip_with (zip_with (fun x y => x && negb y)) a b.
Definition bitmap_clear (a : bitmap) : bitmap := map (map (fun _ => false)) a.

Module Patch.

(** Modelled from the spec: the [Patch] class is not among the sources.  A
    patch has an index in the patch grid, read-only pixel data, a mask and a
    threshold. *)
Record t : Type := mk {
  patch_index : Z;
  pixel_data : pixels;
  mask : bitmap;
  threshold : float
}.

Definition with_mask (m : bitmap) (p : t) : t :=
  mk (patch_index p) (pixel_data p) m (threshold p).

(** Modelled from the spec: [set_threshold] fails with [ValueRangeError]
    outside [0,1] and otherwise overwrites the mask with the thresholded
    pixel data. *)
Definition set_threshold `{RegionMath} (value : float) (p : t) : Res t :=
  if PrimFloat.leb value 1 && float_ge value 0
  then Ok (mk (patch_index p) (pixel_data p)
              (threshold_mask (pixel_data p) value) value)
  else Raise ValueRangeError.

(** Modelled from the spec: [add_region] sets, and [remove_region] clears,
    the cells within [radius] of [center]. *)
Definition add_region `{RegionMath} (center : position) (radius : Z) (p : t) : t :=
  with_mask (bitmap_or (mask p) (disk (pixel_data p) center radius)) p.

Definition remove_region `{RegionMath} (center : position) (radius : Z) (p : t) : t :=
  with_mask (bitmap_diff (mask p) (disk (pixel_data p) center radius)) p.

(** Modelled from the spec: [flood_add_region] sets, and
    [flood_remove_region] clears, the mask over the region flooded from
    [seed] under [tolerance]. *)
Definition flood_add_region `{RegionMath} (seed : position) (tolerance : float) (p : t) : t :=
  with_mask (bitmap_or (mask p) (flood (pixel_data p) seed tolerance)) p.

Definition flood_remove_region `{RegionMath} (seed : position) (tolerance : float) (p : t) : t :=
  with_mask (bitmap_diff (mask p) (flood (pixel_data p) seed tolerance)) p.

(** Modelled from the spec: [clear_mask] sets every cell to background. *)
Definition clear_mask (p : t) : t := with_mask (bitmap_clear (mask p)) p.

End Patch.

(** ** The shared world: patch heap, undo manager, call log *)

(** A started background thread: [threading.Thread(target=tool._draw,
    name="draw", args=(position,))] of the tool with identifier [owner]. *)
Record Thread : Type := mkThread {
  thread_name : string;
  owner : Z;
  thread_arg : position
}.

(** Calls made to collaborators, in the order they are made. *)
Inductive Event : Type :=
| EDeepcopy (src dst : loc)
| EUndoPush (snapshot : loc) (tag : string)
| ESetThreshold (p : loc) (value : float)
| EAddRegion (p : loc) (center : position) (radius : Z)
| ERemoveRegion (p : loc) (center : position) (radius : Z)
| EFloodAdd (p : loc) (seed : position) (tolerance : float)
| EFloodRemove (p : loc) (seed : position) (tolerance : float)
| EClearMask (p : loc)
| EObserver (ob : nat)
| EBrushObserver (ob : nat) (radius : Z)
| EActivation (patch : option loc) (index : Z)
| EThreadStart (th : Thread).

Module UndoManager.

(** Modelled from the spec: the undo manager class is not among the sources.
    Two stacks of (snapshot, tag) pairs, most recent last, and a bounded
    maximum depth. *)
Record t : Type := mk {
  undo_stack : list (loc * string);
  redo_stack : list (loc * string);
  max_depth : nat
}.

(** Modelled from the spec: [add_to_undo_stack] pushes the pair, clears the
    redo stack, and evicts the oldest entry when the capacity is exceeded. *)
Definition add_to_undo_stack (snapshot : loc) (tag : string) (m : t) : t :=
  let s := undo_stack m ++ [(snapshot, tag)] in
  mk (if (max_depth m <? length s)%nat then tail s else s) [] (max_depth m).

(** The most recent entry and the rest of a stack. *)
Definition pop {A} (s : list A) : option (A * list A) :=
  match rev s with
  | [] => None
  | x :: r => Some (x, rev r)
  end.

End UndoManager.

Record World : Type := mkWorld {
  heap : gmap loc Patch.t;
  manager : UndoManager.t;
  events : list Event;
  threads : list Thread
}.

Definition emit (e : Event) : M World unit :=
  modify (fun w => mkWorld (heap w) (manager w) (events w ++ [e]) (threads w)).

Definition load (l : loc) : M World Patch.t :=
  fun w => match heap w !! l with
           | Some p => Ok (p, w)
           | None => Raise DanglingRef
           end.

Definition store (l : loc) (p : Patch.t) : M World unit :=
  modify (fun w => mkWorld (<[l := p]> (heap w)) (manager w) (events w) (threads w)).

(** [copy.deepcopy(patch)]: a new object with the same contents. *)
Definition deepcopy (l : loc) : M World loc :=
  p ← load l;
  l' ← gets (fun w => fresh (dom (heap w)));
  store l' p;;
  emit (EDeepcopy l l');;
  mret l'.

Definition add_to_undo_stack (snapshot : loc) (tag : string) : M World unit :=
  modify (fun w => mkWorld (heap w)
                     (UndoManager.add_to_undo_stack snapshot tag (manager w))
                     (events w) (threads w));;
  emit (EUndoPush snapshot tag).

(** Modelled from the spec: [undo()] returns the sentinel [(None, None)] on
    an empty stack; otherwise it pops the top entry, pushes a fresh snapshot
    of the current patch onto the redo stack under the same tag, and returns
    the popped pair.  The current patch is passed explicitly. *)
Definition undo (current : loc) : M World (option loc * option string) :=
  m ← gets manager;
  match UndoManager.pop (UndoManager.undo_stack m) with
  | None => mret (None, None)
  | Some ((snapshot, tag), rest) =>
      cur ← deepcopy current;
      modify (fun w => mkWorld (heap w)
                         (UndoManager.mk rest
                            (UndoManager.redo_stack m ++ [(cur, tag)])
                            (UndoManager.max_depth m))
                         (events w) (threads w));;
      mret (Some snapshot, Some tag)
  end.

(** Method calls on the patch object at [l]. *)
Definition patch_threshold_set `{RegionMath} (l : loc) (value : float) : M World unit :=
  p ← load l;
  emit (ESetThreshold l value);;
  match Patch.set_threshold value p with
  | Ok p' => store l p'
  | Raise e => raise e
  end.

Definition patch_add_region `{RegionMath} (l : loc) (c : position) (r : Z) : M World unit :=
  p ← load l;
  emit (EAddRegion l c r);;
  store l (Patch.add_region c r p).

Definition patch_remove_region `{RegionMath} (l : loc) (c : position) (r : Z) : M World unit :=
  p ← load l;
  emit (ERemoveRegion l c r);;
  store l (Patch.remove_region c r p).

Definition patch_flood_add_region `{RegionMath} (l : loc) (seed : position) (tol : float) : M World unit :=
  p ← load l;
  emit (EFloodAdd l seed tol);;
  store l (Patch.flood_add_region seed tol p).

Definition patch_flood_remove_region `{RegionMath} (l : loc) (seed : position) (tol : float) : M World unit :=
  p ← load l;
  emit (EFloodRemove l seed tol);;
  store l (Patch.flood_remove_region seed tol p).

Definition patch_clear_mask (l : loc) : M World unit :=
  p ← load l;
  emit (EClearMask l);;
  store l (Patch.clear_mask p).

Definition thread_start (th : Thread) : M World unit :=
  modify (fun w => mkWorld (heap w) (manager w) (events w) (threads w ++ [th]));;
  emit (EThreadStart th).

(** [l[i]] on a Python list: negative indices count from the end. *)
Definition py_getitem {A} (l : list A) (i : Z) : Res A :=
  let n := Z.of_nat (length l) in
  let j := if i <? 0 then i + n else i in
  if (0 <=? j) && (j <? n)
  then match l !! Z.to_nat j with
       | Some x => Ok x
       | None => Raise IndexError
       end
  else Raise IndexError.

(** ** Tools *)

Module FGTTool.

(** The attributes of the base class that the methods below read.  A tool's
    [_patch] and [_image] are [None] until bound; observers are callbacks,
    identified by number. *)
Record t : Type := mk {
  _id : Z;
  _can_undo : bool;
  _observers : list nat;
  _patch : option loc;
  _image : option (list loc)
}.

Definition with_can_undo (b : bool) (s : t) : t :=
  mk (_id s) b (_observers s) (_patch s) (_image s).
Definition with_patch (p : option loc) (s : t) : t :=
  mk (_id s) (_can_undo s) (_observers s) p (_image s).
Definition with_observers (obs : list nat) (s : t) : t :=
  mk (_id s) (_can_undo s) obs (_patch s) (_image s).

Definition lock_undos : t -> t := with_can_undo false.
Definition unlock_undos : t -> t := with_can_undo true.
Definition bind_to (callback : nat) (s : t) : t :=
  with_observers (_observers s ++ [callback]) s.

(** [_notify_observers]: every observer is called, in order. *)
Definition _notify_observers {T} (s : t) : M (T * World) unit :=
  for_each (_observers s) (fun ob => in_world (emit (EObserver ob))).

(** The hooks of the base class do nothing. *)
Definition on_adjust {T} (direction : Z) : M (T * World) unit := mret tt.
Definition on_click {T} (pos : position) : M (T * World) unit := mret tt.
Definition on_drag {T} (pos : position) (drag_id : option Z) : M (T * World) unit := mret tt.
Definition on_activate {T} (current_patch_num : Z) : M (T * World) unit := mret tt.

End FGTTool.

Module ThresholdTool.

(** [_threshold_slider] is [Some v] when the slider widget exists and shows
    [v]. *)
Record t : Type := mk {
  base : FGTTool.t;
  _threshold : float;
  _increment : float;
  _threshold_slider_var : option float;
  _threshold_slider : option float;
  _slider_init : bool;
  _new_patch : bool
}.

Definition init (b : FGTTool.t) : t :=
  mk (FGTTool.with_patch None b) 0%float 0.01%float None None false false.

Definition with_base (f : FGTTool.t -> FGTTool.t) (s : t) : t :=
  mk (f (base s)) (_threshold s) (_increment s) (_threshold_slider_var s)
     (_threshold_slider s) (_slider_init s) (_new_patch s).
Definition with_threshold (v : float) (s : t) : t :=
  mk (base s) v (_increment s) (_threshold_slider_var s)
     (_threshold_slider s) (_slider_init s) (_new_patch s).
Definition with_slider (v : float) (s : t) : t :=
  mk (base s) (_threshold s) (_increment s) (Some v) (Some v)
     (_slider_init s) (_new_patch s).
Definition with_slider_init (b : bool) (s : t) : t :=
  mk (base s) (_threshold s) (_increment s) (_threshold_slider_var s)
     (_threshold_slider s) b (_new_patch s).
Definition with_new_patch (b : bool) (s : t) : t :=
  mk (base s) (_threshold s) (_increment s) (_threshold_slider_var s)
     (_threshold_slider s) (_slider_init s) b.

Definition patch (s : t) : option loc := FGTTool._patch (base s).

(** The guard of the setter: [value <= 1 and value >= 0]. *)
Definition in_range (value : float) : bool :=
  PrimFloat.leb value 1 && float_ge value 0.

(** [threshold.setter] *)
Definition threshold_set `{RegionMath} (value : float) : M (t * World) unit :=
  if in_range value then
    set_self (with_threshold value);;
    me ← self;
    when (negb (_new_patch me))
      (p ← attr (patch me);
       in_world (patch_threshold_set p value);;
       when (FGTTool._can_undo (base me))
         (snapshot ← in_world (deepcopy p);
          in_world (add_to_undo_stack snapshot "threshold_adjust")));;
    when (bool_decide (is_Some (_threshold_slider me)) && _slider_init me)
      (set_self (with_slider value));;
    FGTTool._notify_observers (base me);;
    set_self (with_new_patch false)
  else mret tt.

(** [patch.setter] *)
Definition patch_set (new : loc) : M (t * World) unit :=
  me ← self;
  fresh_index ← match patch me with
                | None => mret true
                | Some old =>
                    p ← in_world (load new);
                    q ← in_world (load old);
                    mret (negb (Patch.patch_index p =? Patch.patch_index q))
                end;
  when fresh_index (set_self (with_new_patch true));;
  set_self (with_base (FGTTool.with_patch (Some new)));;
  set_self (with_slider_init false);;
  p ← in_world (load new);
  set_self (with_threshold (Patch.threshold p)).

(** [_on_threshold_slider] *)
Definition _on_threshold_slider `{RegionMath} (value : float) : M (t * World) unit :=
  me ← self;
  when (_slider_init me) (threshold_set value);;
  set_self (with_slider_init true).

(** [_adjust_threshold]: the direction is inverted on purpose. *)
Definition _adjust_threshold `{RegionMath} (direction : Z) : M (t * World) unit :=
  me ← self;
  if direction <? 0
  then threshold_set (_threshold me + _increment me)%float
  else threshold_set (_threshold me - _increment me)%float.

Definition on_adjust `{RegionMath} (direction : Z) : M (t * World) unit :=
  _adjust_threshold direction.

End ThresholdTool.

(** [AddRegionTool] and [RemoveRegionTool] have the same class text up to
    the tag prefix and the [Patch] method their [_draw] calls; [kind]
    selects between the two. *)
Inductive brush_kind : Type := AddRegion | RemoveRegion.

Module BrushTool.

(** [_brush_sizer] is [Some v] when the spin box exists and its [IntVar]
    holds [v]. *)
Record t : Type := mk {
  kind : brush_kind;
  base : FGTTool.t;
  _brush_radius : Z;
  _brush_observers : list nat;
  _brush_sizer : option Z
}.

Definition tool_id (k : brush_kind) : Z :=
  match k with AddRegion => 2 | RemoveRegion => 3 end.

Definition init (k : brush_kind) (b : FGTTool.t) : t := mk k b 15 [] None.

Definition with_brush_radius (r : Z) (s : t) : t :=
  mk (kind s) (base s) r (_brush_observers s) (_brush_sizer s).
Definition with_brush_sizer (v : option Z) (s : t) : t :=
  mk (kind s) (base s) (_brush_radius s) (_brush_observers s) v.
Definition bind_brush (callback : nat) (s : t) : t :=
  mk (kind s) (base s) (_brush_radius s) (_brush_observers s ++ [callback])
     (_brush_sizer s).

Definition notify_brush (s : t) : M (t * World) unit :=
  for_each (_brush_observers s)
    (fun ob => in_world (emit (EBrushObserver ob (_brush_radius s)))).

(** [_on_brush_sizer]: the write trace registered on the spin box variable
    by [get_info_widget]; [val] is [self._brush_sizer_var.get()]. *)
Definition _on_brush_sizer (val : Z) : M (t * World) unit :=
  set_self (with_brush_radius val);;
  me ← self;
  notify_brush me.

(** [brush_radius.setter]; [_brush_sizer_var.set(value)] runs the write
    trace. *)
Definition brush_radius_set (value : Z) : M (t * World) unit :=
  if value >=? 0 then
    set_self (with_brush_radius value);;
    me ← self;
    notify_brush me;;
    match _brush_sizer me with
    | Some _ => set_self (with_brush_sizer (Some value));; _on_brush_sizer value
    | None => mret tt
    end
  else mret tt.

Definition on_adjust (direction : Z) : M (t * World) unit :=
  me ← self;
  if direction >? 0
  then brush_radius_set (_brush_radius me + 1)
  else brush_radius_set (_brush_radius me - 1).

Definition click_tag (k : brush_kind) : string :=
  match k with AddRegion => "add_region" | RemoveRegion => "remove_region" end.

(** The tag of a drag step: [tag = "..._adjust"], and
    [tag += "_" + str(drag_id)] when a drag identifier is given. *)
Definition drag_tag (k : brush_kind) (drag_id : option Z) : string :=
  let tag := match k with
             | AddRegion => "add_region_adjust"
             | RemoveRegion => "remove_region_adjust"
             end in
  match drag_id with
  | Some d => tag +:+ "_" +:+ str d
  | None => tag
  end.

(** [_draw] *)
Definition _draw `{RegionMath} (pos : position) : M (t * World) unit :=
  me ← self;
  p ← attr (FGTTool._patch (base me));
  match kind me with
  | AddRegion => in_world (patch_add_region p pos (_brush_radius me))
  | RemoveRegion => in_world (patch_remove_region p pos (_brush_radius me))
  end;;
  FGTTool._notify_observers (base me).

Definition on_click `{RegionMath} (pos : position) : M (t * World) unit :=
  me ← self;
  p ← attr (FGTTool._patch (base me));
  snapshot ← in_world (deepcopy p);
  in_world (add_to_undo_stack snapshot (click_tag (kind me)));;
  _draw pos.

(** [on_drag]: the snapshot is pushed by the caller; [_draw] is handed to
    a background thread, which [run_thread] executes. *)
Definition on_drag (pos : position) (drag_id : option Z) : M (t * World) unit :=
  me ← self;
  let tag := drag_tag (kind me) drag_id in
  p ← attr (FGTTool._patch (base me));
  snapshot ← in_world (deepcopy p);
  in_world (add_to_undo_stack snapshot tag);;
  in_world (thread_start (mkThread "draw" (tool_id (kind me)) pos)).

Definition run_thread `{RegionMath} (th : Thread) : M (t * World) unit :=
  _draw (thread_arg th).

Definition on_activate (current_patch_num : Z) : M (t * World) unit :=
  me ← self;
  notify_brush me.

End BrushTool.

(** [FloodAddTool] and [FloodRemoveTool] likewise: they differ in the tag,
    in the [Patch] method called, and in the guard of the tolerance setter
    ([value >= 0] for the add tool, [value > 0] for the remove tool). *)
Inductive flood_kind : Type := FloodAdd | FloodRemove.

Module FloodTool.

Record t : Type := mk {
  kind : flood_kind;
  base : FGTTool.t;
  _tolerance : float;
  _increment : float;
  _prev_position : option position;
  _flood_slider : option float;
  _flood_slider_var : option float;
  _slider_init : bool
}.

Definition init (k : flood_kind) (b : FGTTool.t) : t :=
  mk k b 0.05%float 0.01%float None None None false.

Definition with_tolerance (v : float) (s : t) : t :=
  mk (kind s) (base s) v (_increment s) (_prev_position s) (_flood_slider s)
     (_flood_slider_var s) (_slider_init s).
Definition with_slider (v : float) (s : t) : t :=
  mk (kind s) (base s) (_tolerance s) (_increment s) (_prev_position s)
     (Some v) (Some v) (_slider_init s).
Definition with_prev_position (p : option position) (s : t) : t :=
  mk (kind s) (base s) (_tolerance s) (_increment s) p (_flood_slider s)
     (_flood_slider_var s) (_slider_init s).
Definition with_slider_init (b : bool) (s : t) : t :=
  mk (kind s) (base s) (_tolerance s) (_increment s) (_prev_position s)
     (_flood_slider s) (_flood_slider_var s) b.
Definition with_base (f : FGTTool.t -> FGTTool.t) (s : t) : t :=
  mk (kind s) (f (base s)) (_tolerance s) (_increment s) (_prev_position s)
     (_flood_slider s) (_flood_slider_var s) (_slider_init s).

Definition click_tag (k : flood_kind) : string :=
  match k with FloodAdd => "flood_add" | FloodRemove => "flood_remove" end.

(** The guard of the tolerance setter. *)
Definition accepts (k : flood_kind) (value : float) : bool :=
  match k with
  | FloodAdd => float_ge value 0
  | FloodRemove => float_gt value 0
  end.

(** [_add_region] / [_remove_region] *)
Definition _edit_region `{RegionMath} (pos : option position) : M (t * World) unit :=
  match pos with
  | None => mret tt
  | Some seed =>
      me ← self;
      p ← attr (FGTTool._patch (base me));
      match kind me with
      | FloodAdd => in_world (patch_flood_add_region p seed (_tolerance me))
      | FloodRemove => in_world (patch_flood_remove_region p seed (_tolerance me))
      end;;
      FGTTool._notify_observers (base me)
  end.

(** [tolerance.setter] *)
Definition tolerance_set `{RegionMath} (value : float) : M (t * World) unit :=
  k ← gets (fun s => kind (fst s));
  if accepts k value then
    set_self (with_tolerance value);;
    me ← self;
    when (bool_decide (is_Some (_flood_slider me))) (set_self (with_slider value));;
    _edit_region (_prev_position me);;
    FGTTool._notify_observers (base me)
  else mret tt.

(** [patch.setter] *)
Definition patch_set (new : loc) : M (t * World) unit :=
  set_self (with_base (FGTTool.with_patch (Some new)));;
  set_self (with_prev_position None);;
  set_self (with_slider_init false).

Definition on_click `{RegionMath} (pos : position) : M (t * World) unit :=
  set_self (with_prev_position (Some pos));;
  me ← self;
  p ← attr (FGTTool._patch (base me));
  snapshot ← in_world (deepcopy p);
  in_world (add_to_undo_stack snapshot (click_tag (kind me)));;
  _edit_region (Some pos).

Definition on_adjust `{RegionMath} (direction : Z) : M (t * World) unit :=
  me ← self;
  (if direction >? 0
   then tolerance_set (_tolerance me + _increment me)%float
   else tolerance_set (_tolerance me - _increment me)%float);;
  me' ← self;
  _edit_region (_prev_position me').

(** The flood tools do not override [on_drag]. *)
Definition on_drag (pos : position) (drag_id : option Z) : M (t * World) unit :=
  FGTTool.on_drag pos drag_id.

(** [_on_flood_slider] *)
Definition _on_flood_slider `{RegionMath} (value : float) : M (t * World) unit :=
  me ← self;
  when (_slider_init me) (tolerance_set value);;
  set_self (with_slider_init true).

End FloodTool.

(** The navigation tools keep no attributes of their own: their state is
    the base record.  [_activation_callback(patch, index)] is logged. *)

Definition activation_callback {T} (r : option loc * Z) : M (T * World) unit :=
  in_world (emit (EActivation (fst r) (snd r))).

Module NextPatchTool.

(** [_next_patch]: [patches[next_index], next_index] when
    [next_index < len(patches)], else [None, -1]. *)
Definition _next_patch (current_patch_num : Z) : M (FGTTool.t * World) (option loc * Z) :=
  me ← self;
  patches ← attr (FGTTool._image me);
  let next_index := current_patch_num + 1 in
  if next_index <? Z.of_nat (length patches)
  then match py_getitem patches next_index with
       | Ok p => mret (Some p, next_index)
       | Raise e => raise e
       end
  else mret (None, -1).

Definition on_activate (current_patch_num : Z) : M (FGTTool.t * World) unit :=
  r ← _next_patch current_patch_num;
  activation_callback r.

End NextPatchTool.

Module PreviousPatchTool.

(** [_prev_patch]: [patches[prev_index], prev_index] when
    [prev_index >= 0], else [None, -1]. *)
Definition _prev_patch (current_patch_num : Z) : M (FGTTool.t * World) (option loc * Z) :=
  me ← self;
  patches ← attr (FGTTool._image me);
  let prev_index := current_patch_num - 1 in
  if prev_index >=? 0
  then match py_getitem patches prev_index with
       | Ok p => mret (Some p, prev_index)
       | Raise e => raise e
       end
  else mret (None, -1).

Definition on_activate (current_patch_num : Z) : M (FGTTool.t * World) unit :=
  r ← _prev_patch current_patch_num;
  activation_callback r.

End PreviousPatchTool.

Module NoRootTool.

(** [_no_root] *)
Definition _no_root : M (FGTTool.t * World) unit :=
  me ← self;
  p ← attr (FGTTool._patch me);
  in_world (patch_clear_mask p).

(** [_next_patch]: the same text as [NextPatchTool._next_patch]. *)
Definition _next_patch (current_patch_num : Z) : M (FGTTool.t * World) (option loc * Z) :=
  me ← self;
  patches ← attr (FGTTool._image me);
  let next_index := current_patch_num + 1 in
  if next_index <? Z.of_nat (length patches)
  then match py_getitem patches next_index with
       | Ok p => mret (Some p, next_index)
       | Raise e => raise e
       end
  else mret (None, -1).

Definition on_activate (current_patch_num : Z) : M (FGTTool.t * World) unit :=
  me ← self;
  p ← attr (FGTTool._patch me);
  snapshot ← in_world (deepcopy p);
  in_world (add_to_undo_stack snapshot "no_root");;
  _no_root;;
  r ← _next_patch current_patch_num;
  activation_callback r.

End NoRootTool.

(** ** A small concrete world, used to run the model *)

Module Demo.

Definition math : RegionMath := {|
  threshold_mask px v := map (map (fun x => PrimFloat.ltb v x)) px;
  disk px c r := map (map (fun _ => true)) px;
  flood px seed tol := map (map (fun x => PrimFloat.leb x tol)) px
|}.

Definition patch0 : Patch.t :=
  Patch.mk 4 [[0.1; 0.9]; [0.5; 0.2]]%float [[false; false]; [false; false]] 0.5%float.
Definition patch1 : Patch.t :=
  Patch.mk 5 [[0.3; 0.3]; [0.7; 0.8]]%float [[true; false]; [false; true]] 0.25%float.

Definition world : World :=
  mkWorld (<[1%positive := patch0]> (<[2%positive := patch1]> ∅))
          (UndoManager.mk [] [] 20) [] [].

Definition tool_base (id : Z) : FGTTool.t :=
  FGTTool.mk id true [0%nat] (Some 1%positive) (Some [1%positive; 2%positive]).

(** Tools bound to [patch0], each with one observer. *)
Definition thr : ThresholdTool.t :=
  ThresholdTool.mk (tool_base 1) 0.5%float 0.01%float None None false false.
Definition brush (k : brush_kind) : BrushTool.t :=
  BrushTool.mk k (tool_base (BrushTool.tool_id k)) 15 [7%nat] None.
Definition brush0 (k : brush_kind) : BrushTool.t :=
  BrushTool.mk k (tool_base (BrushTool.tool_id k)) 0 [7%nat] None.
Definition fl (k : flood_kind) : FloodTool.t :=
  FloodTool.mk k (tool_base 5) 0.05%float 0.01%float (Some (0, 1)) None None false.

End Demo.

(** ** The main window: display updates and the preview timer *)

Module MainWindow.

(** A [threading.Timer]: [start()] records the start time, [cancel()] sets
    the [finished] flag, and the timer's thread calls its function once
    [interval] seconds have passed unless [finished] is set. *)
Record Timer : Type := mkTimer {
  interval : Q;
  started_at : option Q;
  finished : bool
}.

Inductive Action : Type :=
| ACreateCanvas (img : nat)
| ANewImage (img : nat) (patch_offset : Z * Z)
| ASetImage (img : nat)
| AThreadStart
| ATimerCancel (timer : nat)
| ATimerStart (timer : nat)
| ATimerFire (timer : nat)
| AUpdateImage.

(** The window's attributes read by [show_image], the timers created so far
    (a timer is named by its position), the preview threads started and not
    yet run, the clock, and the timed log of what was done. *)
Record t : Type := mk {
  _canvas : option nat;
  _preview_window : bool;
  _cur_preview_thread : option nat;
  timers : list Timer;
  preview_threads : nat;
  now : Q;
  log : list (Q * Action)
}.

Definition init : t := mk None false None [] 0%nat 0%Q [].

Definition record (a : Action) (s : t) : t :=
  mk (_canvas s) (_preview_window s) (_cur_preview_thread s) (timers s)
     (preview_threads s) (now s) (log s ++ [(now s, a)]).

Definition with_canvas (c : option nat) (s : t) : t :=
  mk c (_preview_window s) (_cur_preview_thread s) (timers s)
     (preview_threads s) (now s) (log s).

Definition with_preview_window (b : bool) (s : t) : t :=
  mk (_canvas s) b (_cur_preview_thread s) (timers s)
     (preview_threads s) (now s) (log s).

Definition with_timers (f : list Timer -> list Timer) (s : t) : t :=
  mk (_canvas s) (_preview_window s) (_cur_preview_thread s) (f (timers s))
     (preview_threads s) (now s) (log s).

Definition with_cur_preview_thread (c : option nat) (s : t) : t :=
  mk (_canvas s) (_preview_window s) c (timers s)
     (preview_threads s) (now s) (log s).

Definition with_preview_threads (n : nat) (s : t) : t :=
  mk (_canvas s) (_preview_window s) (_cur_preview_thread s) (timers s)
     n (now s) (log s).

(** [Timer.cancel()] *)
Definition timer_cancel (i : nat) (s : t) : t :=
  record (ATimerCancel i)
    (with_timers (alter (fun tm => mkTimer (interval tm) (started_at tm) true) i) s).

(** [Timer.start()] *)
Definition timer_start (i : nat) (s : t) : t :=
  record (ATimerStart i)
    (with_timers (alter (fun tm => mkTimer (interval tm) (Some (now s)) (finished tm)) i) s).

(** [create_canvas]; the preview window it shows or hides through
    [_on_preview_setting] is the step [step_preview] below. *)
Definition create_canvas (img : nat) (s : t) : t :=
  record (ACreateCanvas img) (with_canvas (Some img) s).

(** [update_preview] *)
Definition update_preview (s : t) : t :=
  if _preview_window s then record AUpdateImage s else s.

(** [show_image] *)
Definition show_image (img : nat) (new : bool) (patch_offset : Z * Z) (s : t) : t :=
  match _canvas s with
  | None => create_canvas img s
  | Some _ =>
      if new then
        let s := record (ANewImage img patch_offset) (with_canvas (Some img) s) in
        record AThreadStart (with_preview_threads (S (preview_threads s)) s)
      else
        let s := record (ASetImage img) (with_canvas (Some img) s) in
        let s := match _cur_preview_thread s with
                 | Some i => timer_cancel i s
                 | None => s
                 end in
        let i := length (timers s) in
        let s := with_timers (fun ts => ts ++ [mkTimer 1 None false]) s in
        let s := with_cur_preview_thread (Some i) s in
        timer_start i s
  end.

(** The body of a timer's thread once its wait is over. *)
Definition timer_run (i : nat) (s : t) : t :=
  match timers s !! i with
  | Some tm =>
      let s' := if finished tm then s else update_preview (record (ATimerFire i) s) in
      with_timers (alter (fun tm => mkTimer (interval tm) (started_at tm) true) i) s'
  | None => s
  end.

(** A preview thread started for a new image runs [update_preview]. *)
Definition thread_run (s : t) : t :=
  update_preview (with_preview_threads (pred (preview_threads s)) s).

Definition elapse (dt : Q) (s : t) : t :=
  mk (_canvas s) (_preview_window s) (_cur_preview_thread s) (timers s)
     (preview_threads s) (now s + dt)%Q (log s).

(** What can happen to a window: a display update, time passing, a timer
    whose interval is over running its body, a started preview thread
    running, and the preview window being shown or hidden. *)
Inductive step : t -> t -> Prop :=
| step_show img new off s :
    step s (show_image img new off s)
| step_elapse dt s :
    (0 <= dt)%Q -> step s (elapse dt s)
| step_timer i tm t0 s :
    timers s !! i = Some tm -> started_at tm = Some t0 ->
    (t0 + interval tm <= now s)%Q ->
    step s (timer_run i s)
| step_thread s :
    (0 < preview_threads s)%nat -> step s (thread_run s)
| step_preview b s :
    step s (with_preview_window b s).

Definition reachable (s : t) : Prop := rtc step init s.

(** The time of the most recent [set_image] in a log. *)
Fixpoint last_edit (l : list (Q * Action)) : option Q :=
  match l with
  | [] => None
  | (time, a) :: l' =>
      match last_edit l' with
      | Some time' => Some time'
      | None => match a with ASetImage _ => Some time | _ => None end
      end
  end.

(** Every timer firing in the log comes at least a second after the edit
    that precedes it. *)
Definition quiet_fires (l : list (Q * Action)) : Prop :=
  forall pre time i post,
    l = pre ++ (time, ATimerFire i) :: post ->
    exists edit, last_edit pre = Some edit /\ (edit + 1 <= time)%Q.

(** A timer that can still fire. *)
Definition pending (tm : Timer) : Prop :=
  finished tm = false /\ is_Some (started_at tm).

End MainWindow.

(** ** Vocabulary of the statements *)

(** A float outside the interval [0,1]: below 0, above 1, or not a number. *)
Definition outside_unit (v : float) : Prop :=
  PrimFloat.ltb v 0 = true \/ PrimFloat.ltb 1 v = true \/ PrimFloat.is_nan v = true.

Definition negative (v : float) : Prop := PrimFloat.ltb v 0 = true.

(** The location [copy.deepcopy] allocates in a world. *)
Definition fresh_loc (w : World) : loc := fresh (dom (heap w)).

Definition with_heap (h : gmap loc Patch.t) (w : World) : World :=
  mkWorld h (manager w) (events w) (threads w).

Definition logged (es : list Event) (w : World) : World :=
  mkWorld (heap w) (manager w) (events w ++ es) (threads w).

Definition pushed (snapshot : loc) (tag : string) (w : World) : World :=
  mkWorld (heap w) (UndoManager.add_to_undo_stack snapshot tag (manager w))
          (events w) (threads w).

(** The top of the undo stack. *)
Definition top (w : World) : option (loc * string) :=
  last (UndoManager.undo_stack (manager w)).

Definition is_push (e : Event) : bool :=
  match e with EUndoPush _ _ => true | _ => false end.

(** The tool and the world a method call ends in. *)
Definition final {T A} (r : Res (A * (T * World))) : option (T * World) :=
  match r with Ok (_, s) => Some s | Raise _ => None end.

(** What a brush or flood tool does to its patch, and the call it makes. *)
Definition brush_edit `{RegionMath} (k : brush_kind) (pos : position) (r : Z)
    (p : Patch.t) : Patch.t :=
  match k with
  | AddRegion => Patch.add_region pos r p
  | RemoveRegion => Patch.remove_region pos r p
  end.

Definition brush_event (k : brush_kind) (l : loc) (pos : position) (r : Z) : Event :=
  match k with
  | AddRegion => EAddRegion l pos r
  | RemoveRegion => ERemoveRegion l pos r
  end.

Definition flood_edit `{RegionMath} (k : flood_kind) (seed : position)
    (tol : float) (p : Patch.t) : Patch.t :=
  match k with
  | FloodAdd => Patch.flood_add_region seed tol p
  | FloodRemove => Patch.flood_remove_region seed tol p
  end.

Definition flood_event (k : flood_kind) (l : loc) (seed : position) (tol : float) : Event :=
  match k with
  | FloodAdd => EFloodAdd l seed tol
  | FloodRemove => EFloodRemove l seed tol
  end.

(** The world after the patch at [l] (holding [p]) was copied to a fresh
    location, the copy pushed under [tag], and the calls [after] made, the
    patch at [l] then holding [p']. *)
Definition snapshot_then (l : loc) (p p' : Patch.t) (tag : string)
    (after : list Event) (w : World) : World :=
  let s := fresh_loc w in
  mkWorld (<[l := p']> (<[s := p]> (heap w)))
          (UndoManager.add_to_undo_stack s tag (manager w))
          (events w ++ [EDeepcopy l s; EUndoPush s tag] ++ after)
          (threads w).

(** [w'] differs from [w] at most in the contents of the patch at [l] and
    in calls logged after those of [w], none of them an undo push. *)
Definition edits_only (l : loc) (w w' : World) : Prop :=
  manager w' = manager w /\
  threads w' = threads w /\
  (forall l', l' <> l -> heap w' !! l' = heap w !! l') /\
  (is_Some (heap w !! l) -> is_Some (heap w' !! l)) /\
  exists es, events w' = events w ++ es /\ existsb is_push es = false.

(** A flood tool keeps its configuration: everything but the tolerance and
    the slider. *)
Definition same_flood_config (t t' : FloodTool.t) : Prop :=
  FloodTool.kind t' = FloodTool.kind t /\
  FloodTool.base t' = FloodTool.base t /\
  FloodTool._increment t' = FloodTool._increment t /\
  FloodTool._prev_position t' = FloodTool._prev_position t.

(** A flood tool can run its fill: it has no seed yet, or its patch is
    bound to a live object. *)
Definition flood_ready (t : FloodTool.t) (w : World) (l : loc) : Prop :=
  FloodTool._prev_position t = None \/
  (FGTTool._patch (FloodTool.base t) = Some l /\ is_Some (heap w !! l)).

(** A sequence of [on_adjust] calls. *)
Definition flood_adjusts `{RegionMath} (ds : list Z) : M (FloodTool.t * World) unit :=
  for_each ds FloodTool.on_adjust.

Definition brush_adjusts (ds : list Z) : M (BrushTool.t * World) unit :=
  for_each ds BrushTool.on_adjust.

(** The patch a threshold assignment leaves behind. *)
Definition thresholded `{RegionMath} (v : float) (p : Patch.t) : Patch.t :=
  Patch.mk (Patch.patch_index p) (Patch.pixel_data p)
           (threshold_mask (Patch.pixel_data p) v) v.

(** The threshold tool after an accepted assignment of [v]. *)
Definition threshold_assigned (v : float) (t : ThresholdTool.t) : ThresholdTool.t :=
  ThresholdTool.with_new_patch false
    (if bool_decide (is_Some (ThresholdTool._threshold_slider t))
        && ThresholdTool._slider_init t
     then ThresholdTool.with_slider v (ThresholdTool.with_threshold v t)
     else ThresholdTool.with_threshold v t).

(** The value [ThresholdTool.on_adjust] tries to assign. *)
Definition threshold_nudge (d : Z) (t : ThresholdTool.t) : float :=
  if d <? 0
  then (ThresholdTool._threshold t + ThresholdTool._increment t)%float
  else (ThresholdTool._threshold t - ThresholdTool._increment t)%float.

(** The threshold tool can assign: its patch is new, or bound to a live
    object. *)
Definition threshold_ready (t : ThresholdTool.t) (w : World) : Prop :=
  ThresholdTool._new_patch t = true \/
  exists l, ThresholdTool.patch t = Some l /\ is_Some (heap w !! l).

(** Reading a parameter off the outcome of a method call. *)
Definition outcome {T A B} (f : T -> B) (r : Res (A * (T * World))) : option B :=
  match r with Ok (_, (t, _)) => Some (f t) | Raise _ => None end.

(** The invariant of the main window: a timer that is not finished is the
    one the window holds, it waits one second, and it was started at the
    time of the last edit; and the log has only quiet firings. *)
Definition window_inv (s : MainWindow.t) : Prop :=
  (forall i tm,
     MainWindow.timers s !! i = Some tm -> MainWindow.finished tm = false ->
     MainWindow._cur_preview_thread s = Some i /\
     MainWindow.interval tm = 1%Q /\
     is_Some (MainWindow.started_at tm) /\
     MainWindow.started_at tm = MainWindow.last_edit (MainWindow.log s)) /\
  MainWindow.quiet_fires (MainWindow.log s).

(** A run of the window: the canvas is created, an edit is shown, half a
    second passes, a second edit is shown, a second passes, and the second
    timer fires. *)
Definition demo_window_first : MainWindow.t :=
  MainWindow.elapse (1 # 2)
    (MainWindow.show_image 1 false (0, 0)
       (MainWindow.with_preview_window true
          (MainWindow.show_image 0 true (0, 0) MainWindow.init))).

Definition demo_window_edits : MainWindow.t :=
  MainWindow.elapse 1 (MainWindow.show_image 2 false (0, 0) demo_window_first).

Definition demo_window : MainWindow.t := MainWindow.timer_run 1 demo_window_edits.

(** ** Sequences of calls on one tool *)

(** What the interface can ask of the threshold tool: an assignment to
    [threshold], [on_adjust], or the slider callback. *)
Inductive threshold_call : Type :=
| ThresholdAssign (value : float)
| ThresholdAdjust (direction : Z)
| ThresholdSlider (value : float).

Definition threshold_call_run `{RegionMath} (c : threshold_call)
    : M (ThresholdTool.t * World) unit :=
  match c with
  | ThresholdAssign v => ThresholdTool.threshold_set v
  | ThresholdAdjust d => ThresholdTool.on_adjust d
  | ThresholdSlider v => ThresholdTool._on_threshold_slider v
  end.

Definition threshold_calls `{RegionMath} (cs : list threshold_call)
    : M (ThresholdTool.t * World) unit :=
  for_each cs threshold_call_run.

(** Likewise for a brush tool: an assignment to [brush_radius],
    [on_adjust], or [on_activate]. *)
Inductive brush_call : Type :=
| BrushAssign (value : Z)
| BrushAdjust (direction : Z)
| BrushActivate (current_patch_num : Z).

Definition brush_call_run (c : brush_call) : M (BrushTool.t * World) unit :=
  match c with
  | BrushAssign v => BrushTool.brush_radius_set v
  | BrushAdjust d => BrushTool.on_adjust d
  | BrushActivate n => BrushTool.on_activate n
  end.

Definition brush_calls (cs : list brush_call) : M (BrushTool.t * World) unit :=
  for_each cs brush_call_run.

(** And for a flood tool: an assignment to [tolerance], [on_adjust], or the
    slider callback. *)
Inductive flood_call : Type :=
| FloodAssign (value : float)
| FloodAdjust (direction : Z)
| FloodSlider (value : float).

Definition flood_call_run `{RegionMath} (c : flood_call)
    : M (FloodTool.t * World) unit :=
  match c with
  | FloodAssign v => FloodTool.tolerance_set v
  | FloodAdjust d => FloodTool.on_adjust d
  | FloodSlider v => FloodTool._on_flood_slider v
  end.

Definition flood_calls `{RegionMath} (cs : list flood_call)
    : M (FloodTool.t * World) unit :=
  for_each cs flood_call_run.


(** The threshold tool is bound to a live patch. *)
Definition threshold_bound (t : ThresholdTool.t) (w : World) (l : loc) : Prop :=
  ThresholdTool.patch t = Some l /\ is_Some (heap w !! l).

(** Every patch of the heap has its threshold within [0,1]. *)
Definition thresholds_in_range (w : World) : Prop :=
  map_Forall (fun _ p => ThresholdTool.in_range (Patch.threshold p) = true) (heap w).

(** A logged call that is not a threshold assignment outside [0,1]. *)
Definition sets_in_range (e : Event) : Prop :=
  match e with
  | ESetThreshold _ v => ThresholdTool.in_range v = true
  | _ => True
  end.

(** A logged call that is a notification of an observer. *)
Definition is_notification (e : Event) : bool :=
  match e with
  | EObserver _ | EBrushObserver _ _ => true
  | _ => false
  end.


(** ** Python dicts and strings *)

(** A [dict]: keys are unique, and keep the order in which they were first
    inserted; [d[k] = v] overwrites in place or appends. *)
Fixpoint dict_set {K V} `{EqDecision K} (k : K) (v : V) (d : list (K * V))
    : list (K * V) :=
  match d with
  | [] => [(k, v)]
  | (k', v') :: d' =>
      if decide (k' = k) then (k', v) :: d' else (k', v') :: dict_set k v d'
  end.

(** [d[k]], with [None] for a missing key. *)
Fixpoint dict_get {K V} `{EqDecision K} (k : K) (d : list (K * V)) : option V :=
  match d with
  | [] => None
  | (k', v') :: d' => if decide (k' = k) then Some v' else dict_get k d'
  end.

Definition dict_keys {K V} (d : list (K * V)) : list K := map fst d.

(** [str.lower()] on the characters of ASCII: the letters [A]..[Z] become
    [a]..[z], every other character is kept. *)
Definition lower_char (c : ascii) : ascii :=
  let n := nat_of_ascii c in
  if (65 <=? n)%nat && (n <=? 90)%nat then ascii_of_nat (n + 32) else c.

Fixpoint str_lower (s : string) : string :=
  match s with
  | EmptyString => EmptyString
  | String c s' => String (lower_char c) (str_lower s')
  end.

(** [s.replace(old, new)] for one-character [old] and [new]. *)
Fixpoint str_replace_char (old new : ascii) (s : string) : string :=
  match s with
  | EmptyString => EmptyString
  | String c s' =>
      String (if decide (c = old) then new else c) (str_replace_char old new s')
  end.



(** ** The event logger *)

Module EventLogger.

(** The values stored in an event: strings, ints, a patch grid coordinate,
    [None]. *)
Inductive value : Type :=
| VStr (s : string)
| VInt (n : Z)
| VCoord (c : Z * Z)
| VNone.

(** The logger's active tool, and the event dicts handed to
    [logging.Logger.info], in order. *)
Record t : Type := mk {
  _active_tool : string;
  emitted : list (list (string * value))
}.

Definition init : t := mk "None" [].

(** [active_tool.setter] *)
Definition active_tool_set (value : string) (s : t) : t :=
  let tool_id := str_lower value in
  let tool_id := str_replace_char " " "_" tool_id in
  mk tool_id (emitted s).

(** [self._event_logger.info(event_data)] *)
Definition info (event_data : list (string * value)) (s : t) : t :=
  mk (_active_tool s) (emitted s ++ [event_data]).

(** [log_load_image] and [log_load_mask] have the same text up to the event
    type; [st] is the formatted time stamp. *)
Definition log_load (event_type_id : string) (st : string) (image_filename : string)
    (image_width image_height patch_grid_width patch_grid_height : Z) (s : t) : t :=
  let event_data := [] in
  let event_data := dict_set "event_type_id" (VStr event_type_id) event_data in
  let event_data := dict_set "timestamp" (VStr st) event_data in
  let event_data := dict_set "image_filename" (VStr image_filename) event_data in
  let event_data := dict_set "image_width" (VInt image_width) event_data in
  let event_data := dict_set "image_height" (VInt image_height) event_data in
  let event_data := dict_set "patch_grid_width" (VInt patch_grid_width) event_data in
  let event_data := dict_set "patch_grid_height" (VInt patch_grid_height) event_data in
  info event_data s.

Definition log_load_image := log_load "load_image".
Definition log_load_mask := log_load "load_mask".

(** [log_event]; [st] is the formatted time stamp, [active_tool_id] is
    [None] when the argument is left out, and [kwargs] are the extra
    fields. *)
Definition log_event (st : string) (event_type_id : string) (patch_grid_coord : value)
    (active_tool_id : option string) (kwargs : list (string * value)) (s : t) : t :=
  let '(active_tool_id, s) :=
    match active_tool_id with
    | None => (_active_tool s, s)
    | Some id =>
        if decide (id = "?") then (_active_tool s, s)
        else (id, active_tool_set id s)
    end in
  let event_data := [] in
  let event_data := dict_set "event_type_id" (VStr event_type_id) event_data in
  let event_data := dict_set "timestamp" (VStr st) event_data in
  let event_data := dict_set "patch_grid_coordinate" patch_grid_coord event_data in
  let event_data := dict_set "active_tool_id" (VStr active_tool_id) event_data in
  let event_data :=
    fold_left (fun d kv => dict_set kv.1 kv.2 d) kwargs event_data in
  info event_data s.

End EventLogger.

(** ** The main window: keys, mouse wheel and toolbar *)

Module Window.

(** Exceptions of this part of the window; a computation that raises keeps
    the state it had reached. *)
Inductive Err : Type := KeyError | UnboundLocalError.

Inductive Outcome (A : Type) : Type :=
| Done (a : A)
| Raised (e : Err).
Arguments Done {A} a.
Arguments Raised {A} e.

Definition W (S A : Type) : Type := S -> Outcome A * S.

#[global] Instance W_ret {S} : MRet (W S) := fun A a s => (Done a, s).

#[global] Instance W_bind {S} : MBind (W S) := fun A B k c s =>
  match c s with
  | (Done a, s') => k a s'
  | (Raised e, s') => (Raised e, s')
  end.

Definition throw {S A} (e : Err) : W S A := fun s => (Raised e, s).
Definition read {S} : W S S := fun s => (Done s, s).
Definition update {S} (f : S -> S) : W S unit := fun s => (Done tt, f s).

(** [try: body except KeyError: handler] *)
Definition try_except_KeyError {S} (body handler : W S unit) : W S unit :=
  fun s => match body s with
           | (Raised KeyError, s') => handler s'
           | r => r
           end.

(** [d[k]], raising [KeyError] for a missing key. *)
Definition getitem {S K V} `{EqDecision K} (k : K) (d : list (K * V)) : W S V :=
  match dict_get k d with
  | Some v => mret v
  | None => throw KeyError
  end.

Fixpoint for_each_w {S A} (xs : list A) (body : A -> W S unit) : W S unit :=
  match xs with
  | [] => mret tt
  | x :: xs' => body x ;; for_each_w xs' body
  end.

(** What the window reads of a tool. *)
Record Tool : Type := mkTool {
  id : Z;
  name : string;
  key_mapping : string;
  persistant : bool;
  group : option string
}.

(** Calls to the controller, the top-level window and the debug log, which
    are recorded in order.  The controller is not part of these files; its
    calls are taken to return. *)
Inductive Call : Type :=
| AdjustTool (direction : Z)
| ActivateTool (tool_id : Z)
| Fullscreen (on : bool)
| Debug (message : string).

(** The controller's [image_tools], the window's key state and mappings,
    and the toolbar buttons (the flag is the button's [disabled] state). *)
Record t : Type := mk {
  image_tools : list (Z * Tool);
  _previous_state : Z;
  _key_mappings : list (Z * string);
  _reverse_key_mappings : list (string * Z);
  _toolbar_buttons : list (Z * bool);
  calls : list Call
}.

(** The window as [__init__] sets it up before it registers the keys. *)
Definition init (tools : list (Z * Tool)) : t := mk tools 0 [] [] [] [].

Definition with_previous_state (n : Z) (s : t) : t :=
  mk (image_tools s) n (_key_mappings s) (_reverse_key_mappings s)
     (_toolbar_buttons s) (calls s).
Definition with_key_mappings (f : list (Z * string) -> list (Z * string)) (s : t) : t :=
  mk (image_tools s) (_previous_state s) (f (_key_mappings s))
     (_reverse_key_mappings s) (_toolbar_buttons s) (calls s).
Definition with_reverse_key_mappings (f : list (string * Z) -> list (string * Z)) (s : t) : t :=
  mk (image_tools s) (_previous_state s) (_key_mappings s)
     (f (_reverse_key_mappings s)) (_toolbar_buttons s) (calls s).
Definition with_toolbar_buttons (f : list (Z * bool) -> list (Z * bool)) (s : t) : t :=
  mk (image_tools s) (_previous_state s) (_key_mappings s)
     (_reverse_key_mappings s) (f (_toolbar_buttons s)) (calls s).
Definition call (c : Call) : W t unit :=
  update (fun s => mk (image_tools s) (_previous_state s) (_key_mappings s)
                      (_reverse_key_mappings s) (_toolbar_buttons s) (calls s ++ [c])).

(** [_register_key_mappings] *)
Definition _register_key_mappings : W t unit :=
  s ← read;
  for_each_w (dict_keys (image_tools s)) (fun tool_id =>
    s ← read;
    tool ← getitem tool_id (image_tools s);
    update (with_key_mappings (dict_set tool_id (key_mapping tool))));;
  s ← read;
  for_each_w (dict_keys (_key_mappings s)) (fun tool_id =>
    s ← read;
    key ← getitem tool_id (_key_mappings s);
    update (with_reverse_key_mappings (dict_set key tool_id))).

(** [_update_toolbar_state]: [button.state(['disabled'])] sets the flag,
    [button.state(['!disabled'])] clears it. *)
Definition _update_toolbar_state (tool_id : Z) : W t unit :=
  s ← read;
  tool ← getitem tool_id (image_tools s);
  if negb (persistant tool) then mret tt
  else
    for_each_w (dict_keys (_toolbar_buttons s)) (fun id =>
      s ← read;
      chosen ← (if decide (id = tool_id)
                then tool ← getitem id (image_tools s); mret (persistant tool)
                else mret false);
      update (with_toolbar_buttons (dict_set id chosen))).

(** [_on_tool_selected] *)
Definition _on_tool_selected (id : Z) : W t unit :=
  call (ActivateTool id);;
  _update_toolbar_state id.

Definition set_default_tool (id : Z) : W t unit := _update_toolbar_state id.

Record KeyEvent : Type := mkKeyEvent {
  state : Z;
  keysym : string
}.

(** The key string [_keystroke] builds. *)
Definition key_of (event : KeyEvent) (s : t) : string :=
  (if decide (state event - _previous_state s = 4) then "CTRL+" else "")
  +:+ str_lower (keysym event).

(** [_keystroke] *)
Definition _keystroke (event : KeyEvent) : W t unit :=
  s ← read;
  key ← (if decide (state event - _previous_state s = 4)
         then mret "CTRL+"
         else update (with_previous_state (state event));; mret "");
  let key := key +:+ str_lower (keysym event) in
  call (Debug ("KEY: " +:+ key));;
  if decide (key = "CTRL+equal" \/ key = "CTRL+=") then call (AdjustTool 1)
  else if decide (key = "CTRL+minus" \/ key = "CTRL+-") then call (AdjustTool (-1))
  else if decide (key = "f11") then call (Fullscreen true)
  else if decide (key = "escape") then call (Fullscreen false)
  else
    try_except_KeyError
      (s ← read;
       tool_id ← getitem key (_reverse_key_mappings s);
       _on_tool_selected tool_id)
      (call (Debug (key +:+ " is not a valid key code"))).

(** A mouse wheel event; [num] is [None] where Tk reports no button. *)
Record WheelEvent : Type := mkWheelEvent {
  num : option Z;
  delta : Z;
  wheel_state : Z
}.

(** [_on_mousewheel]; [rotation] is unbound until one of the tests binds
    it. *)
Definition _on_mousewheel (event : WheelEvent) : W t unit :=
  let rotation :=
    if decide (num event = Some 4) then Some 120
    else if decide (num event = Some 5) then Some (-120)
    else None in
  let rotation := if decide (delta event <> 0) then Some (delta event) else rotation in
  s ← read;
  if decide (wheel_state event - _previous_state s = 4)
  then match rotation with
       | Some r => call (AdjustTool r)
       | None => throw UnboundLocalError
       end
  else mret tt.

(** The grouping loop of [_create_toolbar]: the tools of the three known
    groups in that order, then a last group for the others, which is
    dropped when empty. *)
Definition group_priorities : list (nat * string) :=
  [(0%nat, "Markups"); (1%nat, "Navigation"); (2%nat, "Undo")].

Definition place (groups : list (list Tool)) (tool : Tool) : list (list Tool) :=
  let '(groups, in_priors) :=
    fold_left (fun '(groups, in_priors) p =>
                 if decide (group tool = Some p.2)
                 then (alter (fun g => g ++ [tool]) p.1 groups, true)
                 else (groups, in_priors))
              group_priorities (groups, false) in
  if negb in_priors
  then alter (fun g => g ++ [tool]) (pred (length groups)) groups
  else groups.

Definition toolbar_groups (tools : list (Z * Tool)) : W t (list (list Tool)) :=
  let groups := map (fun _ => []) group_priorities ++ [[]] in
  let step (acc : Outcome (list (list Tool))) (tool_id : Z) :=
    match acc with
    | Done groups =>
        match dict_get tool_id tools with
        | Some tool => Done (place groups tool)
        | None => Raised KeyError
        end
    | Raised e => Raised e
    end in
  fun s =>
    match fold_left step (dict_keys tools) (Done groups) with
    | Done groups =>
        (Done (match last groups with
               | Some [] => removelast groups
               | _ => groups
               end), s)
    | Raised e => (Raised e, s)
    end.

End Window.

(** The ten tools of [tools.py], with the identifiers, names, key mappings,
    persistence flags and groups their constructors pass. *)
Definition fgt_tools : list (Z * Window.Tool) :=
  [(1, Window.mkTool 1 "Threshold Tool" "t" true (Some "Markups"));
   (2, Window.mkTool 2 "Add Region Tool" "a" true (Some "Markups"));
   (3, Window.mkTool 3 "Remove Region Tool" "r" true (Some "Markups"));
   (4, Window.mkTool 4 "No Root Tool" "x" false (Some "Navigation"));
   (5, Window.mkTool 5 "Flood Add Tool" "f" true (Some "Markups"));
   (6, Window.mkTool 6 "Flood Remove Tool" "l" true (Some "Markups"));
   (7, Window.mkTool 7 "Previous Patch" "left" false (Some "Navigation"));
   (8, Window.mkTool 8 "Next Patch" "right" false (Some "Navigation"));
   (9, Window.mkTool 9 "Undo" "CTRL+z" false (Some "Undo"));
   (10, Window.mkTool 10 "Redo" "CTRL+r" false (Some "Undo"))].

(** The window after a call to a collaborator has been recorded. *)
Definition called (c : Window.Call) (s : Window.t) : Window.t := (Window.call c s).2.

(** The keys [_keystroke] handles itself, before it looks for a tool. *)
Definition reserved_key (key : string) : Prop :=
  key ∈ ["CTRL+equal"; "CTRL+="; "CTRL+minus"; "CTRL+-"; "f11"; "escape"]%string.

(** The buttons after [_update_toolbar_state] has marked a persistent
    tool. *)
Definition marked (tool_id : Z) (buttons : list (Z * bool)) : list (Z * bool) :=
  map (fun p => (p.1, bool_decide (p.1 = tool_id))) buttons.

(** A window over the ten tools with its keys registered and one button
    per tool, the first three of them disabled. *)
Definition demo_toolbar : Window.t :=
  Window.with_toolbar_buttons
    (fun _ => map (fun p => (p.1, bool_decide (p.1 <= 3))) fgt_tools)
    (Window._register_key_mappings (Window.init fgt_tools)).2.

(** * Properties *)

(** ** Order on floats *)

Section FloatOrder.
Import SpecFloat.

Lemma SFcompare_antisym x y :
  SFcompare y x = option_map CompOpp (SFcompare x y).
Proof.
  destruct x as [sx|sx| |sx mx ex], y as [sy|sy| |sy my ey]; simpl;
    try destruct sx; try destruct sy; simpl; try reflexivity.
  - rewrite (Z.compare_antisym ey ex).
    destruct (ey ?= ex)%Z; simpl; try reflexivity.
    pose proof (Pos.compare_cont_antisym mx my Eq) as A; simpl in A.
    rewrite <- A. reflexivity.
  - rewrite (Z.compare_antisym ey ex).
    destruct (ey ?= ex)%Z; simpl; try reflexivity.
    pose proof (Pos.compare_cont_antisym mx my Eq) as A; simpl in A.
    rewrite <- A. destruct (Pos.compare_cont Eq mx my); reflexivity.
Qed.

Lemma float_ltb_leb_false a b :
  PrimFloat.ltb a b = true -> PrimFloat.leb b a = false.
Proof.
  rewrite FloatAxioms.ltb_spec, FloatAxioms.leb_spec. unfold SFltb, SFleb.
  rewrite (SFcompare_antisym (Prim2SF a) (Prim2SF b)).
  destruct (SFcompare (Prim2SF a) (Prim2SF b)) as [[]|]; simpl; congruence.
Qed.

Lemma float_ltb_eqb_false a b :
  PrimFloat.ltb a b = true -> PrimFloat.eqb b a = false.
Proof.
  rewrite FloatAxioms.ltb_spec, FloatAxioms.eqb_spec. unfold SFltb, SFeqb.
  rewrite (SFcompare_antisym (Prim2SF a) (Prim2SF b)).
  destruct (SFcompare (Prim2SF a) (Prim2SF b)) as [[]|]; simpl; congruence.
Qed.

Lemma float_nan_leb_false a b :
  PrimFloat.is_nan a = true ->
  PrimFloat.leb a b = false /\ PrimFloat.leb b a = false.
Proof.
  unfold is_nan. rewrite FloatAxioms.eqb_spec, !FloatAxioms.leb_spec.
  unfold SFeqb, SFleb.
  destruct (Prim2SF a) as [sx|sx| |sx mx ex] eqn:E; simpl.
  1,2,4: try destruct sx; simpl; try discriminate.
  3: { intros _. destruct (Prim2SF b); auto. }
  - rewrite Z.compare_refl, Pos.compare_cont_refl. simpl. discriminate.
  - rewrite Z.compare_refl, Pos.compare_cont_refl. simpl. discriminate.
Qed.

End FloatOrder.

Lemma outside_unit_not_in_range v :
  outside_unit v -> ThresholdTool.in_range v = false.
Proof.
  unfold ThresholdTool.in_range, float_ge.
  intros [Hlt | [Hgt | Hnan]].
  - rewrite (float_ltb_leb_false _ _ Hlt). apply andb_false_r.
  - rewrite (float_ltb_leb_false _ _ Hgt). reflexivity.
  - destruct (float_nan_leb_false v 1 Hnan) as [-> _]. reflexivity.
Qed.

Lemma negative_not_accepted k v :
  negative v -> FloodTool.accepts k v = false.
Proof.
  unfold negative, FloodTool.accepts, float_ge, float_gt. intros Hlt.
  destruct k.
  - apply float_ltb_leb_false, Hlt.
  - destruct (PrimFloat.ltb 0 v) eqn:E; [|reflexivity].
    apply float_ltb_leb_false in E.
    rewrite FloatAxioms.ltb_spec in Hlt. rewrite FloatAxioms.leb_spec in E.
    unfold SpecFloat.SFltb, SpecFloat.SFleb in *.
    destruct (SpecFloat.SFcompare (Prim2SF v) (Prim2SF 0)) as [[]|]; congruence.
Qed.

(** ** Rejected assignments *)

(** C3: assigning a value outside the valid domain (a threshold outside
    [0,1], a negative brush radius, a negative flood tolerance) returns
    normally and leaves the tool and the whole world as they were: the
    parameter keeps its value, no patch is mutated, the undo manager is
    untouched, and no observer is called. *)
Theorem out_of_domain_rejected `{RegionMath}
    (thr : ThresholdTool.t) (brush : BrushTool.t) (fl : FloodTool.t)
    (w : World) (v : float) (r : Z) (tol : float) :
  outside_unit v -> r < 0 -> negative tol ->
  ThresholdTool.threshold_set v (thr, w) = Ok (tt, (thr, w)) /\
  BrushTool.brush_radius_set r (brush, w) = Ok (tt, (brush, w)) /\
  FloodTool.tolerance_set tol (fl, w) = Ok (tt, (fl, w)).
Proof.
  intros Hv Hr Htol. repeat split.
  - unfold ThresholdTool.threshold_set.
    rewrite (outside_unit_not_in_range v Hv). reflexivity.
  - unfold BrushTool.brush_radius_set.
    destruct (Z.geb_spec r 0) as [Hge | _]; [lia | reflexivity].
  - unfold FloodTool.tolerance_set, mbind, M_bind, gets. cbn.
    rewrite (negative_not_accepted (FloodTool.kind fl) tol Htol). reflexivity.
Qed.

Lemma out_of_domain_rejected_witness :
  ThresholdTool.threshold_set (H := Demo.math) 1.5%float (Demo.thr, Demo.world)
    = Ok (tt, (Demo.thr, Demo.world)) /\
  BrushTool.brush_radius_set (-1) (Demo.brush AddRegion, Demo.world)
    = Ok (tt, (Demo.brush AddRegion, Demo.world)) /\
  FloodTool.tolerance_set (H := Demo.math) (-0.01)%float
    (Demo.fl FloodRemove, Demo.world)
    = Ok (tt, (Demo.fl FloodRemove, Demo.world)).
Proof.
  apply (out_of_domain_rejected (H := Demo.math) Demo.thr (Demo.brush AddRegion)
           (Demo.fl FloodRemove) Demo.world 1.5%float (-1) (-0.01)%float).
  - right; left; reflexivity.
  - lia.
  - reflexivity.
Defined.

(** ** Running the world operations *)

Lemma fresh_loc_fresh w : heap w !! fresh_loc w = None.
Proof.
  unfold fresh_loc. apply (not_elem_of_dom (D := gset loc)).
  exact (is_fresh (dom (heap w))).
Qed.

Lemma fresh_loc_ne w l p : heap w !! l = Some p -> l <> fresh_loc w.
Proof. intros Hl ->. rewrite fresh_loc_fresh in Hl. discriminate. Qed.

Lemma logged_nil w : logged [] w = w.
Proof. destruct w; unfold logged; simpl. by rewrite app_nil_r. Qed.

Lemma logged_logged es es' w : logged es' (logged es w) = logged (es ++ es') w.
Proof. unfold logged; simpl. by rewrite app_assoc. Qed.

Lemma for_each_emit {T A} (f : A -> Event) (xs : list A) (t : T) (w : World) :
  for_each xs (fun x => in_world (emit (f x))) (t, w)
  = Ok (tt, (t, logged (map f xs) w)).
Proof.
  revert w. induction xs as [|x xs IH]; intros w; simpl.
  - by rewrite logged_nil.
  - unfold mbind, M_bind. simpl. fold (logged [f x] w).
    rewrite IH, logged_logged. reflexivity.
Qed.

Lemma notify_observers_run {T} (b : FGTTool.t) (t : T) (w : World) :
  FGTTool._notify_observers b (t, w)
  = Ok (tt, (t, logged (map EObserver (FGTTool._observers b)) w)).
Proof. apply for_each_emit. Qed.

Lemma load_run w l p : heap w !! l = Some p -> load l w = Ok (p, w).
Proof. intros Hl. unfold load. by rewrite Hl. Qed.

Lemma deepcopy_run w l p :
  heap w !! l = Some p ->
  deepcopy l w
  = Ok (fresh_loc w,
        logged [EDeepcopy l (fresh_loc w)]
               (with_heap (<[fresh_loc w := p]> (heap w)) w)).
Proof.
  intros Hl. unfold deepcopy, mbind, M_bind. by rewrite (load_run _ _ _ Hl).
Qed.

Lemma add_to_undo_stack_run snapshot tag w :
  add_to_undo_stack snapshot tag w
  = Ok (tt, logged [EUndoPush snapshot tag] (pushed snapshot tag w)).
Proof. reflexivity. Qed.

Lemma patch_add_region_run `{RegionMath} w l p c r :
  heap w !! l = Some p ->
  patch_add_region l c r w
  = Ok (tt, with_heap (<[l := Patch.add_region c r p]> (heap w))
                      (logged [EAddRegion l c r] w)).
Proof.
  intros Hl. unfold patch_add_region, mbind, M_bind. by rewrite (load_run _ _ _ Hl).
Qed.

Lemma patch_remove_region_run `{RegionMath} w l p c r :
  heap w !! l = Some p ->
  patch_remove_region l c r w
  = Ok (tt, with_heap (<[l := Patch.remove_region c r p]> (heap w))
                      (logged [ERemoveRegion l c r] w)).
Proof.
  intros Hl. unfold patch_remove_region, mbind, M_bind. by rewrite (load_run _ _ _ Hl).
Qed.

Lemma patch_flood_add_region_run `{RegionMath} w l p seed tol :
  heap w !! l = Some p ->
  patch_flood_add_region l seed tol w
  = Ok (tt, with_heap (<[l := Patch.flood_add_region seed tol p]> (heap w))
                      (logged [EFloodAdd l seed tol] w)).
Proof.
  intros Hl. unfold patch_flood_add_region, mbind, M_bind.
  by rewrite (load_run _ _ _ Hl).
Qed.

Lemma patch_flood_remove_region_run `{RegionMath} w l p seed tol :
  heap w !! l = Some p ->
  patch_flood_remove_region l seed tol w
  = Ok (tt, with_heap (<[l := Patch.flood_remove_region seed tol p]> (heap w))
                      (logged [EFloodRemove l seed tol] w)).
Proof.
  intros Hl. unfold patch_flood_remove_region, mbind, M_bind.
  by rewrite (load_run _ _ _ Hl).
Qed.

Lemma patch_clear_mask_run w l p :
  heap w !! l = Some p ->
  patch_clear_mask l w
  = Ok (tt, with_heap (<[l := Patch.clear_mask p]> (heap w))
                      (logged [EClearMask l] w)).
Proof.
  intros Hl. unfold patch_clear_mask, mbind, M_bind. by rewrite (load_run _ _ _ Hl).
Qed.

Lemma in_range_set_threshold `{RegionMath} v p :
  ThresholdTool.in_range v = true ->
  Patch.set_threshold v p
  = Ok (Patch.mk (Patch.patch_index p) (Patch.pixel_data p)
                 (threshold_mask (Patch.pixel_data p) v) v).
Proof. unfold ThresholdTool.in_range, Patch.set_threshold. by intros ->. Qed.

Lemma patch_threshold_set_run `{RegionMath} w l p v :
  heap w !! l = Some p -> ThresholdTool.in_range v = true ->
  patch_threshold_set l v w
  = Ok (tt, with_heap
              (<[l := Patch.mk (Patch.patch_index p) (Patch.pixel_data p)
                               (threshold_mask (Patch.pixel_data p) v) v]>
                 (heap w))
              (logged [ESetThreshold l v] w)).
Proof.
  intros Hl Hv. unfold patch_threshold_set, mbind, M_bind.
  rewrite (load_run _ _ _ Hl). simpl.
  by rewrite (in_range_set_threshold _ _ Hv).
Qed.

(** Unfolding the plumbing of a method body. *)
Ltac step_method :=
  unfold mbind, M_bind, mret, M_ret, self, set_self, gets, modify, attr,
    in_world, when, raise; simpl.

Lemma world_eq w w' :
  heap w = heap w' -> manager w = manager w' -> events w = events w' ->
  threads w = threads w' -> w = w'.
Proof. destruct w, w'; simpl; congruence. Qed.

Lemma brush_draw_run `{RegionMath} (t : BrushTool.t) w l p pos :
  FGTTool._patch (BrushTool.base t) = Some l -> heap w !! l = Some p ->
  BrushTool._draw pos (t, w)
  = Ok (tt, (t, mkWorld
                  (<[l := brush_edit (BrushTool.kind t) pos (BrushTool._brush_radius t) p]> (heap w))
                  (manager w)
                  (events w ++ brush_event (BrushTool.kind t) l pos (BrushTool._brush_radius t)
                     :: map EObserver (FGTTool._observers (BrushTool.base t)))
                  (threads w))).
Proof.
  intros Hp Hl. unfold BrushTool._draw. step_method. rewrite Hp. simpl.
  destruct (BrushTool.kind t) eqn:Hk; simpl.
  - rewrite (patch_add_region_run _ _ _ _ _ Hl). simpl.
    rewrite notify_observers_run. do 3 f_equal.
    apply world_eq; simpl; auto. by rewrite <- app_assoc.
  - rewrite (patch_remove_region_run _ _ _ _ _ Hl). simpl.
    rewrite notify_observers_run. do 3 f_equal.
    apply world_eq; simpl; auto. by rewrite <- app_assoc.
Qed.

Lemma brush_on_click_run `{RegionMath} (t : BrushTool.t) w l p pos :
  FGTTool._patch (BrushTool.base t) = Some l -> heap w !! l = Some p ->
  BrushTool.on_click pos (t, w)
  = Ok (tt, (t, snapshot_then l p
                  (brush_edit (BrushTool.kind t) pos (BrushTool._brush_radius t) p)
                  (BrushTool.click_tag (BrushTool.kind t))
                  (brush_event (BrushTool.kind t) l pos (BrushTool._brush_radius t)
                     :: map EObserver (FGTTool._observers (BrushTool.base t)))
                  w)).
Proof.
  intros Hp Hl. unfold BrushTool.on_click. step_method. rewrite Hp. simpl.
  rewrite (deepcopy_run _ _ _ Hl). simpl.
  erewrite brush_draw_run; [|exact Hp|].
  2:{ simpl. rewrite lookup_insert_ne; [exact Hl|]. symmetry. eapply fresh_loc_ne, Hl. }
  do 3 f_equal. apply world_eq; simpl; auto.
  by rewrite <- !app_assoc.
Qed.

Lemma brush_on_drag_run (t : BrushTool.t) w l p pos drag_id :
  FGTTool._patch (BrushTool.base t) = Some l -> heap w !! l = Some p ->
  BrushTool.on_drag pos drag_id (t, w)
  = Ok (tt, (t, mkWorld
                  (<[fresh_loc w := p]> (heap w))
                  (UndoManager.add_to_undo_stack (fresh_loc w)
                     (BrushTool.drag_tag (BrushTool.kind t) drag_id) (manager w))
                  (events w ++
                     [EDeepcopy l (fresh_loc w);
                      EUndoPush (fresh_loc w) (BrushTool.drag_tag (BrushTool.kind t) drag_id);
                      EThreadStart (mkThread "draw" (BrushTool.tool_id (BrushTool.kind t)) pos)])
                  (threads w ++ [mkThread "draw" (BrushTool.tool_id (BrushTool.kind t)) pos]))).
Proof.
  intros Hp Hl. unfold BrushTool.on_drag. step_method. rewrite Hp. simpl.
  rewrite (deepcopy_run _ _ _ Hl). simpl.
  do 3 f_equal. apply world_eq; simpl; auto.
  by rewrite <- !app_assoc.
Qed.

(** ** Frames of the flood tools *)

Lemma existsb_is_push_observers obs : existsb is_push (map EObserver obs) = false.
Proof. induction obs; simpl; auto. Qed.

Lemma edits_only_refl l w : edits_only l w w.
Proof.
  repeat split; auto. exists []. by rewrite app_nil_r.
Qed.

Lemma edits_only_trans l w1 w2 w3 :
  edits_only l w1 w2 -> edits_only l w2 w3 -> edits_only l w1 w3.
Proof.
  intros (Hm & Ht & Hh & Hs & es & He & Hes) (Hm' & Ht' & Hh' & Hs' & es' & He' & Hes').
  repeat split.
  - congruence.
  - congruence.
  - intros l' Hne. rewrite Hh', Hh; auto.
  - auto.
  - exists (es ++ es'). split.
    + rewrite He', He. by rewrite app_assoc.
    + rewrite existsb_app, Hes, Hes'. reflexivity.
Qed.

Lemma edits_only_logged_observers l w obs :
  edits_only l w (logged (map EObserver obs) w).
Proof.
  repeat split; auto. exists (map EObserver obs). split; [reflexivity|].
  apply existsb_is_push_observers.
Qed.

Lemma same_flood_config_refl t : same_flood_config t t.
Proof. by repeat split. Qed.

Lemma same_flood_config_trans t1 t2 t3 :
  same_flood_config t1 t2 -> same_flood_config t2 t3 -> same_flood_config t1 t3.
Proof.
  intros (?&?&?&?) (?&?&?&?). repeat split; congruence.
Qed.

Lemma flood_edit_region_run `{RegionMath} (t : FloodTool.t) w l p seed :
  FGTTool._patch (FloodTool.base t) = Some l -> heap w !! l = Some p ->
  FloodTool._edit_region (Some seed) (t, w)
  = Ok (tt, (t, mkWorld
                  (<[l := flood_edit (FloodTool.kind t) seed (FloodTool._tolerance t) p]> (heap w))
                  (manager w)
                  (events w ++ flood_event (FloodTool.kind t) l seed (FloodTool._tolerance t)
                     :: map EObserver (FGTTool._observers (FloodTool.base t)))
                  (threads w))).
Proof.
  intros Hp Hl. unfold FloodTool._edit_region. step_method. rewrite Hp. simpl.
  destruct (FloodTool.kind t) eqn:Hk; simpl.
  - rewrite (patch_flood_add_region_run _ _ _ _ _ Hl). simpl.
    rewrite notify_observers_run. do 3 f_equal.
    apply world_eq; simpl; auto. by rewrite <- app_assoc.
  - rewrite (patch_flood_remove_region_run _ _ _ _ _ Hl). simpl.
    rewrite notify_observers_run. do 3 f_equal.
    apply world_eq; simpl; auto. by rewrite <- app_assoc.
Qed.

Lemma flood_edit_region_frame `{RegionMath} (t : FloodTool.t) w l :
  flood_ready t w l ->
  exists w', FloodTool._edit_region (FloodTool._prev_position t) (t, w) = Ok (tt, (t, w'))
             /\ edits_only l w w'.
Proof.
  intros [Hnone | [Hp [p Hl]]].
  - rewrite Hnone. exists w. split; [reflexivity | apply edits_only_refl].
  - destruct (FloodTool._prev_position t) as [seed|].
    + rewrite (flood_edit_region_run t w l p seed Hp Hl).
      eexists; split; [reflexivity|].
      repeat split; simpl; auto.
      * intros l' Hne. by rewrite lookup_insert_ne.
      * intros _. rewrite lookup_insert_eq. eauto.
      * eexists; split; [reflexivity|]. simpl.
        destruct (FloodTool.kind t); simpl; apply existsb_is_push_observers.
    + exists w. split; [reflexivity | apply edits_only_refl].
Qed.

Lemma flood_ready_mono t t' w w' l :
  same_flood_config t t' -> edits_only l w w' ->
  flood_ready t w l -> flood_ready t' w' l.
Proof.
  intros (_ & Hb & _ & Hpos) (_ & _ & _ & Hs & _) [Hnone | [Hp Hl]].
  - left. congruence.
  - right. split; [congruence | auto].
Qed.

Lemma flood_refill_notify `{RegionMath} (t : FloodTool.t) (b : FGTTool.t) w l :
  flood_ready t w l ->
  exists w',
    match FloodTool._edit_region (FloodTool._prev_position t) (t, w) with
    | Ok (_, s') => FGTTool._notify_observers b s'
    | Raise e => Raise e
    end = Ok (tt, (t, w')) /\ edits_only l w w'.
Proof.
  intros Hready.
  destruct (flood_edit_region_frame t w l Hready) as (w' & Hrun & Hframe).
  rewrite Hrun, notify_observers_run. eexists; split; [reflexivity|].
  eapply edits_only_trans; [exact Hframe | apply edits_only_logged_observers].
Qed.

Lemma flood_tolerance_set_spec `{RegionMath} (t : FloodTool.t) w l v :
  flood_ready t w l ->
  exists t' w',
    FloodTool.tolerance_set v (t, w) = Ok (tt, (t', w')) /\
    FloodTool._tolerance t'
      = (if FloodTool.accepts (FloodTool.kind t) v then v else FloodTool._tolerance t) /\
    same_flood_config t t' /\ edits_only l w w'.
Proof.
  intros Hready. unfold FloodTool.tolerance_set. step_method.
  destruct (FloodTool.accepts (FloodTool.kind t) v) eqn:Hacc.
  2:{ exists t, w. split_and!; auto using same_flood_config_refl, edits_only_refl. }
  simpl. destruct (bool_decide (is_Some (FloodTool._flood_slider t))); cbn.
  - destruct (flood_refill_notify (FloodTool.with_slider v (FloodTool.with_tolerance v t))
                (FloodTool.base t) w l) as (w' & Hrun & Hframe).
    { eapply flood_ready_mono; eauto using edits_only_refl. by repeat split. }
    simpl in Hrun. rewrite Hrun. eexists _, _. split_and!; eauto. by repeat split.
  - destruct (flood_refill_notify (FloodTool.with_tolerance v t)
                (FloodTool.base t) w l) as (w' & Hrun & Hframe).
    { eapply flood_ready_mono; eauto using edits_only_refl. by repeat split. }
    simpl in Hrun. rewrite Hrun. eexists _, _. split_and!; eauto. by repeat split.
Qed.

Lemma flood_on_adjust_spec `{RegionMath} (t : FloodTool.t) w l d :
  flood_ready t w l ->
  exists t' w',
    FloodTool.on_adjust d (t, w) = Ok (tt, (t', w')) /\
    FloodTool._tolerance t'
      = (let v := if d >? 0
                  then (FloodTool._tolerance t + FloodTool._increment t)%float
                  else (FloodTool._tolerance t - FloodTool._increment t)%float in
         if FloodTool.accepts (FloodTool.kind t) v then v else FloodTool._tolerance t) /\
    same_flood_config t t' /\ edits_only l w w'.
Proof.
  intros Hready. unfold FloodTool.on_adjust. step_method.
  set (v := if d >? 0
            then (FloodTool._tolerance t + FloodTool._increment t)%float
            else (FloodTool._tolerance t - FloodTool._increment t)%float).
  destruct (flood_tolerance_set_spec t w l v Hready) as (t1 & w1 & Hrun & Htol & Hcfg & Hframe).
  assert (Hrun' :
    (if d >? 0
     then FloodTool.tolerance_set (FloodTool._tolerance t + FloodTool._increment t)%float
     else FloodTool.tolerance_set (FloodTool._tolerance t - FloodTool._increment t)%float)
      (t, w) = Ok (tt, (t1, w1))).
  { subst v. destruct (d >? 0); exact Hrun. }
  rewrite Hrun'.
  assert (Hready1 : flood_ready t1 w1 l) by (eapply flood_ready_mono; eauto).
  destruct (flood_edit_region_frame t1 w1 l Hready1) as (w2 & Hrun2 & Hframe2).
  cbn. rewrite Hrun2. exists t1, w2. split_and!; auto.
  eapply edits_only_trans; eauto.
Qed.

Lemma flood_adjusts_spec `{RegionMath} (ds : list Z) (t : FloodTool.t) w l :
  flood_ready t w l ->
  exists t' w',
    flood_adjusts ds (t, w) = Ok (tt, (t', w')) /\
    same_flood_config t t' /\ edits_only l w w'.
Proof.
  revert t w. induction ds as [|d ds IH]; intros t w Hready.
  - exists t, w. split_and!; auto using same_flood_config_refl, edits_only_refl.
  - destruct (flood_on_adjust_spec t w l d Hready) as (t1 & w1 & Hrun & _ & Hcfg & Hframe).
    assert (Hready1 : flood_ready t1 w1 l) by (eapply flood_ready_mono; eauto).
    destruct (IH t1 w1 Hready1) as (t2 & w2 & Hrun2 & Hcfg2 & Hframe2).
    exists t2, w2. split_and!.
    + unfold flood_adjusts in *. simpl. unfold mbind, M_bind at 1.
      rewrite Hrun. exact Hrun2.
    + eapply same_flood_config_trans; eauto.
    + eapply edits_only_trans; eauto.
Qed.

#[local] Arguments FloodTool._edit_region : simpl never.

Lemma flood_on_click_run `{RegionMath} (t : FloodTool.t) w l p pos :
  FGTTool._patch (FloodTool.base t) = Some l -> heap w !! l = Some p ->
  FloodTool.on_click pos (t, w)
  = Ok (tt, (FloodTool.with_prev_position (Some pos) t,
             snapshot_then l p
               (flood_edit (FloodTool.kind t) pos (FloodTool._tolerance t) p)
               (FloodTool.click_tag (FloodTool.kind t))
               (flood_event (FloodTool.kind t) l pos (FloodTool._tolerance t)
                  :: map EObserver (FGTTool._observers (FloodTool.base t)))
               w)).
Proof.
  intros Hp Hl. unfold FloodTool.on_click. step_method. rewrite Hp. simpl.
  rewrite (deepcopy_run _ _ _ Hl). simpl.
  erewrite flood_edit_region_run; [|exact Hp|].
  2:{ simpl. rewrite lookup_insert_ne; [exact Hl|]. symmetry. eapply fresh_loc_ne, Hl. }
  do 3 f_equal. apply world_eq; simpl; auto.
  by rewrite <- !app_assoc.
Qed.

(** ** The brush and threshold setters *)

Lemma brush_radius_set_spec (t : BrushTool.t) w v :
  exists t' es,
    BrushTool.brush_radius_set v (t, w) = Ok (tt, (t', logged es w)) /\
    existsb is_push es = false /\
    BrushTool._brush_radius t' = (if v >=? 0 then v else BrushTool._brush_radius t) /\
    BrushTool.kind t' = BrushTool.kind t /\ BrushTool.base t' = BrushTool.base t.
Proof.
  unfold BrushTool.brush_radius_set. destruct (v >=? 0).
  2:{ exists t, []. rewrite logged_nil. by split_and!. }
  step_method. unfold BrushTool.notify_brush. rewrite for_each_emit.
  destruct (BrushTool._brush_sizer t) as [old|]; cbn.
  - unfold BrushTool._on_brush_sizer. step_method.
    unfold BrushTool.notify_brush. rewrite for_each_emit, logged_logged.
    eexists _, _. split; [reflexivity|]. split_and!; try reflexivity.
    rewrite existsb_app. simpl.
    induction (BrushTool._brush_observers t); simpl; auto.
  - eexists _, _. split; [reflexivity|]. split_and!; try reflexivity.
    induction (BrushTool._brush_observers t); simpl; auto.
Qed.

Lemma brush_on_adjust_spec (t : BrushTool.t) w d :
  exists t' es,
    BrushTool.on_adjust d (t, w) = Ok (tt, (t', logged es w)) /\
    existsb is_push es = false /\
    BrushTool._brush_radius t'
      = (let v := if d >? 0 then BrushTool._brush_radius t + 1
                  else BrushTool._brush_radius t - 1 in
         if v >=? 0 then v else BrushTool._brush_radius t) /\
    BrushTool.kind t' = BrushTool.kind t /\ BrushTool.base t' = BrushTool.base t.
Proof.
  unfold BrushTool.on_adjust. step_method.
  destruct (d >? 0); apply brush_radius_set_spec.
Qed.

Lemma brush_adjusts_spec (ds : list Z) (t : BrushTool.t) w :
  exists t' es,
    brush_adjusts ds (t, w) = Ok (tt, (t', logged es w)) /\
    existsb is_push es = false /\
    BrushTool.kind t' = BrushTool.kind t /\ BrushTool.base t' = BrushTool.base t.
Proof.
  revert t w. induction ds as [|d ds IH]; intros t w.
  - exists t, []. rewrite logged_nil. by split_and!.
  - destruct (brush_on_adjust_spec t w d) as (t1 & es1 & Hrun & Hes & _ & Hk & Hb).
    destruct (IH t1 (logged es1 w)) as (t2 & es2 & Hrun2 & Hes2 & Hk2 & Hb2).
    exists t2, (es1 ++ es2). split_and!; try congruence.
    + unfold brush_adjusts in *. simpl. unfold mbind, M_bind at 1.
      rewrite Hrun, Hrun2, logged_logged. reflexivity.
    + by rewrite existsb_app, Hes, Hes2.
Qed.

Lemma threshold_set_rejected `{RegionMath} (t : ThresholdTool.t) w v :
  ThresholdTool.in_range v = false ->
  ThresholdTool.threshold_set v (t, w) = Ok (tt, (t, w)).
Proof. intros Hv. unfold ThresholdTool.threshold_set. by rewrite Hv. Qed.

Lemma threshold_set_new_patch `{RegionMath} (t : ThresholdTool.t) w v :
  ThresholdTool.in_range v = true -> ThresholdTool._new_patch t = true ->
  ThresholdTool.threshold_set v (t, w)
  = Ok (tt, (threshold_assigned v t,
             logged (map EObserver (FGTTool._observers (ThresholdTool.base t))) w)).
Proof.
  intros Hv Hnew. unfold ThresholdTool.threshold_set, threshold_assigned.
  rewrite Hv. step_method. rewrite Hnew. cbn.
  destruct (bool_decide _ && _); cbn; rewrite notify_observers_run; reflexivity.
Qed.

Lemma threshold_set_bound `{RegionMath} (t : ThresholdTool.t) w v l p :
  ThresholdTool.in_range v = true -> ThresholdTool._new_patch t = false ->
  ThresholdTool.patch t = Some l -> heap w !! l = Some p ->
  ThresholdTool.threshold_set v (t, w)
  = Ok (tt, (threshold_assigned v t,
             if FGTTool._can_undo (ThresholdTool.base t)
             then mkWorld (<[fresh_loc w := thresholded v p]> (<[l := thresholded v p]> (heap w)))
                          (UndoManager.add_to_undo_stack (fresh_loc w) "threshold_adjust" (manager w))
                          (events w ++ [ESetThreshold l v; EDeepcopy l (fresh_loc w);
                                        EUndoPush (fresh_loc w) "threshold_adjust"]
                             ++ map EObserver (FGTTool._observers (ThresholdTool.base t)))
                          (threads w)
             else mkWorld (<[l := thresholded v p]> (heap w)) (manager w)
                          (events w ++ [ESetThreshold l v]
                             ++ map EObserver (FGTTool._observers (ThresholdTool.base t)))
                          (threads w))).
Proof.
  intros Hv Hnew Hp Hl. unfold ThresholdTool.threshold_set, threshold_assigned.
  rewrite Hv. step_method. rewrite Hnew. cbn.
  change (ThresholdTool.patch (ThresholdTool.with_threshold v t))
    with (ThresholdTool.patch t).
  rewrite Hp. cbn.
  rewrite (patch_threshold_set_run _ _ _ _ Hl Hv). cbn.
  destruct (FGTTool._can_undo (ThresholdTool.base t)); cbn.
  - erewrite deepcopy_run; [|cbn; apply lookup_insert_eq]. cbn.
    assert (Hfresh : fresh_loc (with_heap
               (<[l := Patch.mk (Patch.patch_index p) (Patch.pixel_data p)
                                (threshold_mask (Patch.pixel_data p) v) v]> (heap w))
               (logged [ESetThreshold l v] w)) = fresh_loc w).
    { unfold fresh_loc. cbn. rewrite dom_insert_lookup_L; eauto. }
    rewrite Hfresh.
    destruct (bool_decide _ && _); cbn; rewrite notify_observers_run;
      do 3 f_equal; apply world_eq; cbn; auto; by rewrite <- !app_assoc.
  - destruct (bool_decide _ && _); cbn; rewrite notify_observers_run;
      do 3 f_equal; apply world_eq; cbn; auto; by rewrite <- !app_assoc.
Qed.

(** ** Adjusting a parameter *)

Lemma threshold_assigned_threshold v t :
  ThresholdTool._threshold (threshold_assigned v t) = v.
Proof. unfold threshold_assigned. destruct (bool_decide _ && _); reflexivity. Qed.

Lemma threshold_set_spec `{RegionMath} (t : ThresholdTool.t) w v :
  threshold_ready t w ->
  exists t' w',
    ThresholdTool.threshold_set v (t, w) = Ok (tt, (t', w')) /\
    ThresholdTool._threshold t'
      = (if ThresholdTool.in_range v then v else ThresholdTool._threshold t).
Proof.
  intros Hready. destruct (ThresholdTool.in_range v) eqn:Hv.
  - destruct (ThresholdTool._new_patch t) eqn:Hnew.
    + rewrite (threshold_set_new_patch t w v Hv Hnew).
      eexists _, _. split; [reflexivity | apply threshold_assigned_threshold].
    + destruct Hready as [Hnew' | (l & Hp & p & Hl)]; [congruence|].
      rewrite (threshold_set_bound t w v l p Hv Hnew Hp Hl).
      eexists _, _. split; [reflexivity | apply threshold_assigned_threshold].
  - rewrite (threshold_set_rejected t w v Hv). by eexists _, _.
Qed.

(** C1, as the code has it: [ThresholdTool.on_adjust] raises the threshold
    by the increment on a negative direction and lowers it otherwise (the
    direction is inverted); the brush tools add 1 to the radius on a
    positive direction and subtract 1 otherwise; the flood tools add the
    increment to the tolerance on a positive direction and subtract it
    otherwise.  In each case the new value is assigned through the setter,
    so the parameter changes only when the setter's guard accepts it and
    keeps its value when it does not. *)
Theorem on_adjust_nudges `{RegionMath}
    (thr : ThresholdTool.t) (brush : BrushTool.t) (fl : FloodTool.t)
    (w : World) (l : loc) (d : Z) :
  threshold_ready thr w -> flood_ready fl w l ->
  (exists t' w',
     ThresholdTool.on_adjust d (thr, w) = Ok (tt, (t', w')) /\
     ThresholdTool._threshold t'
       = (let v := if d <? 0
                   then (ThresholdTool._threshold thr + ThresholdTool._increment thr)%float
                   else (ThresholdTool._threshold thr - ThresholdTool._increment thr)%float in
          if PrimFloat.leb v 1 && PrimFloat.leb 0 v then v
          else ThresholdTool._threshold thr)) /\
  (exists t' w',
     BrushTool.on_adjust d (brush, w) = Ok (tt, (t', w')) /\
     BrushTool._brush_radius t'
       = (let v := if d >? 0 then BrushTool._brush_radius brush + 1
                   else BrushTool._brush_radius brush - 1 in
          if v >=? 0 then v else BrushTool._brush_radius brush)) /\
  (exists t' w',
     FloodTool.on_adjust d (fl, w) = Ok (tt, (t', w')) /\
     FloodTool._tolerance t'
       = (let v := if d >? 0
                   then (FloodTool._tolerance fl + FloodTool._increment fl)%float
                   else (FloodTool._tolerance fl - FloodTool._increment fl)%float in
          if match FloodTool.kind fl with
             | FloodAdd => PrimFloat.leb 0 v
             | FloodRemove => PrimFloat.ltb 0 v
             end
          then v else FloodTool._tolerance fl)).
Proof.
  intros Hthr Hfl. split_and!.
  - unfold ThresholdTool.on_adjust, ThresholdTool._adjust_threshold.
    step_method.
    destruct (d <? 0); apply (threshold_set_spec thr w _ Hthr).
  - destruct (brush_on_adjust_spec brush w d) as (t' & es & Hrun & _ & Hr & _).
    eauto.
  - destruct (flood_on_adjust_spec fl w l d Hfl) as (t' & w' & Hrun & Htol & _).
    exists t', w'. split; [exact Hrun|]. rewrite Htol. cbn.
    destruct (FloodTool.kind fl); reflexivity.
Qed.

Lemma on_adjust_nudges_witness :
  (exists t' w',
     ThresholdTool.on_adjust (H := Demo.math) (-1) (Demo.thr, Demo.world)
       = Ok (tt, (t', w')) /\
     ThresholdTool._threshold t' = (0.5 + 0.01)%float) /\
  (exists t' w',
     BrushTool.on_adjust (-1) (Demo.brush0 AddRegion, Demo.world)
       = Ok (tt, (t', w')) /\
     BrushTool._brush_radius t' = 0) /\
  (exists t' w',
     FloodTool.on_adjust (H := Demo.math) (-1) (Demo.fl FloodRemove, Demo.world)
       = Ok (tt, (t', w')) /\
     FloodTool._tolerance t' = (0.05 - 0.01)%float).
Proof.
  apply (on_adjust_nudges (H := Demo.math) Demo.thr (Demo.brush0 AddRegion)
           (Demo.fl FloodRemove) Demo.world 1%positive (-1)).
  - right. exists 1%positive. split; [reflexivity|]. vm_compute. eauto.
  - right. split; [reflexivity|]. vm_compute. eauto.
Defined.

(** C1 as stated fails: a positive direction lowers the threshold (from 0.5
    to 0.5 - 0.01), and a negative direction leaves a brush radius of 0 at
    0. *)
Lemma on_adjust_direction_counterexample :
  outcome ThresholdTool._threshold
    (ThresholdTool.on_adjust (H := Demo.math) 1 (Demo.thr, Demo.world))
    = Some (0.5 - 0.01)%float /\
  outcome ThresholdTool._threshold
    (ThresholdTool.on_adjust (H := Demo.math) 1 (Demo.thr, Demo.world))
    <> Some (ThresholdTool._threshold Demo.thr + ThresholdTool._increment Demo.thr)%float /\
  outcome BrushTool._brush_radius
    (BrushTool.on_adjust (-1) (Demo.brush0 AddRegion, Demo.world))
    = Some (BrushTool._brush_radius (Demo.brush0 AddRegion)).
Proof.
  split_and!.
  - vm_compute. reflexivity.
  - intros E.
    apply (f_equal (fun o => match o with
                             | Some x => PrimFloat.ltb x 0.5
                             | None => false
                             end)) in E.
    vm_compute in E. discriminate.
  - vm_compute. reflexivity.
Qed.

(** ** The undo stack *)

Lemma pop_snoc {A} (s : list A) (x : A) : UndoManager.pop (s ++ [x]) = Some (x, s).
Proof. unfold UndoManager.pop. by rewrite rev_unit, rev_involutive. Qed.

Lemma last_tail {A} (s : list A) (x : A) :
  s <> [] -> last (tail (s ++ [x])) = Some x.
Proof.
  destruct s as [|y s]; [congruence|]. intros _. simpl. apply last_snoc.
Qed.

Lemma add_to_undo_stack_top snapshot tag m :
  (0 < UndoManager.max_depth m)%nat ->
  last (UndoManager.undo_stack (UndoManager.add_to_undo_stack snapshot tag m))
  = Some (snapshot, tag).
Proof.
  intros Hcap. unfold UndoManager.add_to_undo_stack. simpl.
  destruct (Nat.ltb_spec (UndoManager.max_depth m)
              (length (UndoManager.undo_stack m ++ [(snapshot, tag)]))) as [Hfull|_].
  - apply last_tail. intros Hnil. rewrite Hnil in Hfull. simpl in Hfull. lia.
  - apply last_snoc.
Qed.

Lemma add_to_undo_stack_max_depth snapshot tag m :
  UndoManager.max_depth (UndoManager.add_to_undo_stack snapshot tag m)
  = UndoManager.max_depth m.
Proof. reflexivity. Qed.

Lemma undo_run w cur q snapshot tag :
  top w = Some (snapshot, tag) -> heap w !! cur = Some q ->
  exists w',
    undo cur w = Ok ((Some snapshot, Some tag), w') /\
    (forall l, l <> fresh_loc w -> heap w' !! l = heap w !! l).
Proof.
  unfold top. intros Htop Hcur.
  apply last_Some in Htop as [rest Hstack].
  unfold undo. step_method. rewrite Hstack, pop_snoc.
  rewrite (deepcopy_run _ _ _ Hcur). cbn.
  eexists; split; [reflexivity|]. cbn.
  intros l Hne. by rewrite lookup_insert_ne.
Qed.

Lemma undo_empty w cur :
  UndoManager.undo_stack (manager w) = [] -> undo cur w = Ok ((None, None), w).
Proof. intros Hnil. unfold undo. step_method. by rewrite Hnil. Qed.

Lemma snapshot_then_snapshot l p p' tag after w :
  heap w !! l = Some p ->
  heap (snapshot_then l p p' tag after w) !! fresh_loc w = Some p.
Proof.
  intros Hl. unfold snapshot_then. simpl.
  rewrite lookup_insert_ne by (eapply fresh_loc_ne, Hl).
  apply lookup_insert_eq.
Qed.

Lemma snapshot_then_live l p p' tag after w :
  heap (snapshot_then l p p' tag after w) !! l = Some p'.
Proof. unfold snapshot_then. simpl. apply lookup_insert_eq. Qed.

(** ** Adjusting and the undo stack *)

(** C2, as the code has it: for the brush and the flood tools, [on_adjust]
    never pushes an undo entry.  After a click that pushed the snapshot of
    the patch, any sequence of [on_adjust] calls leaves the undo manager as
    the click left it and logs no push, the snapshot still holds the patch
    as it was before the click, and one [undo()] returns that snapshot with
    the click's tag.  [ThresholdTool.on_adjust] is different: when the new
    value is accepted, the patch is not new and undos are unlocked, it
    pushes one ["threshold_adjust"] entry. *)
Theorem adjust_keeps_undo_stack `{RegionMath}
    (brush : BrushTool.t) (fl : FloodTool.t) (thr : ThresholdTool.t)
    (w : World) (lb lf lt : loc) (pb pf pt : Patch.t)
    (pos : position) (ds : list Z) (d : Z) :
  FGTTool._patch (BrushTool.base brush) = Some lb -> heap w !! lb = Some pb ->
  FGTTool._patch (FloodTool.base fl) = Some lf -> heap w !! lf = Some pf ->
  (0 < UndoManager.max_depth (manager w))%nat ->
  ThresholdTool.patch thr = Some lt -> heap w !! lt = Some pt ->
  ThresholdTool._new_patch thr = false ->
  FGTTool._can_undo (ThresholdTool.base thr) = true ->
  ThresholdTool.in_range (threshold_nudge d thr) = true ->
  (exists t1 w1 t2 w2 w3 es,
     BrushTool.on_click pos (brush, w) = Ok (tt, (t1, w1)) /\
     brush_adjusts ds (t1, w1) = Ok (tt, (t2, w2)) /\
     manager w2 = manager w1 /\
     events w2 = events w1 ++ es /\ existsb is_push es = false /\
     heap w2 !! fresh_loc w = Some pb /\
     undo lb w2
       = Ok ((Some (fresh_loc w), Some (BrushTool.click_tag (BrushTool.kind brush))), w3)) /\
  (exists t1 w1 t2 w2 w3 es,
     FloodTool.on_click pos (fl, w) = Ok (tt, (t1, w1)) /\
     flood_adjusts ds (t1, w1) = Ok (tt, (t2, w2)) /\
     manager w2 = manager w1 /\
     events w2 = events w1 ++ es /\ existsb is_push es = false /\
     heap w2 !! fresh_loc w = Some pf /\
     undo lf w2
       = Ok ((Some (fresh_loc w), Some (FloodTool.click_tag (FloodTool.kind fl))), w3)) /\
  (exists t' w',
     ThresholdTool.on_adjust d (thr, w) = Ok (tt, (t', w')) /\
     manager w'
       = UndoManager.add_to_undo_stack (fresh_loc w) "threshold_adjust" (manager w) /\
     events w'
       = events w ++ [ESetThreshold lt (threshold_nudge d thr);
                      EDeepcopy lt (fresh_loc w);
                      EUndoPush (fresh_loc w) "threshold_adjust"]
                  ++ map EObserver (FGTTool._observers (ThresholdTool.base thr))).
Proof.
  intros Hb Hlb Hf Hlf Hcap Ht Hlt Hnew Hundo Hv. split_and!.
  - rewrite (brush_on_click_run brush w lb pb pos Hb Hlb).
    set (w1 := snapshot_then _ _ _ _ _ w).
    destruct (brush_adjusts_spec ds brush w1) as (t2 & es & Hrun & Hes & _ & _).
    assert (Htop : top (logged es w1)
                   = Some (fresh_loc w, BrushTool.click_tag (BrushTool.kind brush))).
    { unfold top. simpl. by apply add_to_undo_stack_top. }
    assert (Hcur : heap (logged es w1) !! lb = Some
                     (brush_edit (BrushTool.kind brush) pos (BrushTool._brush_radius brush) pb)).
    { simpl. apply lookup_insert_eq. }
    destruct (undo_run _ _ _ _ _ Htop Hcur) as (w3 & Hundo_run & _).
    exists brush, w1, t2, (logged es w1), w3, es. split_and!; auto.
    apply (snapshot_then_snapshot lb pb _ _ _ w Hlb).
  - rewrite (flood_on_click_run fl w lf pf pos Hf Hlf).
    set (t1 := FloodTool.with_prev_position (Some pos) fl).
    set (w1 := snapshot_then _ _ _ _ _ w).
    assert (Hready : flood_ready t1 w1 lf).
    { right. split; [exact Hf|]. subst w1. rewrite snapshot_then_live. eauto. }
    destruct (flood_adjusts_spec ds t1 w1 lf Hready)
      as (t2 & w2 & Hrun & Hcfg & Hm & _ & Hheap & Hlive & es & Hev & Hes).
    assert (Hsnap : heap w2 !! fresh_loc w = Some pf).
    { rewrite Hheap by (symmetry; eapply fresh_loc_ne, Hlf).
      subst w1. apply (snapshot_then_snapshot lf pf _ _ _ w Hlf). }
    assert (Htop : top w2 = Some (fresh_loc w, FloodTool.click_tag (FloodTool.kind fl))).
    { unfold top. rewrite Hm. subst w1. simpl. by apply add_to_undo_stack_top. }
    destruct Hlive as [q Hq].
    { subst w1. rewrite snapshot_then_live. eauto. }
    destruct (undo_run _ _ _ _ _ Htop Hq) as (w3 & Hundo_run & _).
    exists t1, w1, t2, w2, w3, es. split_and!; auto.
  - unfold ThresholdTool.on_adjust, ThresholdTool._adjust_threshold.
    step_method.
    assert (Hrun := threshold_set_bound thr w _ lt pt Hv Hnew Ht Hlt).
    rewrite Hundo in Hrun. unfold threshold_nudge in *.
    destruct (d <? 0); rewrite Hrun; eexists _, _; split_and!; reflexivity.
Qed.

Lemma adjust_keeps_undo_stack_witness :
  exists t1 w1 t2 w2 w3 es,
    FloodTool.on_click (H := Demo.math) (0, 1) (Demo.fl FloodAdd, Demo.world)
      = Ok (tt, (t1, w1)) /\
    flood_adjusts (H := Demo.math) [1; 1] (t1, w1) = Ok (tt, (t2, w2)) /\
    manager w2 = manager w1 /\
    events w2 = events w1 ++ es /\ existsb is_push es = false /\
    heap w2 !! 3%positive = Some Demo.patch0 /\
    undo 1%positive w2 = Ok ((Some 3%positive, Some "flood_add"), w3).
Proof.
  refine (proj1 (proj2
    (adjust_keeps_undo_stack (H := Demo.math)
       (Demo.brush AddRegion) (Demo.fl FloodAdd) Demo.thr Demo.world
       1%positive 1%positive 1%positive Demo.patch0 Demo.patch0 Demo.patch0
       (0, 1) [1; 1] 1 _ _ _ _ _ _ _ _ _ _))).
  all: try reflexivity.
  all: try (vm_compute; reflexivity).
  simpl. lia.
Defined.

(** C2 as stated fails for the threshold tool: on an empty undo stack, one
    [ThresholdTool.on_adjust] leaves an entry tagged ["threshold_adjust"]. *)
Lemma threshold_adjust_pushes_counterexample :
  UndoManager.undo_stack (manager Demo.world) = [] /\
  option_map (fun s => UndoManager.undo_stack (manager (snd s)))
    (final (ThresholdTool.on_adjust (H := Demo.math) 1 (Demo.thr, Demo.world)))
  = Some [(3%positive, "threshold_adjust")].
Proof. split; vm_compute; reflexivity. Qed.

(** ** Snapshots are taken before the edit *)

(** C5, as the code has it: each [on_click] and [on_drag] of a brush tool,
    and each [on_click] of a flood tool, copies the bound patch to a fresh
    object and pushes that copy exactly once, before the edit is made: the
    click logs copy, push, edit; the drag logs copy, push, thread start, and
    the patch is still unedited when [on_drag] returns.  The snapshot holds
    the patch as it was, also after the edit (made by the click itself, or
    by the drag's thread) has changed the live patch.  The flood tools
    inherit the [on_drag] of the base class, which pushes nothing and edits
    nothing. *)
Theorem snapshot_precedes_edit `{RegionMath}
    (brush : BrushTool.t) (fl : FloodTool.t) (w : World)
    (lb lf : loc) (pb pf : Patch.t) (pos : position) (drag_id : option Z) :
  FGTTool._patch (BrushTool.base brush) = Some lb -> heap w !! lb = Some pb ->
  FGTTool._patch (FloodTool.base fl) = Some lf -> heap w !! lf = Some pf ->
  let s := fresh_loc w in
  let k := BrushTool.kind brush in
  let r := BrushTool._brush_radius brush in
  let th := mkThread "draw" (BrushTool.tool_id k) pos in
  heap w !! s = None /\
  (exists w',
     BrushTool.on_click pos (brush, w) = Ok (tt, (brush, w')) /\
     events w' = events w
                 ++ [EDeepcopy lb s; EUndoPush s (BrushTool.click_tag k);
                     brush_event k lb pos r]
                 ++ map EObserver (FGTTool._observers (BrushTool.base brush)) /\
     heap w' !! s = Some pb /\
     heap w' !! lb = Some (brush_edit k pos r pb)) /\
  (exists w1 w2,
     BrushTool.on_drag pos drag_id (brush, w) = Ok (tt, (brush, w1)) /\
     events w1 = events w
                 ++ [EDeepcopy lb s; EUndoPush s (BrushTool.drag_tag k drag_id);
                     EThreadStart th] /\
     threads w1 = threads w ++ [th] /\
     heap w1 !! s = Some pb /\ heap w1 !! lb = Some pb /\
     BrushTool.run_thread th (brush, w1) = Ok (tt, (brush, w2)) /\
     events w2 = events w1
                 ++ brush_event k lb pos r
                    :: map EObserver (FGTTool._observers (BrushTool.base brush)) /\
     heap w2 !! s = Some pb /\
     heap w2 !! lb = Some (brush_edit k pos r pb)) /\
  (exists t' w',
     FloodTool.on_click pos (fl, w) = Ok (tt, (t', w')) /\
     events w' = events w
                 ++ [EDeepcopy lf s; EUndoPush s (FloodTool.click_tag (FloodTool.kind fl));
                     flood_event (FloodTool.kind fl) lf pos (FloodTool._tolerance fl)]
                 ++ map EObserver (FGTTool._observers (FloodTool.base fl)) /\
     heap w' !! s = Some pf /\
     heap w' !! lf = Some (flood_edit (FloodTool.kind fl) pos (FloodTool._tolerance fl) pf)) /\
  FloodTool.on_drag pos drag_id (fl, w) = Ok (tt, (fl, w)).
Proof.
  intros Hb Hlb Hf Hlf s k r th.
  assert (Hsb : lb <> s) by (eapply fresh_loc_ne, Hlb).
  split_and!.
  - apply fresh_loc_fresh.
  - rewrite (brush_on_click_run brush w lb pb pos Hb Hlb).
    eexists. split; [reflexivity|]. split_and!.
    + reflexivity.
    + apply (snapshot_then_snapshot lb pb _ _ _ w Hlb).
    + apply snapshot_then_live.
  - rewrite (brush_on_drag_run brush w lb pb pos drag_id Hb Hlb).
    set (w1 := mkWorld _ _ _ _).
    assert (Hlive : heap w1 !! lb = Some pb).
    { subst w1. simpl. by rewrite lookup_insert_ne. }
    exists w1. unfold BrushTool.run_thread, th. simpl thread_arg.
    rewrite (brush_draw_run brush w1 lb pb pos Hb Hlive).
    eexists. split; [reflexivity|]. split_and!; try reflexivity.
    + subst w1. simpl. apply lookup_insert_eq.
    + exact Hlive.
    + subst w1. simpl. rewrite lookup_insert_ne by done. apply lookup_insert_eq.
    + simpl. apply lookup_insert_eq.
  - rewrite (flood_on_click_run fl w lf pf pos Hf Hlf).
    eexists _, _. split; [reflexivity|]. split_and!.
    + reflexivity.
    + apply (snapshot_then_snapshot lf pf _ _ _ w Hlf).
    + apply snapshot_then_live.
  - reflexivity.
Qed.

Lemma snapshot_precedes_edit_witness :
  exists w1 w2,
    BrushTool.on_drag (0, 1) (Some 7) (Demo.brush AddRegion, Demo.world)
      = Ok (tt, (Demo.brush AddRegion, w1)) /\
    events w1 = [EDeepcopy 1%positive 3%positive;
                 EUndoPush 3%positive "add_region_adjust_7";
                 EThreadStart (mkThread "draw" 2 (0, 1))] /\
    threads w1 = [mkThread "draw" 2 (0, 1)] /\
    heap w1 !! 3%positive = Some Demo.patch0 /\
    heap w1 !! 1%positive = Some Demo.patch0 /\
    BrushTool.run_thread (H := Demo.math) (mkThread "draw" 2 (0, 1))
      (Demo.brush AddRegion, w1) = Ok (tt, (Demo.brush AddRegion, w2)) /\
    events w2 = events w1 ++ [EAddRegion 1%positive (0, 1) 15; EObserver 0] /\
    heap w2 !! 3%positive = Some Demo.patch0 /\
    heap w2 !! 1%positive
      = Some (Patch.add_region (H := Demo.math) (0, 1) 15 Demo.patch0).
Proof.
  refine (proj1 (proj2 (proj2
    (snapshot_precedes_edit (H := Demo.math)
       (Demo.brush AddRegion) (Demo.fl FloodAdd) Demo.world
       1%positive 1%positive Demo.patch0 Demo.patch0 (0, 1) (Some 7) _ _ _ _)))).
  all: try reflexivity.
  all: vm_compute; reflexivity.
Defined.

(** C5 as stated fails for the drag of a flood tool: [FloodAddTool.on_drag]
    is the hook of the base class and pushes no snapshot. *)
Lemma flood_on_drag_counterexample :
  UndoManager.undo_stack (manager Demo.world) = [] /\
  option_map (fun s => UndoManager.undo_stack (manager (snd s)))
    (final (FloodTool.on_drag (0, 1) (Some 7) (Demo.fl FloodAdd, Demo.world)))
  = Some [].
Proof. split; vm_compute; reflexivity. Qed.

(** ** Undo tags of the brush tools *)

Example str_examples : str 7 = "7" /\ str 0 = "0" /\ str 120 = "120" /\ str (-3) = "-3".
Proof. repeat split. Qed.

(** C6: the entry pushed by a brush click is tagged ["add_region"]
    (["remove_region"] for the remove tool), so it is on top of the undo
    stack and [undo()] after the click returns that tag; the entry pushed by
    a drag step with identifier [d] is tagged ["add_region_adjust_" + str(d)]
    (["remove_region_adjust_" + str(d)]), and without an identifier
    ["add_region_adjust"] (["remove_region_adjust"]). *)
Theorem brush_undo_tags `{RegionMath}
    (t : BrushTool.t) (w : World) (l : loc) (p : Patch.t)
    (pos : position) (d : Z) :
  FGTTool._patch (BrushTool.base t) = Some l -> heap w !! l = Some p ->
  (0 < UndoManager.max_depth (manager w))%nat ->
  let click := match BrushTool.kind t with
               | AddRegion => "add_region"
               | RemoveRegion => "remove_region"
               end in
  let drag := match BrushTool.kind t with
              | AddRegion => "add_region_adjust"
              | RemoveRegion => "remove_region_adjust"
              end in
  let drag_d := match BrushTool.kind t with
                | AddRegion => "add_region_adjust_" +:+ str d
                | RemoveRegion => "remove_region_adjust_" +:+ str d
                end in
  (exists w1 w2,
     BrushTool.on_click pos (t, w) = Ok (tt, (t, w1)) /\
     top w1 = Some (fresh_loc w, click) /\
     undo l w1 = Ok ((Some (fresh_loc w), Some click), w2)) /\
  (exists w1,
     BrushTool.on_drag pos (Some d) (t, w) = Ok (tt, (t, w1)) /\
     top w1 = Some (fresh_loc w, drag_d)) /\
  (exists w1,
     BrushTool.on_drag pos None (t, w) = Ok (tt, (t, w1)) /\
     top w1 = Some (fresh_loc w, drag)).
Proof.
  intros Hp Hl Hcap click drag drag_d. split_and!.
  - rewrite (brush_on_click_run t w l p pos Hp Hl).
    set (w1 := snapshot_then _ _ _ _ _ w).
    assert (Htop : top w1 = Some (fresh_loc w, click)).
    { unfold top, w1, click, snapshot_then. cbn [manager].
      rewrite add_to_undo_stack_top by done.
      by destruct (BrushTool.kind t). }
    assert (Hcur : is_Some (heap w1 !! l)).
    { unfold w1. rewrite snapshot_then_live. eauto. }
    destruct Hcur as [q Hq].
    destruct (undo_run _ _ _ _ _ Htop Hq) as (w2 & Hundo & _).
    by exists w1, w2.
  - rewrite (brush_on_drag_run t w l p pos (Some d) Hp Hl).
    eexists. split; [reflexivity|]. unfold top, drag_d. cbn [manager].
    rewrite add_to_undo_stack_top by done.
    by destruct (BrushTool.kind t).
  - rewrite (brush_on_drag_run t w l p pos None Hp Hl).
    eexists. split; [reflexivity|]. unfold top, drag. cbn [manager].
    rewrite add_to_undo_stack_top by done.
    by destruct (BrushTool.kind t).
Qed.

Lemma brush_undo_tags_witness :
  (exists w1 w2,
     BrushTool.on_click (H := Demo.math) (1, 1) (Demo.brush AddRegion, Demo.world)
       = Ok (tt, (Demo.brush AddRegion, w1)) /\
     top w1 = Some (3%positive, "add_region") /\
     undo 1%positive w1 = Ok ((Some 3%positive, Some "add_region"), w2)) /\
  (exists w1,
     BrushTool.on_drag (1, 1) (Some 12) (Demo.brush AddRegion, Demo.world)
       = Ok (tt, (Demo.brush AddRegion, w1)) /\
     top w1 = Some (3%positive, "add_region_adjust_12")) /\
  (exists w1,
     BrushTool.on_drag (1, 1) None (Demo.brush AddRegion, Demo.world)
       = Ok (tt, (Demo.brush AddRegion, w1)) /\
     top w1 = Some (3%positive, "add_region_adjust")).
Proof.
  refine (brush_undo_tags (H := Demo.math) (Demo.brush AddRegion) Demo.world
            1%positive Demo.patch0 (1, 1) 12 _ _ _).
  - reflexivity.
  - vm_compute; reflexivity.
  - simpl; lia.
Defined.

(** ** The no-root tool *)

Lemma clear_mask_all_background (p : Patch.t) :
  Forall (Forall (fun cell => cell = false)) (Patch.mask (Patch.clear_mask p)).
Proof.
  unfold Patch.clear_mask, bitmap_clear. simpl.
  apply Forall_forall. intros row Hrow.
  apply list_elem_of_In, in_map_iff in Hrow as (row' & <- & _).
  apply Forall_forall. intros cell Hcell.
  apply list_elem_of_In, in_map_iff in Hcell as (c & <- & _). reflexivity.
Qed.

Lemma py_getitem_in_range {A} (ps : list A) (j : Z) :
  0 <= j < Z.of_nat (length ps) ->
  exists x, ps !! Z.to_nat j = Some x /\ py_getitem ps j = Ok x.
Proof.
  intros Hj. unfold py_getitem.
  destruct (Z.ltb_spec j 0) as [|_]; [lia|].
  destruct (Z.leb_spec 0 j) as [_|]; [|lia].
  destruct (Z.ltb_spec j (Z.of_nat (length ps))) as [_|]; [|lia]. simpl.
  destruct (ps !! Z.to_nat j) as [x|] eqn:Hx; [eauto|].
  apply lookup_ge_None in Hx. lia.
Qed.

Lemma next_patch_run (t : FGTTool.t) w ps i :
  FGTTool._image t = Some ps -> 0 <= i < Z.of_nat (length ps) ->
  NextPatchTool._next_patch i (t, w)
  = Ok ((if i + 1 <? Z.of_nat (length ps)
         then (ps !! Z.to_nat (i + 1), i + 1) else (None, -1)), (t, w)).
Proof.
  intros Him Hi. unfold NextPatchTool._next_patch. step_method. rewrite Him. simpl.
  destruct (Z.ltb_spec (i + 1) (Z.of_nat (length ps))) as [Hlt|_]; [|reflexivity].
  destruct (py_getitem_in_range ps (i + 1)) as (x & Hx & ->); [lia|].
  by rewrite Hx.
Qed.

Lemma prev_patch_run (t : FGTTool.t) w ps i :
  FGTTool._image t = Some ps -> 0 <= i < Z.of_nat (length ps) ->
  PreviousPatchTool._prev_patch i (t, w)
  = Ok ((if i - 1 >=? 0
         then (ps !! Z.to_nat (i - 1), i - 1) else (None, -1)), (t, w)).
Proof.
  intros Him Hi. unfold PreviousPatchTool._prev_patch. step_method. rewrite Him. simpl.
  destruct (Z.geb_spec (i - 1) 0) as [Hge|_]; [|reflexivity].
  destruct (py_getitem_in_range ps (i - 1)) as (x & Hx & ->); [lia|].
  by rewrite Hx.
Qed.

(** C7: [NoRootTool.on_activate(i)] copies the bound patch to a fresh
    object and pushes the copy tagged ["no_root"], then calls
    [clear_mask()] on the patch, then computes the next patch from [i] and
    calls the activation callback with it: the calls are logged in that
    order, the snapshot holds the patch as it was, the live patch has an
    all-background mask, and the callback gets [(None, -1)] when [i] is the
    last index. *)
Theorem no_root_on_activate (t : FGTTool.t) (w : World) (l : loc) (p : Patch.t)
    (ps : list loc) (i : Z) :
  FGTTool._patch t = Some l -> heap w !! l = Some p ->
  FGTTool._image t = Some ps -> 0 <= i < Z.of_nat (length ps) ->
  let s := fresh_loc w in
  let next := if i + 1 <? Z.of_nat (length ps)
              then (ps !! Z.to_nat (i + 1), i + 1) else (None, -1) in
  exists w',
    NoRootTool.on_activate i (t, w) = Ok (tt, (t, w')) /\
    events w' = events w ++ [EDeepcopy l s; EUndoPush s "no_root"; EClearMask l;
                             EActivation (fst next) (snd next)] /\
    manager w' = UndoManager.add_to_undo_stack s "no_root" (manager w) /\
    heap w !! s = None /\ heap w' !! s = Some p /\
    heap w' !! l = Some (Patch.clear_mask p) /\
    Forall (Forall (fun cell => cell = false)) (Patch.mask (Patch.clear_mask p)) /\
    (i + 1 < Z.of_nat (length ps) -> is_Some (fst next) /\ snd next = i + 1) /\
    (i = Z.of_nat (length ps) - 1 -> next = (None, -1)).
Proof.
  intros Hp Hl Him Hi s next.
  assert (Hne : l <> s) by (eapply fresh_loc_ne, Hl).
  unfold NoRootTool.on_activate. step_method. rewrite Hp. simpl.
  rewrite (deepcopy_run _ _ _ Hl). simpl.
  unfold NoRootTool._no_root. step_method. rewrite Hp. simpl.
  erewrite patch_clear_mask_run by (simpl; rewrite lookup_insert_ne by done; exact Hl).
  simpl.
  change (NoRootTool._next_patch i) with (NextPatchTool._next_patch i).
  rewrite (next_patch_run t _ ps i Him Hi). fold next.
  unfold activation_callback. step_method.
  eexists. split; [reflexivity|]. simpl. split_and!.
  - by rewrite <- !app_assoc.
  - reflexivity.
  - apply fresh_loc_fresh.
  - rewrite lookup_insert_ne by done. apply lookup_insert_eq.
  - apply lookup_insert_eq.
  - apply clear_mask_all_background.
  - intros Hlt. subst next.
    destruct (Z.ltb_spec (i + 1) (Z.of_nat (length ps))); [|lia]. simpl.
    split; [|reflexivity]. apply lookup_lt_is_Some. lia.
  - intros ->. subst next.
    destruct (Z.ltb_spec (Z.of_nat (length ps) - 1 + 1) (Z.of_nat (length ps))); [lia|].
    reflexivity.
Qed.

Lemma no_root_on_activate_witness :
  exists w',
    NoRootTool.on_activate 1 (Demo.tool_base 4, Demo.world)
      = Ok (tt, (Demo.tool_base 4, w')) /\
    events w' = [EDeepcopy 1%positive 3%positive; EUndoPush 3%positive "no_root";
                 EClearMask 1%positive; EActivation None (-1)] /\
    manager w' = UndoManager.add_to_undo_stack 3%positive "no_root" (manager Demo.world) /\
    heap Demo.world !! 3%positive = None /\
    heap w' !! 3%positive = Some Demo.patch0 /\
    heap w' !! 1%positive = Some (Patch.clear_mask Demo.patch0) /\
    Forall (Forall (fun cell => cell = false)) (Patch.mask (Patch.clear_mask Demo.patch0)) /\
    (1 + 1 < 2 -> is_Some (@None loc) /\ -1 = 1 + 1) /\
    (1 = 2 - 1 -> (@None loc, -1) = (None, -1)).
Proof.
  refine (no_root_on_activate (Demo.tool_base 4) Demo.world 1%positive Demo.patch0
            [1%positive; 2%positive] 1 _ _ _ _).
  - reflexivity.
  - vm_compute; reflexivity.
  - reflexivity.
  - simpl; lia.
Defined.

(** ** Navigation *)

(** C4: from a current index [i] of the patch list [ps], [_next_patch(i)]
    returns [(ps[i+1], i+1)] when [i+1 < len(ps)] and [(None, -1)]
    otherwise, and [_prev_patch(i)] returns [(ps[i-1], i-1)] when
    [i-1 >= 0] and [(None, -1)] otherwise; so next at the last index and
    previous at index 0 return [(None, -1)]. *)
Theorem navigation_bounds (t : FGTTool.t) (w : World) (ps : list loc) (i : Z) :
  FGTTool._image t = Some ps -> 0 <= i < Z.of_nat (length ps) ->
  (i + 1 < Z.of_nat (length ps) ->
   exists p, ps !! Z.to_nat (i + 1) = Some p /\
             NextPatchTool._next_patch i (t, w) = Ok ((Some p, i + 1), (t, w))) /\
  (~ i + 1 < Z.of_nat (length ps) ->
   NextPatchTool._next_patch i (t, w) = Ok ((None, -1), (t, w))) /\
  (i - 1 >= 0 ->
   exists p, ps !! Z.to_nat (i - 1) = Some p /\
             PreviousPatchTool._prev_patch i (t, w) = Ok ((Some p, i - 1), (t, w))) /\
  (~ i - 1 >= 0 ->
   PreviousPatchTool._prev_patch i (t, w) = Ok ((None, -1), (t, w))) /\
  NextPatchTool._next_patch (Z.of_nat (length ps) - 1) (t, w) = Ok ((None, -1), (t, w)) /\
  PreviousPatchTool._prev_patch 0 (t, w) = Ok ((None, -1), (t, w)).
Proof.
  intros Him Hi. split_and!.
  - intros Hlt. rewrite (next_patch_run t w ps i Him Hi).
    destruct (Z.ltb_spec (i + 1) (Z.of_nat (length ps))); [|lia].
    destruct (lookup_lt_is_Some_2 ps (Z.to_nat (i + 1))) as [p Hp]; [lia|].
    exists p. by rewrite Hp.
  - intros Hge. rewrite (next_patch_run t w ps i Him Hi).
    destruct (Z.ltb_spec (i + 1) (Z.of_nat (length ps))); [lia | reflexivity].
  - intros Hge. rewrite (prev_patch_run t w ps i Him Hi).
    destruct (Z.geb_spec (i - 1) 0); [|lia].
    destruct (lookup_lt_is_Some_2 ps (Z.to_nat (i - 1))) as [p Hp]; [lia|].
    exists p. by rewrite Hp.
  - intros Hlt. rewrite (prev_patch_run t w ps i Him Hi).
    destruct (Z.geb_spec (i - 1) 0); [lia | reflexivity].
  - rewrite (next_patch_run t w ps _ Him) by lia.
    destruct (Z.ltb_spec (Z.of_nat (length ps) - 1 + 1) (Z.of_nat (length ps))); [lia|].
    reflexivity.
  - rewrite (prev_patch_run t w ps 0 Him) by lia. reflexivity.
Qed.

Lemma navigation_bounds_witness :
  (0 + 1 < 2 ->
   exists p, [1%positive; 2%positive] !! Z.to_nat (0 + 1) = Some p /\
             NextPatchTool._next_patch 0 (Demo.tool_base 8, Demo.world)
             = Ok ((Some p, 0 + 1), (Demo.tool_base 8, Demo.world))) /\
  (~ 0 + 1 < 2 ->
   NextPatchTool._next_patch 0 (Demo.tool_base 8, Demo.world)
   = Ok ((None, -1), (Demo.tool_base 8, Demo.world))) /\
  (0 - 1 >= 0 ->
   exists p, [1%positive; 2%positive] !! Z.to_nat (0 - 1) = Some p /\
             PreviousPatchTool._prev_patch 0 (Demo.tool_base 8, Demo.world)
             = Ok ((Some p, 0 - 1), (Demo.tool_base 8, Demo.world))) /\
  (~ 0 - 1 >= 0 ->
   PreviousPatchTool._prev_patch 0 (Demo.tool_base 8, Demo.world)
   = Ok ((None, -1), (Demo.tool_base 8, Demo.world))) /\
  NextPatchTool._next_patch (2 - 1) (Demo.tool_base 8, Demo.world)
  = Ok ((None, -1), (Demo.tool_base 8, Demo.world)) /\
  PreviousPatchTool._prev_patch 0 (Demo.tool_base 8, Demo.world)
  = Ok ((None, -1), (Demo.tool_base 8, Demo.world)).
Proof.
  refine (navigation_bounds (Demo.tool_base 8) Demo.world
            [1%positive; 2%positive] 0 _ _).
  - reflexivity.
  - simpl; lia.
Defined.

(** ** The threshold tool on a new patch *)

Lemma threshold_patch_set_run (t : ThresholdTool.t) w new p :
  heap w !! new = Some p ->
  (ThresholdTool.patch t = None \/
   exists old q, ThresholdTool.patch t = Some old /\ heap w !! old = Some q /\
                 Patch.patch_index p <> Patch.patch_index q) ->
  ThresholdTool.patch_set new (t, w)
  = Ok (tt, (ThresholdTool.with_threshold (Patch.threshold p)
               (ThresholdTool.with_slider_init false
                  (ThresholdTool.with_base (FGTTool.with_patch (Some new))
                     (ThresholdTool.with_new_patch true t))), w)).
Proof.
  intros Hnew Hold. unfold ThresholdTool.patch_set. step_method.
  destruct Hold as [Hnone | (old & q & Hold & Hq & Hidx)].
  - rewrite Hnone. cbn. by rewrite (load_run _ _ _ Hnew).
  - rewrite Hold. cbn. rewrite (load_run _ _ _ Hnew). cbn.
    rewrite (load_run _ _ _ Hq). cbn.
    destruct (Z.eqb_spec (Patch.patch_index p) (Patch.patch_index q)); [done|].
    cbn. by rewrite (load_run _ _ _ Hnew).
Qed.

(** C9: after [ThresholdTool.patch] is set to a patch whose index differs
    from that of the patch bound before (or when none was bound), the first
    in-range assignment to [threshold] changes the tool's threshold, clears
    its new-patch flag and notifies the observers, while the heap of
    patches and the undo manager stay as they were; the second in-range
    assignment calls the patch's threshold setter, and pushes a snapshot
    tagged ["threshold_adjust"] when undos are unlocked (and pushes
    nothing when they are locked). *)
Theorem threshold_first_assignment_after_new_patch `{RegionMath}
    (t : ThresholdTool.t) (w : World) (new : loc) (p : Patch.t) (v1 v2 : float) :
  heap w !! new = Some p ->
  (ThresholdTool.patch t = None \/
   exists old q, ThresholdTool.patch t = Some old /\ heap w !! old = Some q /\
                 Patch.patch_index p <> Patch.patch_index q) ->
  ThresholdTool.in_range v1 = true -> ThresholdTool.in_range v2 = true ->
  let obs := map EObserver (FGTTool._observers (ThresholdTool.base t)) in
  let unlocked := FGTTool._can_undo (ThresholdTool.base t) in
  exists t0 t1 t2 w1 w2,
    ThresholdTool.patch_set new (t, w) = Ok (tt, (t0, w)) /\
    ThresholdTool._new_patch t0 = true /\
    ThresholdTool.threshold_set v1 (t0, w) = Ok (tt, (t1, w1)) /\
    t1 = ThresholdTool.with_new_patch false (ThresholdTool.with_threshold v1 t0) /\
    heap w1 = heap w /\ manager w1 = manager w /\ events w1 = events w ++ obs /\
    ThresholdTool.threshold_set v2 (t1, w1) = Ok (tt, (t2, w2)) /\
    ThresholdTool._threshold t2 = v2 /\
    heap w2 !! new = Some (thresholded v2 p) /\
    events w2 = events w1
                ++ ESetThreshold new v2
                   :: (if unlocked
                       then [EDeepcopy new (fresh_loc w);
                             EUndoPush (fresh_loc w) "threshold_adjust"]
                       else [])
                ++ obs /\
    manager w2 = (if unlocked
                  then UndoManager.add_to_undo_stack (fresh_loc w)
                         "threshold_adjust" (manager w)
                  else manager w).
Proof.
  intros Hnew Hold Hv1 Hv2 obs unlocked.
  pose proof (threshold_patch_set_run t w new p Hnew Hold) as R0.
  set (t0 := ThresholdTool.with_threshold _ _) in R0.
  pose proof (threshold_set_new_patch t0 w v1 Hv1 eq_refl) as R1.
  assert (Ht1 : threshold_assigned v1 t0
                = ThresholdTool.with_new_patch false (ThresholdTool.with_threshold v1 t0)).
  { unfold threshold_assigned, t0. simpl. by rewrite andb_false_r. }
  rewrite Ht1 in R1.
  set (t1 := ThresholdTool.with_new_patch false _) in R1.
  set (w1 := logged _ w) in R1.
  assert (Hnew1 : heap w1 !! new = Some p) by exact Hnew.
  pose proof (threshold_set_bound t1 w1 v2 new p Hv2 eq_refl eq_refl Hnew1) as R2.
  change (FGTTool._can_undo (ThresholdTool.base t1)) with unlocked in R2.
  change (FGTTool._observers (ThresholdTool.base t1))
    with (FGTTool._observers (ThresholdTool.base t)) in R2.
  change (fresh_loc w1) with (fresh_loc w) in R2.
  eexists t0, t1, _, w1, _.
  split; [exact R0|]. split; [reflexivity|]. split; [exact R1|].
  split; [reflexivity|]. split; [reflexivity|]. split; [reflexivity|].
  split; [reflexivity|]. split; [exact R2|].
  split; [apply threshold_assigned_threshold|].
  assert (Hne : new <> fresh_loc w) by (eapply fresh_loc_ne, Hnew).
  destruct unlocked; simpl; split_and!; try reflexivity.
  - rewrite lookup_insert_ne by done. apply lookup_insert_eq.
  - apply lookup_insert_eq.
Qed.

Lemma threshold_first_assignment_after_new_patch_witness :
  exists t0 t1 t2 w1 w2,
    ThresholdTool.patch_set 2%positive (Demo.thr, Demo.world)
      = Ok (tt, (t0, Demo.world)) /\
    ThresholdTool._new_patch t0 = true /\
    ThresholdTool.threshold_set (H := Demo.math) 0.25%float (t0, Demo.world)
      = Ok (tt, (t1, w1)) /\
    t1 = ThresholdTool.with_new_patch false (ThresholdTool.with_threshold 0.25%float t0) /\
    heap w1 = heap Demo.world /\ manager w1 = manager Demo.world /\
    events w1 = events Demo.world ++ [EObserver 0] /\
    ThresholdTool.threshold_set (H := Demo.math) 0.75%float (t1, w1)
      = Ok (tt, (t2, w2)) /\
    ThresholdTool._threshold t2 = 0.75%float /\
    heap w2 !! 2%positive = Some (thresholded (H := Demo.math) 0.75%float Demo.patch1) /\
    events w2 = events w1
                ++ ESetThreshold 2%positive 0.75%float
                   :: [EDeepcopy 2%positive 3%positive;
                       EUndoPush 3%positive "threshold_adjust"]
                ++ [EObserver 0] /\
    manager w2 = UndoManager.add_to_undo_stack 3%positive "threshold_adjust"
                   (manager Demo.world).
Proof.
  refine (threshold_first_assignment_after_new_patch (H := Demo.math)
            Demo.thr Demo.world 2%positive Demo.patch1 0.25%float 0.75%float
            _ _ _ _).
  - vm_compute; reflexivity.
  - right. exists 1%positive, Demo.patch0. split_and!.
    + reflexivity.
    + vm_compute; reflexivity.
    + simpl; lia.
  - reflexivity.
  - reflexivity.
Defined.

(** ** Zero tolerance *)

Lemma float_zero_not_positive v :
  PrimFloat.eqb v 0 = true -> float_gt v 0 = false.
Proof.
  unfold float_gt. intros Hz.
  destruct (PrimFloat.ltb 0 v) eqn:Hlt; [|reflexivity].
  apply float_ltb_eqb_false in Hlt. congruence.
Qed.

(** C10: the two flood tools differ at zero.  [FloodAddTool.tolerance = 0]
    is accepted: the tolerance becomes 0, the flood fill is run again from
    the last seed at tolerance 0, and the observers are notified (by the
    fill and by the setter).  [FloodRemoveTool.tolerance = 0] is rejected
    like a negative value: the tool and the world stay as they were; this
    holds for every float equal to zero, so the setter never stores a
    zero. *)
Theorem flood_zero_tolerance `{RegionMath}
    (ta tr : FloodTool.t) (w : World) (l : loc) (p : Patch.t)
    (seed : position) (z v : float) :
  FloodTool.kind ta = FloodAdd -> FloodTool.kind tr = FloodRemove ->
  FGTTool._patch (FloodTool.base ta) = Some l -> heap w !! l = Some p ->
  FloodTool._prev_position ta = Some seed ->
  PrimFloat.eqb z 0 = true -> negative v ->
  let obs := map EObserver (FGTTool._observers (FloodTool.base ta)) in
  (exists ta' w',
     FloodTool.tolerance_set 0 (ta, w) = Ok (tt, (ta', w')) /\
     FloodTool._tolerance ta' = 0%float /\
     heap w' !! l = Some (Patch.flood_add_region seed 0 p) /\
     manager w' = manager w /\
     events w' = events w ++ EFloodAdd l seed 0 :: obs ++ obs) /\
  FloodTool.tolerance_set 0 (tr, w) = Ok (tt, (tr, w)) /\
  FloodTool.tolerance_set z (tr, w) = Ok (tt, (tr, w)) /\
  FloodTool.tolerance_set v (tr, w) = Ok (tt, (tr, w)).
Proof.
  intros Hka Hkr Hp Hl Hseed Hz Hv obs. split_and!.
  - unfold FloodTool.tolerance_set. step_method. rewrite Hka. cbn.
    rewrite Hseed.
    destruct (bool_decide (is_Some (FloodTool._flood_slider ta))); cbn.
    + erewrite flood_edit_region_run by (try exact Hp; exact Hl). cbn.
      rewrite notify_observers_run.
      eexists _, _. split; [reflexivity|]. cbn. rewrite Hka. split_and!; try reflexivity.
      * apply lookup_insert_eq.
      * by rewrite <- app_assoc.
    + erewrite flood_edit_region_run by (try exact Hp; exact Hl). cbn.
      rewrite notify_observers_run.
      eexists _, _. split; [reflexivity|]. cbn. rewrite Hka. split_and!; try reflexivity.
      * apply lookup_insert_eq.
      * by rewrite <- app_assoc.
  - unfold FloodTool.tolerance_set. step_method. by rewrite Hkr.
  - unfold FloodTool.tolerance_set. step_method. rewrite Hkr. cbn.
    pose proof (float_zero_not_positive z Hz) as E. unfold float_gt in E.
    by rewrite E.
  - unfold FloodTool.tolerance_set. step_method.
    by rewrite (negative_not_accepted (FloodTool.kind tr) v Hv).
Qed.

Lemma flood_zero_tolerance_witness :
  (exists ta' w',
     FloodTool.tolerance_set (H := Demo.math) 0 (Demo.fl FloodAdd, Demo.world)
       = Ok (tt, (ta', w')) /\
     FloodTool._tolerance ta' = 0%float /\
     heap w' !! 1%positive
       = Some (Patch.flood_add_region (H := Demo.math) (0, 1) 0 Demo.patch0) /\
     manager w' = manager Demo.world /\
     events w' = [EFloodAdd 1%positive (0, 1) 0; EObserver 0; EObserver 0]) /\
  FloodTool.tolerance_set (H := Demo.math) 0 (Demo.fl FloodRemove, Demo.world)
    = Ok (tt, (Demo.fl FloodRemove, Demo.world)) /\
  FloodTool.tolerance_set (H := Demo.math) (-0)%float (Demo.fl FloodRemove, Demo.world)
    = Ok (tt, (Demo.fl FloodRemove, Demo.world)) /\
  FloodTool.tolerance_set (H := Demo.math) (-0.5)%float (Demo.fl FloodRemove, Demo.world)
    = Ok (tt, (Demo.fl FloodRemove, Demo.world)).
Proof.
  refine (flood_zero_tolerance (H := Demo.math)
            (Demo.fl FloodAdd) (Demo.fl FloodRemove) Demo.world
            1%positive Demo.patch0 (0, 1) (-0)%float (-0.5)%float _ _ _ _ _ _ _).
  all: reflexivity.
Defined.

(** ** The preview timer *)

Section PreviewTimer.
Import MainWindow.

Lemma last_edit_snoc l time a :
  last_edit (l ++ [(time, a)])
  = match a with ASetImage _ => Some time | _ => last_edit l end.
Proof.
  induction l as [|[time' a'] l IH]; simpl.
  - by destruct a.
  - rewrite IH. destruct a; try reflexivity.
    all: by destruct (last_edit l).
Qed.

Lemma last_edit_app l1 l2 :
  last_edit (l1 ++ l2)
  = match last_edit l2 with Some time => Some time | None => last_edit l1 end.
Proof.
  induction l1 as [|[time a] l1 IH]; simpl.
  - by destruct (last_edit l2).
  - rewrite IH. by destruct (last_edit l2).
Qed.

Lemma last_edit_record a s :
  (forall img, a <> ASetImage img) ->
  last_edit (log (record a s)) = last_edit (log s).
Proof.
  intros Ha. unfold record. simpl. rewrite last_edit_snoc.
  destruct a; try reflexivity. by destruct (Ha img).
Qed.

Lemma quiet_fires_snoc l time a :
  (forall i, a <> ATimerFire i) ->
  quiet_fires l -> quiet_fires (l ++ [(time, a)]).
Proof.
  intros Ha Hq pre time' i post Heq.
  destruct post as [|x post _] using rev_ind.
  - apply app_inj_tail in Heq as [_ Heq]. injection Heq as _ ->. by destruct (Ha i).
  - rewrite app_comm_cons, app_assoc in Heq.
    apply app_inj_tail in Heq as [Heq _]. eapply Hq, Heq.
Qed.

Lemma quiet_fires_app l l' :
  quiet_fires l -> Forall (fun e => forall i, e.2 <> ATimerFire i) l' ->
  quiet_fires (l ++ l').
Proof.
  intros Hq Hl'. revert l Hq.
  induction Hl' as [|[time a] l' Ha _ IH]; intros l Hq.
  - by rewrite app_nil_r.
  - rewrite (cons_middle _ l l'), app_assoc. apply IH.
    by apply quiet_fires_snoc.
Qed.

Lemma quiet_fires_fire l time i edit :
  last_edit l = Some edit -> (edit + 1 <= time)%Q ->
  quiet_fires l -> quiet_fires (l ++ [(time, ATimerFire i)]).
Proof.
  intros Hedit Hle Hq pre time' j post Heq.
  destruct post as [|x post _] using rev_ind.
  - apply app_inj_tail in Heq as [<- Heq]. injection Heq as <- <-. eauto.
  - rewrite app_comm_cons, app_assoc in Heq.
    apply app_inj_tail in Heq as [Heq _]. eapply Hq, Heq.
Qed.

Lemma alter_snoc {A} (f : A -> A) (l : list A) (x : A) :
  alter f (length l) (l ++ [x]) = l ++ [f x].
Proof.
  replace (length l) with (length l + 0)%nat by lia.
  by rewrite alter_app_r.
Qed.

(** The shape of a non-new display update on an existing canvas. *)
Lemma show_image_edit img off c s :
  _canvas s = Some c ->
  let cancelled :=
    match _cur_preview_thread s with
    | Some i => alter (fun tm => mkTimer (interval tm) (started_at tm) true) i (timers s)
    | None => timers s
    end in
  show_image img false off s
  = mk (Some img) (_preview_window s) (Some (length (timers s)))
       (cancelled ++ [mkTimer 1 (Some (now s)) false])
       (preview_threads s) (now s)
       (log s ++ (now s, ASetImage img)
          :: match _cur_preview_thread s with
             | Some i => [(now s, ATimerCancel i)]
             | None => []
             end
          ++ [(now s, ATimerStart (length (timers s)))]).
Proof.
  intros Hc cancelled. unfold show_image. rewrite Hc.
  destruct (_cur_preview_thread s) as [i|] eqn:Hcur; simpl; rewrite Hcur.
  - unfold timer_cancel, timer_start, record, with_timers, with_cur_preview_thread. simpl.
    rewrite alter_snoc, !length_alter. simpl. f_equal.
    all: rewrite <- ?app_assoc; reflexivity.
  - unfold timer_start, record, with_timers, with_cur_preview_thread. simpl.
    rewrite alter_snoc. simpl. f_equal.
    all: rewrite <- ?app_assoc; reflexivity.
Qed.

Lemma window_inv_ext s s' :
  timers s' = timers s -> _cur_preview_thread s' = _cur_preview_thread s ->
  log s' = log s -> window_inv s -> window_inv s'.
Proof. unfold window_inv. by intros -> -> ->. Qed.

Lemma window_inv_record a s :
  (forall img, a <> ASetImage img) -> (forall i, a <> ATimerFire i) ->
  window_inv s -> window_inv (record a s).
Proof.
  intros Hedit Hfire [Htimers Hquiet]. split.
  - intros i tm Hi Hfin. rewrite (last_edit_record a s Hedit).
    exact (Htimers i tm Hi Hfin).
  - apply quiet_fires_snoc; assumption.
Qed.

Lemma window_inv_update_preview s : window_inv s -> window_inv (update_preview s).
Proof.
  intros Hinv. unfold update_preview. destruct (_preview_window s); [|exact Hinv].
  by apply window_inv_record.
Qed.

Lemma window_inv_init : window_inv init.
Proof.
  split.
  - intros i tm Hi. simpl in Hi. by rewrite lookup_nil in Hi.
  - intros pre time i post Heq. by destruct pre.
Qed.

Lemma window_inv_edit img off c s :
  _canvas s = Some c -> window_inv s ->
  window_inv (show_image img false off s) /\
  forall j tm,
    timers (show_image img false off s) !! j = Some tm -> finished tm = false ->
    j = length (timers s).
Proof.
  intros Hc [Htimers Hquiet].
  rewrite (show_image_edit img off c s Hc).
  set (cancelled := match _cur_preview_thread s with
                    | Some i => alter _ i (timers s)
                    | None => timers s
                    end).
  assert (Hlen : length cancelled = length (timers s)).
  { unfold cancelled. destruct (_cur_preview_thread s); [apply length_alter | reflexivity]. }
  assert (Hdone : forall j tm, cancelled !! j = Some tm -> finished tm = true).
  { intros j tm Hj. destruct (finished tm) eqn:Hfin; [reflexivity|]. exfalso.
    unfold cancelled in Hj. destruct (_cur_preview_thread s) as [i|] eqn:Hcur.
    - destruct (decide (i = j)) as [->|Hne].
      + rewrite list_lookup_alter_eq in Hj.
        destruct (timers s !! j); simplify_eq/=.
      + rewrite list_lookup_alter_ne in Hj by done.
        destruct (Htimers j tm Hj Hfin) as [Hcur' _]. congruence.
    - destruct (Htimers j tm Hj Hfin) as [Hcur' _]. congruence. }
  assert (Hfresh : forall j tm,
             (cancelled ++ [mkTimer 1 (Some (now s)) false]) !! j = Some tm ->
             finished tm = false ->
             j = length (timers s) /\ tm = mkTimer 1 (Some (now s)) false).
  { intros j tm Hj Hfin. apply lookup_app_Some in Hj as [Hj | [Hge Hj]].
    - rewrite (Hdone j tm Hj) in Hfin. discriminate.
    - apply list_lookup_singleton_Some in Hj as [Hj <-].
      split; [lia | reflexivity]. }
  split; [split|]; simpl.
  - intros j tm Hj Hfin. destruct (Hfresh j tm Hj Hfin) as [-> ->]. simpl.
    split_and!; eauto.
    rewrite last_edit_app. by destruct (_cur_preview_thread s).
  - apply quiet_fires_app; [exact Hquiet|].
    destruct (_cur_preview_thread s); repeat constructor; done.
  - intros j tm Hj Hfin. by destruct (Hfresh j tm Hj Hfin).
Qed.

Lemma window_inv_show img new off s :
  window_inv s -> window_inv (show_image img new off s).
Proof.
  intros Hinv. destruct (_canvas s) as [c|] eqn:Hc.
  - destruct new.
    + unfold show_image. rewrite Hc.
      apply window_inv_record; [done..|].
      eapply window_inv_ext; [..|apply (window_inv_record (ANewImage img off)); [done..|exact Hinv]];
        reflexivity.
    + by apply (window_inv_edit img off c).
  - unfold show_image. rewrite Hc. by apply window_inv_record.
Qed.

Lemma window_inv_timer_run i tm t0 s :
  timers s !! i = Some tm -> started_at tm = Some t0 ->
  (t0 + interval tm <= now s)%Q ->
  window_inv s -> window_inv (timer_run i s).
Proof.
  intros Hi Hstart Hdue Hinv. unfold timer_run. rewrite Hi.
  assert (Hmark : forall s0, window_inv s0 ->
            window_inv (with_timers
                          (alter (fun tm => mkTimer (interval tm) (started_at tm) true) i) s0)).
  { intros s0 [Htimers Hquiet]. split; [|exact Hquiet]. simpl.
    intros j tm' Hj Hfin. destruct (decide (i = j)) as [->|Hne].
    - rewrite list_lookup_alter_eq in Hj.
      destruct (timers s0 !! j); simplify_eq/=.
    - rewrite list_lookup_alter_ne in Hj by done. exact (Htimers j tm' Hj Hfin). }
  apply Hmark. destruct (finished tm) eqn:Hfin; [exact Hinv|].
  apply window_inv_update_preview.
  destruct Hinv as [Htimers Hquiet].
  destruct (Htimers i tm Hi Hfin) as (_ & Hint & _ & Hedit).
  split.
  - intros j tm' Hj Hfin'. rewrite last_edit_record by done.
    exact (Htimers j tm' Hj Hfin').
  - unfold record. simpl. eapply quiet_fires_fire; [| |exact Hquiet].
    + rewrite <- Hedit. exact Hstart.
    + rewrite <- Hint. exact Hdue.
Qed.

Lemma window_inv_step s s' : step s s' -> window_inv s -> window_inv s'.
Proof.
  intros Hstep Hinv. destruct Hstep.
  - by apply window_inv_show.
  - exact Hinv.
  - by eapply window_inv_timer_run.
  - apply window_inv_update_preview. exact Hinv.
  - exact Hinv.
Qed.

Lemma reachable_inv s : reachable s -> window_inv s.
Proof.
  unfold reachable. intros Hreach.
  apply (rtc_ind_r (R := step) window_inv init);
    [apply window_inv_init | | exact Hreach].
  intros y z _ Hstep IH. eapply window_inv_step; eassumption.
Qed.

End PreviewTimer.

Example demo_window_log :
  MainWindow.log demo_window
  = [(0%Q, MainWindow.ACreateCanvas 0);
     (0%Q, MainWindow.ASetImage 1);
     (0%Q, MainWindow.ATimerStart 0);
     ((1 # 2)%Q, MainWindow.ASetImage 2);
     ((1 # 2)%Q, MainWindow.ATimerCancel 0);
     ((1 # 2)%Q, MainWindow.ATimerStart 1);
     ((3 # 2)%Q, MainWindow.ATimerFire 1);
     ((3 # 2)%Q, MainWindow.AUpdateImage)].
Proof. vm_compute. reflexivity. Qed.

(** C8: a display update that is not a new image, on an existing canvas,
    sets the image, cancels the timer the window holds (if any), and only
    then creates and starts a fresh timer of 1.0 second for
    [update_preview]; afterwards the fresh timer is the only one that can
    still fire.  In every run of the window from there on, a timer fires
    only when at least one second has passed since the last such update. *)
Theorem preview_timer_debounced (s : MainWindow.t) (img : nat) (off : Z * Z) (c : nat) :
  MainWindow.reachable s -> MainWindow._canvas s = Some c ->
  let s' := MainWindow.show_image img false off s in
  let fresh := length (MainWindow.timers s) in
  MainWindow.log s'
  = MainWindow.log s
    ++ (MainWindow.now s, MainWindow.ASetImage img)
       :: match MainWindow._cur_preview_thread s with
          | Some i => [(MainWindow.now s, MainWindow.ATimerCancel i)]
          | None => []
          end
       ++ [(MainWindow.now s, MainWindow.ATimerStart fresh)] /\
  MainWindow._cur_preview_thread s' = Some fresh /\
  MainWindow.timers s' !! fresh
  = Some (MainWindow.mkTimer 1 (Some (MainWindow.now s)) false) /\
  (forall j tm,
     MainWindow.timers s' !! j = Some tm -> MainWindow.finished tm = false ->
     j = fresh) /\
  (forall s'', rtc MainWindow.step s' s'' -> MainWindow.quiet_fires (MainWindow.log s'')).
Proof.
  intros Hreach Hc s' fresh.
  assert (Hinv : window_inv s) by (apply reachable_inv, Hreach).
  destruct (window_inv_edit img off c s Hc Hinv) as [_ Honly].
  fold s' in Honly.
  assert (Hshape := show_image_edit img off c s Hc). fold s' in Hshape. simpl in Hshape.
  split_and!.
  - by rewrite Hshape.
  - by rewrite Hshape.
  - rewrite Hshape. simpl.
    rewrite lookup_app_r; [|destruct (MainWindow._cur_preview_thread s);
                            rewrite ?length_alter; unfold fresh; lia].
    replace (fresh - _)%nat with 0%nat; [reflexivity|].
    destruct (MainWindow._cur_preview_thread s); rewrite ?length_alter; unfold fresh; lia.
  - exact Honly.
  - intros s'' Hrun. apply reachable_inv.
    unfold MainWindow.reachable. etrans; [|exact Hrun].
    eapply rtc_r; [exact Hreach | apply MainWindow.step_show].
Qed.

Lemma preview_timer_debounced_witness :
  let s := demo_window_first in
  let s' := MainWindow.show_image 2 false (0, 0) s in
  MainWindow.log s'
  = MainWindow.log s
    ++ (MainWindow.now s, MainWindow.ASetImage 2)
       :: match MainWindow._cur_preview_thread s with
          | Some i => [(MainWindow.now s, MainWindow.ATimerCancel i)]
          | None => []
          end
       ++ [(MainWindow.now s, MainWindow.ATimerStart (length (MainWindow.timers s)))] /\
  MainWindow._cur_preview_thread s' = Some (length (MainWindow.timers s)) /\
  MainWindow.timers s' !! length (MainWindow.timers s)
  = Some (MainWindow.mkTimer 1 (Some (MainWindow.now s)) false) /\
  (forall j tm,
     MainWindow.timers s' !! j = Some tm -> MainWindow.finished tm = false ->
     j = length (MainWindow.timers s)) /\
  (forall s'', rtc MainWindow.step s' s'' -> MainWindow.quiet_fires (MainWindow.log s'')).
Proof.
  refine (preview_timer_debounced demo_window_first 2 (0, 0) 1 _ _).
  - unfold MainWindow.reachable, demo_window_first.
    eapply rtc_r; [eapply rtc_r; [eapply rtc_r; [eapply rtc_r; [apply rtc_refl|]|]|]|].
    + apply MainWindow.step_show.
    + apply MainWindow.step_preview.
    + apply MainWindow.step_show.
    + apply MainWindow.step_elapse. discriminate.
  - reflexivity.
Defined.

(** * Further properties of the tools *)

(** ** The threshold tool keeps thresholds within [0,1] *)

Lemma sets_in_range_observers obs : Forall sets_in_range (map EObserver obs).
Proof. induction obs; simpl; constructor; simpl; auto. Qed.

Lemma threshold_assigned_base v t :
  ThresholdTool.base (threshold_assigned v t) = ThresholdTool.base t.
Proof. unfold threshold_assigned. destruct (bool_decide _ && _); reflexivity. Qed.

Lemma threshold_assigned_increment v t :
  ThresholdTool._increment (threshold_assigned v t) = ThresholdTool._increment t.
Proof. unfold threshold_assigned. destruct (bool_decide _ && _); reflexivity. Qed.

Lemma threshold_set_frame `{RegionMath} (t : ThresholdTool.t) w l v :
  threshold_bound t w l ->
  exists t' w' es,
    ThresholdTool.threshold_set v (t, w) = Ok (tt, (t', w')) /\
    ThresholdTool._threshold t'
      = (if ThresholdTool.in_range v then v else ThresholdTool._threshold t) /\
    ThresholdTool.base t' = ThresholdTool.base t /\
    threshold_bound t' w' l /\
    (thresholds_in_range w -> thresholds_in_range w') /\
    events w' = events w ++ es /\ Forall sets_in_range es /\
    (FGTTool._can_undo (ThresholdTool.base t) = false ->
     manager w' = manager w /\ dom (heap w') = dom (heap w) /\
     existsb is_push es = false).
Proof.
  intros [Hp [p Hl]].
  destruct (ThresholdTool.in_range v) eqn:Hv.
  2:{ rewrite (threshold_set_rejected t w v Hv).
      exists t, w, []. rewrite app_nil_r. split_and!; auto. by split; eauto. }
  destruct (ThresholdTool._new_patch t) eqn:Hnew.
  - rewrite (threshold_set_new_patch t w v Hv Hnew).
    eexists _, _, _. split; [reflexivity|]. split_and!.
    + apply threshold_assigned_threshold.
    + apply threshold_assigned_base.
    + split; [|simpl; eauto].
      unfold ThresholdTool.patch. by rewrite threshold_assigned_base.
    + auto.
    + reflexivity.
    + apply sets_in_range_observers.
    + intros _. split_and!; try reflexivity. apply existsb_is_push_observers.
  - rewrite (threshold_set_bound t w v l p Hv Hnew Hp Hl).
    assert (Hq : ThresholdTool.in_range (Patch.threshold (thresholded v p)) = true)
      by exact Hv.
    destruct (FGTTool._can_undo (ThresholdTool.base t)) eqn:Hundo.
    + eexists _, _, _. split; [reflexivity|]. split_and!.
      * apply threshold_assigned_threshold.
      * apply threshold_assigned_base.
      * split; [unfold ThresholdTool.patch; by rewrite threshold_assigned_base|].
        simpl. rewrite lookup_insert_ne by (symmetry; eapply fresh_loc_ne, Hl).
        rewrite lookup_insert_eq. eauto.
      * intros Hok. unfold thresholds_in_range. simpl.
        apply map_Forall_insert_2; [exact Hq|].
        apply map_Forall_insert_2; [exact Hq | exact Hok].
      * reflexivity.
      * simpl. repeat (constructor; [simpl; auto|]). apply sets_in_range_observers.
      * discriminate.
    + eexists _, _, _. split; [reflexivity|]. split_and!.
      * apply threshold_assigned_threshold.
      * apply threshold_assigned_base.
      * split; [unfold ThresholdTool.patch; by rewrite threshold_assigned_base|].
        simpl. rewrite lookup_insert_eq. eauto.
      * intros Hok. unfold thresholds_in_range. simpl.
        apply map_Forall_insert_2; [exact Hq | exact Hok].
      * reflexivity.
      * simpl. constructor; [exact Hv | apply sets_in_range_observers].
      * intros _. simpl. split_and!; try reflexivity.
        -- apply dom_insert_lookup_L. eauto.
        -- apply existsb_is_push_observers.
Qed.

Lemma threshold_call_frame `{RegionMath} (c : threshold_call) (t : ThresholdTool.t) w l :
  threshold_bound t w l ->
  exists t' w' es,
    threshold_call_run c (t, w) = Ok (tt, (t', w')) /\
    (ThresholdTool.in_range (ThresholdTool._threshold t) = true ->
     ThresholdTool.in_range (ThresholdTool._threshold t') = true) /\
    ThresholdTool.base t' = ThresholdTool.base t /\
    threshold_bound t' w' l /\
    (thresholds_in_range w -> thresholds_in_range w') /\
    events w' = events w ++ es /\ Forall sets_in_range es /\
    (FGTTool._can_undo (ThresholdTool.base t) = false ->
     manager w' = manager w /\ dom (heap w') = dom (heap w) /\
     existsb is_push es = false).
Proof.
  intros Hb.
  assert (Hset : forall v, exists t' w' es,
    ThresholdTool.threshold_set v (t, w) = Ok (tt, (t', w')) /\
    (ThresholdTool.in_range (ThresholdTool._threshold t) = true ->
     ThresholdTool.in_range (ThresholdTool._threshold t') = true) /\
    ThresholdTool.base t' = ThresholdTool.base t /\
    threshold_bound t' w' l /\
    (thresholds_in_range w -> thresholds_in_range w') /\
    events w' = events w ++ es /\ Forall sets_in_range es /\
    (FGTTool._can_undo (ThresholdTool.base t) = false ->
     manager w' = manager w /\ dom (heap w') = dom (heap w) /\
     existsb is_push es = false)).
  { intros v.
    destruct (threshold_set_frame t w l v Hb)
      as (t' & w' & es & Hrun & Hthr & Hbase & Hb' & Hok' & Hev & Hes & Hlock).
    exists t', w', es. split_and!; auto.
    intros Ht. rewrite Hthr. by destruct (ThresholdTool.in_range v) eqn:Hv. }
  destruct c as [v | d | v]; simpl.
  - apply Hset.
  - unfold ThresholdTool.on_adjust, ThresholdTool._adjust_threshold. step_method.
    destruct (d <? 0); apply Hset.
  - unfold ThresholdTool._on_threshold_slider. step_method.
    destruct (ThresholdTool._slider_init t) eqn:Hinit.
    + destruct (Hset v) as (t' & w' & es & Hrun & Hthr & Hbase & [Hp Hl] & Hok' & Hev & Hes & Hlock).
      rewrite Hrun. cbn.
      exists (ThresholdTool.with_slider_init true t'), w', es. split_and!; auto.
      by split.
    + cbn. exists (ThresholdTool.with_slider_init true t), w, [].
      rewrite app_nil_r. destruct Hb as [Hp Hl]. split_and!; auto. by split.
Qed.

Lemma threshold_calls_frame `{RegionMath} (cs : list threshold_call)
    (t : ThresholdTool.t) w l :
  threshold_bound t w l ->
  exists t' w' es,
    threshold_calls cs (t, w) = Ok (tt, (t', w')) /\
    (ThresholdTool.in_range (ThresholdTool._threshold t) = true ->
     ThresholdTool.in_range (ThresholdTool._threshold t') = true) /\
    (thresholds_in_range w -> thresholds_in_range w') /\
    events w' = events w ++ es /\ Forall sets_in_range es /\
    (FGTTool._can_undo (ThresholdTool.base t) = false ->
     manager w' = manager w /\ dom (heap w') = dom (heap w) /\
     existsb is_push es = false).
Proof.
  revert t w. induction cs as [|c cs IH]; intros t w Hb.
  - exists t, w, []. rewrite app_nil_r. split_and!; auto.
  - destruct (threshold_call_frame c t w l Hb)
      as (t1 & w1 & es1 & Hrun1 & Ht1 & Hbase & Hb1 & Hok1 & Hev1 & Hes1 & Hlock1).
    destruct (IH t1 w1 Hb1)
      as (t2 & w2 & es2 & Hrun2 & Ht2 & Hok2 & Hev2 & Hes2 & Hlock2).
    exists t2, w2, (es1 ++ es2). split_and!; auto.
    + unfold threshold_calls in *. simpl. unfold mbind, M_bind at 1.
      rewrite Hrun1. exact Hrun2.
    + rewrite Hev2, Hev1. by rewrite app_assoc.
    + by apply Forall_app.
    + intros Hlocked.
      destruct (Hlock1 Hlocked) as (Hm1 & Hd1 & Hp1).
      rewrite Hbase in Hlock2.
      destruct (Hlock2 Hlocked) as (Hm2 & Hd2 & Hp2).
      split_and!; try congruence.
      by rewrite existsb_app, Hp1, Hp2.
Qed.

(** X1: the threshold tool keeps every threshold within [0,1].  From a tool
    bound to a live patch, with its own threshold and the thresholds of all
    patches within [0,1], any sequence of assignments, [on_adjust] calls and
    slider callbacks returns normally (the patch never raises its range
    error), leaves the tool's threshold and all patch thresholds within
    [0,1], and hands only values within [0,1] to a patch. *)
Theorem threshold_calls_keep_range `{RegionMath} (cs : list threshold_call)
    (t : ThresholdTool.t) (w : World) (l : loc) :
  threshold_bound t w l -> thresholds_in_range w ->
  ThresholdTool.in_range (ThresholdTool._threshold t) = true ->
  exists t' w' es,
    threshold_calls cs (t, w) = Ok (tt, (t', w')) /\
    ThresholdTool.in_range (ThresholdTool._threshold t') = true /\
    thresholds_in_range w' /\
    events w' = events w ++ es /\ Forall sets_in_range es.
Proof.
  intros Hb Hok Ht.
  destruct (threshold_calls_frame cs t w l Hb)
    as (t' & w' & es & Hrun & Ht' & Hok' & Hev & Hes & _).
  exists t', w', es. split_and!; auto.
Qed.

Lemma demo_thresholds_in_range : thresholds_in_range Demo.world.
Proof.
  unfold thresholds_in_range, Demo.world. simpl.
  apply map_Forall_insert_2; [reflexivity|].
  apply map_Forall_insert_2; [reflexivity|].
  apply map_Forall_empty.
Qed.

Lemma threshold_calls_keep_range_witness :
  exists t' w' es,
    threshold_calls (H := Demo.math)
      [ThresholdAdjust 1; ThresholdAssign 1.5; ThresholdSlider 0.25; ThresholdAssign 1]
      (Demo.thr, Demo.world) = Ok (tt, (t', w')) /\
    ThresholdTool.in_range (ThresholdTool._threshold t') = true /\
    thresholds_in_range w' /\
    events w' = events Demo.world ++ es /\ Forall sets_in_range es.
Proof.
  refine (threshold_calls_keep_range (H := Demo.math) _ Demo.thr Demo.world 1%positive _ _ _).
  - split; [reflexivity|]. vm_compute. eauto.
  - exact demo_thresholds_in_range.
  - reflexivity.
Defined.

(** X2: while undos are locked ([lock_undos]), the threshold tool never
    touches the undo manager: any sequence of assignments, [on_adjust]
    calls and slider callbacks leaves the undo manager as it was, logs no
    push, and allocates no snapshot. *)
Theorem locked_threshold_never_pushes `{RegionMath} (cs : list threshold_call)
    (t : ThresholdTool.t) (w : World) (l : loc) :
  threshold_bound t w l ->
  let locked := ThresholdTool.with_base FGTTool.lock_undos t in
  exists t' w' es,
    threshold_calls cs (locked, w) = Ok (tt, (t', w')) /\
    manager w' = manager w /\
    dom (heap w') = dom (heap w) /\
    events w' = events w ++ es /\ existsb is_push es = false.
Proof.
  intros Hb locked.
  destruct (threshold_calls_frame cs locked w l Hb) as
    (t' & w' & es & Hrun & _ & _ & Hev & _ & Hlock).
  destruct (Hlock eq_refl) as (Hm & Hd & Hp).
  by exists t', w', es.
Qed.

Lemma locked_threshold_never_pushes_witness :
  exists t' w' es,
    threshold_calls (H := Demo.math)
      [ThresholdAdjust 1; ThresholdAssign 0.75; ThresholdAdjust (-1)]
      (ThresholdTool.with_base FGTTool.lock_undos Demo.thr, Demo.world)
      = Ok (tt, (t', w')) /\
    manager w' = manager Demo.world /\
    dom (heap w') = dom (heap Demo.world) /\
    events w' = events Demo.world ++ es /\ existsb is_push es = false.
Proof.
  refine (locked_threshold_never_pushes (H := Demo.math) _ Demo.thr Demo.world 1%positive _).
  split; [reflexivity|]. vm_compute. eauto.
Defined.

(** ** The brush radius stays non-negative *)

Lemma brush_on_activate_run (t : BrushTool.t) w n :
  BrushTool.on_activate n (t, w)
  = Ok (tt, (t, logged (map (fun ob => EBrushObserver ob (BrushTool._brush_radius t))
                          (BrushTool._brush_observers t)) w)).
Proof.
  unfold BrushTool.on_activate. step_method. unfold BrushTool.notify_brush.
  apply for_each_emit.
Qed.

Lemma brush_radius_set_notifies (t : BrushTool.t) w v :
  exists t' es,
    BrushTool.brush_radius_set v (t, w) = Ok (tt, (t', logged es w)) /\
    forallb is_notification es = true /\
    BrushTool._brush_radius t' = (if v >=? 0 then v else BrushTool._brush_radius t).
Proof.
  unfold BrushTool.brush_radius_set. destruct (v >=? 0).
  2:{ exists t, []. rewrite logged_nil. by split_and!. }
  step_method. unfold BrushTool.notify_brush. rewrite for_each_emit.
  destruct (BrushTool._brush_sizer t) as [old|]; cbn.
  - unfold BrushTool._on_brush_sizer. step_method.
    unfold BrushTool.notify_brush. rewrite for_each_emit, logged_logged.
    eexists _, _. split; [reflexivity|]. split; [|reflexivity].
    rewrite forallb_app. simpl.
    induction (BrushTool._brush_observers t); simpl; auto.
  - eexists _, _. split; [reflexivity|]. split; [|reflexivity].
    induction (BrushTool._brush_observers t); simpl; auto.
Qed.

Lemma brush_call_frame (c : brush_call) (t : BrushTool.t) w :
  0 <= BrushTool._brush_radius t ->
  exists t' es,
    brush_call_run c (t, w) = Ok (tt, (t', logged es w)) /\
    forallb is_notification es = true /\
    0 <= BrushTool._brush_radius t'.
Proof.
  intros Hr.
  assert (Hset : forall v, exists t' es,
    BrushTool.brush_radius_set v (t, w) = Ok (tt, (t', logged es w)) /\
    forallb is_notification es = true /\
    0 <= BrushTool._brush_radius t').
  { intros v. destruct (brush_radius_set_notifies t w v) as (t' & es & Hrun & Hes & Hrad).
    exists t', es. split_and!; auto. rewrite Hrad.
    destruct (Z.geb_spec v 0); lia. }
  destruct c as [v | d | n]; simpl.
  - apply Hset.
  - unfold BrushTool.on_adjust. step_method. destruct (d >? 0); apply Hset.
  - rewrite brush_on_activate_run. eexists _, _. split; [reflexivity|].
    split; [|exact Hr].
    induction (BrushTool._brush_observers t); simpl; auto.
Qed.

(** X3: the brush radius never becomes negative through the tool's
    interface.  From a radius of at least 0, any sequence of assignments to
    [brush_radius], [on_adjust] calls and [on_activate] calls returns
    normally with a radius of at least 0, and does nothing to the world but
    notify observers: no patch is edited and the undo manager is
    untouched. *)
Theorem brush_radius_stays_non_negative (cs : list brush_call)
    (t : BrushTool.t) (w : World) :
  0 <= BrushTool._brush_radius t ->
  exists t' es,
    brush_calls cs (t, w) = Ok (tt, (t', logged es w)) /\
    forallb is_notification es = true /\
    0 <= BrushTool._brush_radius t'.
Proof.
  revert t w. induction cs as [|c cs IH]; intros t w Hr.
  - exists t, []. rewrite logged_nil. by split_and!.
  - destruct (brush_call_frame c t w Hr) as (t1 & es1 & Hrun1 & Hes1 & Hr1).
    destruct (IH t1 (logged es1 w) Hr1) as (t2 & es2 & Hrun2 & Hes2 & Hr2).
    exists t2, (es1 ++ es2). split_and!; auto.
    + unfold brush_calls in *. simpl. unfold mbind, M_bind at 1.
      rewrite Hrun1, Hrun2, logged_logged. reflexivity.
    + by rewrite forallb_app, Hes1, Hes2.
Qed.

Lemma brush_radius_stays_non_negative_witness :
  exists t' es,
    brush_calls [BrushAdjust (-1); BrushAssign (-4); BrushAdjust (-120); BrushActivate 0]
      (Demo.brush0 AddRegion, Demo.world) = Ok (tt, (t', logged es Demo.world)) /\
    forallb is_notification es = true /\
    0 <= BrushTool._brush_radius t'.
Proof.
  refine (brush_radius_stays_non_negative _ (Demo.brush0 AddRegion) Demo.world _).
  simpl. lia.
Defined.

(** X4: the spin box path has no such guard: [_on_brush_sizer] stores the
    value of the spin box variable whatever its sign, and notifies every
    brush observer with it, so a negative radius can enter this way although
    the setter would reject it. *)
Theorem brush_sizer_is_unguarded (t : BrushTool.t) (w : World) (val : Z) :
  val < 0 ->
  BrushTool._on_brush_sizer val (t, w)
  = Ok (tt, (BrushTool.with_brush_radius val t,
             logged (map (fun ob => EBrushObserver ob val) (BrushTool._brush_observers t)) w)) /\
  BrushTool.brush_radius_set val (t, w) = Ok (tt, (t, w)).
Proof.
  intros Hneg. split.
  - unfold BrushTool._on_brush_sizer. step_method.
    unfold BrushTool.notify_brush. apply for_each_emit.
  - unfold BrushTool.brush_radius_set.
    destruct (Z.geb_spec val 0); [lia | reflexivity].
Qed.

Lemma brush_sizer_is_unguarded_witness :
  BrushTool._on_brush_sizer (-3) (Demo.brush AddRegion, Demo.world)
  = Ok (tt, (BrushTool.with_brush_radius (-3) (Demo.brush AddRegion),
             logged [EBrushObserver 7 (-3)] Demo.world)) /\
  BrushTool.brush_radius_set (-3) (Demo.brush AddRegion, Demo.world)
  = Ok (tt, (Demo.brush AddRegion, Demo.world)).
Proof.
  refine (brush_sizer_is_unguarded (Demo.brush AddRegion) Demo.world (-3) _). lia.
Defined.

(** ** The flood tolerance stays acceptable *)

Lemma flood_call_frame `{RegionMath} (c : flood_call) (t : FloodTool.t) w l :
  flood_ready t w l ->
  exists t' w',
    flood_call_run c (t, w) = Ok (tt, (t', w')) /\
    (FloodTool.accepts (FloodTool.kind t) (FloodTool._tolerance t) = true ->
     FloodTool.accepts (FloodTool.kind t') (FloodTool._tolerance t') = true) /\
    same_flood_config t t' /\ edits_only l w w'.
Proof.
  intros Hready.
  assert (Hset : forall v, exists t' w',
    FloodTool.tolerance_set v (t, w) = Ok (tt, (t', w')) /\
    (FloodTool.accepts (FloodTool.kind t) (FloodTool._tolerance t) = true ->
     FloodTool.accepts (FloodTool.kind t') (FloodTool._tolerance t') = true) /\
    same_flood_config t t' /\ edits_only l w w').
  { intros v.
    destruct (flood_tolerance_set_spec t w l v Hready) as (t' & w' & Hrun & Htol & Hcfg & Hframe).
    exists t', w'. split_and!; auto.
    intros Hacc. destruct Hcfg as (-> & _). rewrite Htol.
    by destruct (FloodTool.accepts (FloodTool.kind t) v) eqn:Hv. }
  destruct c as [v | d | v]; simpl.
  - apply Hset.
  - destruct (flood_on_adjust_spec t w l d Hready) as (t' & w' & Hrun & Htol & Hcfg & Hframe).
    exists t', w'. split_and!; auto.
    intros Hacc. destruct Hcfg as (-> & _). rewrite Htol. cbv zeta.
    destruct (FloodTool.accepts (FloodTool.kind t) (if d >? 0 then _ else _)) eqn:Hv;
      [exact Hv | exact Hacc].
  - unfold FloodTool._on_flood_slider. step_method.
    destruct (FloodTool._slider_init t) eqn:Hinit.
    + destruct (Hset v) as (t' & w' & Hrun & Htol & Hcfg & Hframe).
      rewrite Hrun. cbn.
      exists (FloodTool.with_slider_init true t'), w'. split_and!; auto.
    + cbn. exists (FloodTool.with_slider_init true t), w.
      split_and!; auto using edits_only_refl. by repeat split.
Qed.

(** X5: the tolerance of a flood tool stays acceptable to its setter: at
    least 0 for the add tool, above 0 for the remove tool.  From such a
    tolerance, any sequence of assignments, [on_adjust] calls and slider
    callbacks returns normally with such a tolerance, and leaves the undo
    manager as it was. *)
Theorem flood_tolerance_stays_accepted `{RegionMath} (cs : list flood_call)
    (t : FloodTool.t) (w : World) (l : loc) :
  flood_ready t w l ->
  FloodTool.accepts (FloodTool.kind t) (FloodTool._tolerance t) = true ->
  exists t' w',
    flood_calls cs (t, w) = Ok (tt, (t', w')) /\
    FloodTool.kind t' = FloodTool.kind t /\
    (if match FloodTool.kind t with
        | FloodAdd => PrimFloat.leb 0 (FloodTool._tolerance t')
        | FloodRemove => PrimFloat.ltb 0 (FloodTool._tolerance t')
        end then True else False) /\
    manager w' = manager w.
Proof.
  revert t w. induction cs as [|c cs IH]; intros t w Hready Hacc.
  - exists t, w. split_and!; auto.
    unfold FloodTool.accepts, float_ge, float_gt in Hacc.
    destruct (FloodTool.kind t); by rewrite Hacc.
  - destruct (flood_call_frame c t w l Hready) as (t1 & w1 & Hrun1 & Hacc1 & Hcfg1 & Hframe1).
    assert (Hready1 : flood_ready t1 w1 l) by (eapply flood_ready_mono; eauto).
    destruct (IH t1 w1 Hready1 (Hacc1 Hacc)) as (t2 & w2 & Hrun2 & Hk2 & Htol2 & Hm2).
    destruct Hcfg1 as (Hk1 & _). destruct Hframe1 as (Hm1 & _).
    exists t2, w2. split_and!; try congruence.
    + unfold flood_calls in *. simpl. unfold mbind, M_bind at 1.
      rewrite Hrun1. exact Hrun2.
    + by rewrite <- Hk1.
Qed.

Lemma flood_tolerance_stays_accepted_witness :
  exists t' w',
    flood_calls (H := Demo.math)
      [FloodAdjust (-1); FloodAssign 0; FloodAdjust (-1); FloodSlider 0.5; FloodSlider (-0.5)]
      (Demo.fl FloodRemove, Demo.world) = Ok (tt, (t', w')) /\
    FloodTool.kind t' = FloodRemove /\
    (if PrimFloat.ltb 0 (FloodTool._tolerance t') then True else False) /\
    manager w' = manager Demo.world.
Proof.
  refine (flood_tolerance_stays_accepted (H := Demo.math) _ (Demo.fl FloodRemove)
            Demo.world 1%positive _ _).
  - right. split; [reflexivity|]. vm_compute. eauto.
  - reflexivity.
Defined.

(** ** A flood tool without a seed *)

Lemma flood_tolerance_set_no_seed `{RegionMath} (t : FloodTool.t) w v :
  FloodTool._prev_position t = None ->
  exists t' es,
    FloodTool.tolerance_set v (t, w) = Ok (tt, (t', logged es w)) /\
    forallb is_notification es = true /\
    FloodTool._prev_position t' = None /\
    FloodTool.base t' = FloodTool.base t.
Proof.
  intros Hnone. unfold FloodTool.tolerance_set. step_method.
  destruct (FloodTool.accepts (FloodTool.kind t) v).
  2:{ exists t, []. rewrite logged_nil. by split_and!. }
  simpl. rewrite Hnone.
  destruct (bool_decide (is_Some (FloodTool._flood_slider t))); cbn;
    unfold FloodTool._edit_region; cbn;
    rewrite notify_observers_run; eexists _, _; (split; [reflexivity|]);
    split_and!; try exact Hnone; try reflexivity;
    induction (FGTTool._observers (FloodTool.base t)); simpl; auto.
Qed.

Lemma flood_call_no_seed `{RegionMath} (c : flood_call) (t : FloodTool.t) w :
  FloodTool._prev_position t = None ->
  exists t' es,
    flood_call_run c (t, w) = Ok (tt, (t', logged es w)) /\
    forallb is_notification es = true /\
    FloodTool._prev_position t' = None.
Proof.
  intros Hnone. destruct c as [v | d | v]; simpl.
  - destruct (flood_tolerance_set_no_seed t w v Hnone) as (t' & es & Hrun & Hes & Hnone' & _).
    by exists t', es.
  - unfold FloodTool.on_adjust. step_method.
    set (v := if d >? 0
              then (FloodTool._tolerance t + FloodTool._increment t)%float
              else (FloodTool._tolerance t - FloodTool._increment t)%float).
    destruct (flood_tolerance_set_no_seed t w v Hnone) as (t' & es & Hrun & Hes & Hnone' & _).
    assert (Hrun' :
      (if d >? 0
       then FloodTool.tolerance_set (FloodTool._tolerance t + FloodTool._increment t)%float
       else FloodTool.tolerance_set (FloodTool._tolerance t - FloodTool._increment t)%float)
        (t, w) = Ok (tt, (t', logged es w))).
    { subst v. destruct (d >? 0); exact Hrun. }
    rewrite Hrun'. cbn. rewrite Hnone'. by exists t', es.
  - unfold FloodTool._on_flood_slider. step_method.
    destruct (FloodTool._slider_init t).
    + destruct (flood_tolerance_set_no_seed t w v Hnone) as (t' & es & Hrun & Hes & Hnone' & _).
      rewrite Hrun. cbn. by exists (FloodTool.with_slider_init true t'), es.
    + cbn. exists (FloodTool.with_slider_init true t), []. rewrite logged_nil. by split_and!.
Qed.

(** X6: binding a flood tool to a patch forgets the seed of the last click.
    After [patch = new], any sequence of tolerance assignments, [on_adjust]
    calls and slider callbacks returns normally and only notifies
    observers: no flood fill is run on any patch and the undo manager is
    untouched, until the next click. *)
Theorem flood_rebinding_forgets_seed `{RegionMath} (cs : list flood_call)
    (t : FloodTool.t) (w : World) (new : loc) :
  exists t0 t' es,
    FloodTool.patch_set new (t, w) = Ok (tt, (t0, w)) /\
    FGTTool._patch (FloodTool.base t0) = Some new /\
    flood_calls cs (t0, w) = Ok (tt, (t', logged es w)) /\
    forallb is_notification es = true.
Proof.
  eexists _. 
  assert (Hgen : forall cs t1 w1, FloodTool._prev_position t1 = None ->
            exists t' es, flood_calls cs (t1, w1) = Ok (tt, (t', logged es w1)) /\
                          forallb is_notification es = true).
  { clear. intros cs. induction cs as [|c cs IH]; intros t1 w1 Hnone.
    - exists t1, []. rewrite logged_nil. by split.
    - destruct (flood_call_no_seed c t1 w1 Hnone) as (t2 & es2 & Hrun2 & Hes2 & Hnone2).
      destruct (IH t2 (logged es2 w1) Hnone2) as (t3 & es3 & Hrun3 & Hes3).
      exists t3, (es2 ++ es3). split.
      + unfold flood_calls in *. simpl. unfold mbind, M_bind at 1.
        rewrite Hrun2, Hrun3, logged_logged. reflexivity.
      + by rewrite forallb_app, Hes2, Hes3. }
  edestruct (Hgen cs) as (t' & es & Hrun & Hes); [|exists t', es; split_and!;
    [reflexivity | reflexivity | exact Hrun | exact Hes]].
  reflexivity.
Qed.

(** ** What [on_adjust] does to the patch of a flood tool *)

(** X7: with a seed, [on_adjust] of a flood tool always runs the fill again
    after the assignment.  When the nudged tolerance is accepted the patch
    is filled twice at the new tolerance (once by the setter, once by
    [on_adjust]) and every observer is notified three times; when it is
    rejected the tool keeps its state, and the patch is still filled once
    more at the old tolerance, with one notification. *)
Theorem flood_on_adjust_refills `{RegionMath} (t : FloodTool.t) (w : World)
    (l : loc) (p : Patch.t) (seed : position) (d : Z) :
  FGTTool._patch (FloodTool.base t) = Some l -> heap w !! l = Some p ->
  FloodTool._prev_position t = Some seed ->
  let k := FloodTool.kind t in
  let obs := map EObserver (FGTTool._observers (FloodTool.base t)) in
  let v := if d >? 0
           then (FloodTool._tolerance t + FloodTool._increment t)%float
           else (FloodTool._tolerance t - FloodTool._increment t)%float in
  exists t' w',
    FloodTool.on_adjust d (t, w) = Ok (tt, (t', w')) /\
    manager w' = manager w /\
    if FloodTool.accepts k v
    then FloodTool._tolerance t' = v /\
         heap w' !! l = Some (flood_edit k seed v (flood_edit k seed v p)) /\
         events w' = events w ++ flood_event k l seed v :: obs ++ obs
                              ++ flood_event k l seed v :: obs
    else t' = t /\
         heap w' !! l = Some (flood_edit k seed (FloodTool._tolerance t) p) /\
         events w' = events w ++ flood_event k l seed (FloodTool._tolerance t) :: obs.
Proof.
  intros Hp Hl Hseed k obs v.
  unfold FloodTool.on_adjust. step_method. fold v.
  assert (Hrun : exists t' w',
    FloodTool.tolerance_set v (t, w) = Ok (tt, (t', w')) /\
    manager w' = manager w /\
    FloodTool.base t' = FloodTool.base t /\ FloodTool.kind t' = k /\
    FloodTool._prev_position t' = Some seed /\
    if FloodTool.accepts k v
    then FloodTool._tolerance t' = v /\
         heap w' !! l = Some (flood_edit k seed v p) /\
         events w' = events w ++ flood_event k l seed v :: obs ++ obs
    else t' = t /\ w' = w).
  { unfold FloodTool.tolerance_set. step_method. fold k.
    destruct (FloodTool.accepts k v); [|by exists t, w].
    simpl. rewrite Hseed.
    destruct (bool_decide (is_Some (FloodTool._flood_slider t))); cbn.
    - erewrite flood_edit_region_run by (try exact Hp; exact Hl). cbn.
      rewrite notify_observers_run.
      eexists _, _. split; [reflexivity|]. cbn. split_and!; try reflexivity; auto.
      + apply lookup_insert_eq.
      + by rewrite <- app_assoc.
    - erewrite flood_edit_region_run by (try exact Hp; exact Hl). cbn.
      rewrite notify_observers_run.
      eexists _, _. split; [reflexivity|]. cbn. split_and!; try reflexivity; auto.
      + apply lookup_insert_eq.
      + by rewrite <- app_assoc. }
  destruct Hrun as (t1 & w1 & Hrun & Hm & Hbase & Hk & Hseed1 & Hcase).
  assert (Hrun' :
    (if d >? 0
     then FloodTool.tolerance_set (FloodTool._tolerance t + FloodTool._increment t)%float
     else FloodTool.tolerance_set (FloodTool._tolerance t - FloodTool._increment t)%float)
      (t, w) = Ok (tt, (t1, w1))).
  { subst v. destruct (d >? 0); exact Hrun. }
  rewrite Hrun'. cbn. rewrite Hseed1.
  destruct (FloodTool.accepts k v).
  - destruct Hcase as (Htol & Hheap & Hev).
    erewrite flood_edit_region_run; [| by rewrite Hbase | exact Hheap].
    eexists _, _. split; [reflexivity|]. cbn. rewrite Hk, Htol, Hbase, Hev.
    split_and!; auto.
    + apply lookup_insert_eq.
    + fold obs. rewrite <- app_assoc. simpl. by rewrite <- app_assoc.
  - destruct Hcase as (-> & ->).
    erewrite flood_edit_region_run; [| exact Hp | exact Hl].
    eexists _, _. split; [reflexivity|]. cbn. split_and!; auto.
    apply lookup_insert_eq.
Qed.

Lemma flood_on_adjust_refills_witness :
  exists t' w',
    FloodTool.on_adjust (H := Demo.math) 1 (Demo.fl FloodAdd, Demo.world)
      = Ok (tt, (t', w')) /\
    manager w' = manager Demo.world /\
    FloodTool._tolerance t' = (0.05 + 0.01)%float /\
    heap w' !! 1%positive
      = Some (flood_edit (H := Demo.math) FloodAdd (0, 1) (0.05 + 0.01)%float
                (flood_edit (H := Demo.math) FloodAdd (0, 1) (0.05 + 0.01)%float Demo.patch0)) /\
    events w'
      = [EFloodAdd 1%positive (0, 1) (0.05 + 0.01)%float; EObserver 0; EObserver 0;
         EFloodAdd 1%positive (0, 1) (0.05 + 0.01)%float; EObserver 0].
Proof.
  refine (flood_on_adjust_refills (H := Demo.math) (Demo.fl FloodAdd) Demo.world
            1%positive Demo.patch0 (0, 1) 1 _ _ _).
  all: reflexivity.
Defined.

(** ** The steps of a drag *)



(** ** Tools that are not bound to a patch *)



(** ** The slider after a new patch *)

(** X10: after the threshold tool is bound to a patch with a new index, the
    first two slider callbacks never reach the patch.  The first is ignored
    (it only marks the slider as initialised, and the tool keeps the
    patch's threshold); the second, if in range, sets the tool's threshold
    and notifies the observers, with the heap and the undo manager
    unchanged; only the third in-range callback assigns the threshold of
    the patch. *)
Theorem slider_after_new_patch `{RegionMath} (t : ThresholdTool.t) (w : World)
    (new : loc) (p : Patch.t) (v1 v2 v3 : float) :
  heap w !! new = Some p ->
  (ThresholdTool.patch t = None \/
   exists old q, ThresholdTool.patch t = Some old /\ heap w !! old = Some q /\
                 Patch.patch_index p <> Patch.patch_index q) ->
  ThresholdTool.in_range v2 = true -> ThresholdTool.in_range v3 = true ->
  exists t0 t1 t2 t3 w2 w3,
    ThresholdTool.patch_set new (t, w) = Ok (tt, (t0, w)) /\
    ThresholdTool._on_threshold_slider v1 (t0, w) = Ok (tt, (t1, w)) /\
    ThresholdTool._threshold t1 = Patch.threshold p /\
    ThresholdTool._on_threshold_slider v2 (t1, w) = Ok (tt, (t2, w2)) /\
    ThresholdTool._threshold t2 = v2 /\
    heap w2 = heap w /\ manager w2 = manager w /\
    ThresholdTool._on_threshold_slider v3 (t2, w2) = Ok (tt, (t3, w3)) /\
    ThresholdTool._threshold t3 = v3 /\
    heap w3 !! new = Some (thresholded v3 p).
Proof.
  intros Hnew Hold Hv2 Hv3.
  pose proof (threshold_patch_set_run t w new p Hnew Hold) as R0.
  set (t0 := ThresholdTool.with_threshold _ _) in R0.
  set (t1 := ThresholdTool.with_slider_init true t0).
  assert (R1 : ThresholdTool._on_threshold_slider v1 (t0, w) = Ok (tt, (t1, w)))
    by reflexivity.
  pose proof (threshold_set_new_patch t1 w v2 Hv2 eq_refl) as R2.
  set (t2' := threshold_assigned v2 t1) in R2.
  set (w2 := logged _ w) in R2.
  set (t2 := ThresholdTool.with_slider_init true t2').
  assert (R2' : ThresholdTool._on_threshold_slider v2 (t1, w) = Ok (tt, (t2, w2))).
  { unfold ThresholdTool._on_threshold_slider. step_method.
    change (ThresholdTool._slider_init t1) with true. cbn. by rewrite R2. }
  assert (Hnew2 : heap w2 !! new = Some p) by exact Hnew.
  assert (Hp2 : ThresholdTool.patch t2 = Some new).
  { unfold t2, t2', threshold_assigned. by destruct (bool_decide _ && _). }
  assert (Hn2 : ThresholdTool._new_patch t2 = false).
  { unfold t2, t2', threshold_assigned. by destruct (bool_decide _ && _). }
  assert (Hi2 : ThresholdTool._slider_init t2 = true) by reflexivity.
  pose proof (threshold_set_bound t2 w2 v3 new p Hv3 Hn2 Hp2 Hnew2) as R3.
  assert (R3' : exists t3 w3,
    ThresholdTool._on_threshold_slider v3 (t2, w2) = Ok (tt, (t3, w3)) /\
    ThresholdTool._threshold t3 = v3 /\ heap w3 !! new = Some (thresholded v3 p)).
  { unfold ThresholdTool._on_threshold_slider. step_method. rewrite ?Hi2. cbn.
    rewrite R3. cbn. eexists _, _. split; [reflexivity|]. split.
    - exact (threshold_assigned_threshold v3 t2).
    - destruct (FGTTool._can_undo _); simpl.
      + rewrite lookup_insert_ne by (symmetry; eapply (fresh_loc_ne w2), Hnew2).
        apply lookup_insert_eq.
      + apply lookup_insert_eq. }
  destruct R3' as (t3 & w3 & R3' & Ht3 & Hh3).
  exists t0, t1, t2, t3, w2, w3. split_and!; auto.
  exact (threshold_assigned_threshold v2 t1).
Qed.

Lemma slider_after_new_patch_witness :
  exists t0 t1 t2 t3 w2 w3,
    ThresholdTool.patch_set 2%positive (Demo.thr, Demo.world) = Ok (tt, (t0, Demo.world)) /\
    ThresholdTool._on_threshold_slider (H := Demo.math) 0.5%float (t0, Demo.world)
      = Ok (tt, (t1, Demo.world)) /\
    ThresholdTool._threshold t1 = Patch.threshold Demo.patch1 /\
    ThresholdTool._on_threshold_slider (H := Demo.math) 0.75%float (t1, Demo.world)
      = Ok (tt, (t2, w2)) /\
    ThresholdTool._threshold t2 = 0.75%float /\
    heap w2 = heap Demo.world /\ manager w2 = manager Demo.world /\
    ThresholdTool._on_threshold_slider (H := Demo.math) 1%float (t2, w2)
      = Ok (tt, (t3, w3)) /\
    ThresholdTool._threshold t3 = 1%float /\
    heap w3 !! 2%positive = Some (thresholded (H := Demo.math) 1%float Demo.patch1).
Proof.
  refine (slider_after_new_patch (H := Demo.math) Demo.thr Demo.world 2%positive
            Demo.patch1 0.5%float 0.75%float 1%float _ _ _ _).
  - vm_compute; reflexivity.
  - right. exists 1%positive, Demo.patch0. split_and!.
    + reflexivity.
    + vm_compute; reflexivity.
    + simpl; lia.
  - reflexivity.
  - reflexivity.
Defined.

(** ** Navigation back and forth, and outside the list *)

#[local] Arguments py_getitem : simpl never.

Lemma py_getitem_negative {A} (ps : list A) (j : Z) :
  - Z.of_nat (length ps) <= j < 0 ->
  exists x, ps !! Z.to_nat (j + Z.of_nat (length ps)) = Some x /\ py_getitem ps j = Ok x.
Proof.
  intros Hj. unfold py_getitem.
  destruct (Z.ltb_spec j 0) as [_|]; [|lia].
  destruct (Z.leb_spec 0 (j + Z.of_nat (length ps))) as [_|]; [|lia].
  destruct (Z.ltb_spec (j + Z.of_nat (length ps)) (Z.of_nat (length ps))) as [_|]; [|lia].
  simpl.
  destruct (ps !! Z.to_nat (j + Z.of_nat (length ps))) as [x|] eqn:Hx; [eauto|].
  apply lookup_ge_None in Hx. lia.
Qed.

Lemma py_getitem_outside {A} (ps : list A) (j : Z) :
  j < - Z.of_nat (length ps) \/ Z.of_nat (length ps) <= j ->
  py_getitem ps j = Raise IndexError.
Proof.
  intros Hj. unfold py_getitem.
  destruct (Z.ltb_spec j 0).
  - destruct (Z.leb_spec 0 (j + Z.of_nat (length ps))); [lia | reflexivity].
  - destruct (Z.leb_spec 0 j); [|reflexivity].
    destruct (Z.ltb_spec j (Z.of_nat (length ps))); [lia | reflexivity].
Qed.

(** X11: next and previous undo each other inside the list.  For an index
    [i] with [0 <= i] and [i + 1 < len(ps)], [_next_patch(i)] returns patch
    [i + 1] with index [i + 1], and [_prev_patch] of that index returns
    patch [i] with index [i]. *)
Theorem next_then_previous (t : FGTTool.t) (w : World) (ps : list loc) (i : Z) :
  FGTTool._image t = Some ps -> 0 <= i -> i + 1 < Z.of_nat (length ps) ->
  exists p q,
    ps !! Z.to_nat i = Some p /\ ps !! Z.to_nat (i + 1) = Some q /\
    NextPatchTool._next_patch i (t, w) = Ok ((Some q, i + 1), (t, w)) /\
    PreviousPatchTool._prev_patch (i + 1) (t, w) = Ok ((Some p, i), (t, w)).
Proof.
  intros Him H0 Hlt.
  destruct (lookup_lt_is_Some_2 ps (Z.to_nat i)) as [p Hp]; [lia|].
  destruct (lookup_lt_is_Some_2 ps (Z.to_nat (i + 1))) as [q Hq]; [lia|].
  exists p, q. split_and!; auto.
  - rewrite (next_patch_run t w ps i Him) by lia.
    destruct (Z.ltb_spec (i + 1) (Z.of_nat (length ps))); [|lia]. by rewrite Hq.
  - rewrite (prev_patch_run t w ps (i + 1) Him) by lia.
    destruct (Z.geb_spec (i + 1 - 1) 0); [|lia].
    replace (i + 1 - 1) with i by lia. by rewrite Hp.
Qed.

Lemma next_then_previous_witness :
  exists p q,
    [1%positive; 2%positive] !! Z.to_nat 0 = Some p /\
    [1%positive; 2%positive] !! Z.to_nat (0 + 1) = Some q /\
    NextPatchTool._next_patch 0 (Demo.tool_base 8, Demo.world)
      = Ok ((Some q, 0 + 1), (Demo.tool_base 8, Demo.world)) /\
    PreviousPatchTool._prev_patch (0 + 1) (Demo.tool_base 8, Demo.world)
      = Ok ((Some p, 0), (Demo.tool_base 8, Demo.world)).
Proof.
  refine (next_then_previous (Demo.tool_base 8) Demo.world [1%positive; 2%positive] 0 _ _ _).
  - reflexivity.
  - lia.
  - simpl; lia.
Defined.

(** X12: navigation from an index outside the list.  [_next_patch(-1)]
    (the "no patch" index) returns the first patch with index 0;
    [_next_patch(i)] with [-len(ps) <= i + 1 < 0] returns a patch counted
    from the end of the list, with the negative index [i + 1], and with
    [i + 1 < -len(ps)] raises [IndexError]; [_prev_patch(i)] returns
    [(None, -1)] for every [i <= 0] and raises [IndexError] when
    [i - 1 >= len(ps)]. *)
Theorem navigation_outside_the_list (t : FGTTool.t) (w : World) (ps : list loc) :
  FGTTool._image t = Some ps ->
  (forall p, ps !! 0%nat = Some p ->
     NextPatchTool._next_patch (-1) (t, w) = Ok ((Some p, 0), (t, w))) /\
  (forall i, - Z.of_nat (length ps) <= i + 1 < 0 ->
     exists p, ps !! Z.to_nat (i + 1 + Z.of_nat (length ps)) = Some p /\
               NextPatchTool._next_patch i (t, w) = Ok ((Some p, i + 1), (t, w))) /\
  (forall i, i + 1 < - Z.of_nat (length ps) ->
     NextPatchTool._next_patch i (t, w) = Raise IndexError) /\
  (forall i, i <= 0 ->
     PreviousPatchTool._prev_patch i (t, w) = Ok ((None, -1), (t, w))) /\
  (forall i, Z.of_nat (length ps) <= i - 1 ->
     PreviousPatchTool._prev_patch i (t, w) = Raise IndexError).
Proof.
  intros Him. split_and!.
  - intros p Hp. unfold NextPatchTool._next_patch. step_method. rewrite Him. simpl.
    assert (0 < length ps)%nat by (apply lookup_lt_is_Some; eauto).
    change (-1 + 1) with 0.
    destruct (Z.ltb_spec 0 (Z.of_nat (length ps))); [|lia].
    destruct (py_getitem_in_range ps 0) as (x & Hx & ->); [lia|].
    change (Z.to_nat 0) with 0%nat in Hx. rewrite Hp in Hx. by injection Hx as ->.
  - intros i Hi. unfold NextPatchTool._next_patch. step_method. rewrite Him. simpl.
    destruct (Z.ltb_spec (i + 1) (Z.of_nat (length ps))); [|lia].
    destruct (py_getitem_negative ps (i + 1) Hi) as (x & Hx & ->). eauto.
  - intros i Hi. unfold NextPatchTool._next_patch. step_method. rewrite Him. simpl.
    destruct (Z.ltb_spec (i + 1) (Z.of_nat (length ps))); [|lia].
    by rewrite py_getitem_outside by lia.
  - intros i Hi. unfold PreviousPatchTool._prev_patch. step_method. rewrite Him. simpl.
    destruct (Z.geb_spec (i - 1) 0); [lia | reflexivity].
  - intros i Hi. unfold PreviousPatchTool._prev_patch. step_method. rewrite Him. simpl.
    destruct (Z.geb_spec (i - 1) 0); [|lia].
    by rewrite py_getitem_outside by lia.
Qed.

Lemma navigation_outside_the_list_witness :
  NextPatchTool._next_patch (-1) (Demo.tool_base 8, Demo.world)
    = Ok ((Some 1%positive, 0), (Demo.tool_base 8, Demo.world)) /\
  NextPatchTool._next_patch (-2) (Demo.tool_base 8, Demo.world)
    = Ok ((Some 2%positive, -1), (Demo.tool_base 8, Demo.world)) /\
  NextPatchTool._next_patch (-4) (Demo.tool_base 8, Demo.world) = Raise IndexError /\
  PreviousPatchTool._prev_patch (-7) (Demo.tool_base 8, Demo.world)
    = Ok ((None, -1), (Demo.tool_base 8, Demo.world)) /\
  PreviousPatchTool._prev_patch 3 (Demo.tool_base 8, Demo.world) = Raise IndexError.
Proof.
  destruct (navigation_outside_the_list (Demo.tool_base 8) Demo.world
              [1%positive; 2%positive] eq_refl) as (H1 & H2 & H3 & H4 & H5).
  split_and!.
  - apply H1. reflexivity.
  - destruct (H2 (-2)) as (p & Hp & Hrun); [simpl; lia|].
    simpl in Hp. injection Hp as <-. exact Hrun.
  - apply H3. simpl; lia.
  - apply H4. lia.
  - apply H5. simpl; lia.
Defined.

(** * Properties of the event logger *)

Lemma dict_get_set {K V} `{EqDecision K} (k : K) (v : V) (d : list (K * V)) :
  dict_get k (dict_set k v d) = Some v.
Proof.
  induction d as [|[k' v'] d IH]; simpl.
  - by rewrite decide_True.
  - destruct (decide (k' = k)) as [->|Hne]; simpl.
    + by rewrite decide_True.
    + by rewrite decide_False.
Qed.

Lemma dict_get_set_ne {K V} `{EqDecision K} (k k' : K) (v : V) (d : list (K * V)) :
  k <> k' -> dict_get k (dict_set k' v d) = dict_get k d.
Proof.
  intros Hne. induction d as [|[k0 v0] d IH]; simpl.
  - by rewrite decide_False.
  - destruct (decide (k0 = k')) as [->|Hne']; simpl.
    + by rewrite !decide_False.
    + by rewrite IH.
Qed.

Lemma dict_keys_set {K V} `{EqDecision K} (k : K) (v : V) (d : list (K * V)) :
  dict_keys (dict_set k v d)
  = if decide (k ∈ dict_keys d) then dict_keys d else dict_keys d ++ [k].
Proof.
  unfold dict_keys. induction d as [|[k' v'] d IH].
  - simpl. destruct (decide (k ∈ [])) as [Hin|_]; [by apply elem_of_nil in Hin | done].
  - cbn [dict_set]. destruct (decide (k' = k)) as [->|Hne]; cbn [map fst].
    + destruct (decide (k ∈ k :: map fst d)) as [_|Hnin]; [done|].
      exfalso; apply Hnin; left.
    + rewrite IH. destruct (decide (k ∈ map fst d)) as [Hin|Hnin].
      * destruct (decide (k ∈ k' :: map fst d)) as [_|Hnin']; [done|].
        exfalso; apply Hnin'; by right.
      * destruct (decide (k ∈ k' :: map fst d)) as [Hin'|_]; [|done].
        apply elem_of_cons in Hin' as [?|?]; by simplify_eq.
Qed.

Lemma dict_keys_elem {K V} (k : K) (v : V) (d : list (K * V)) :
  (k, v) ∈ d -> k ∈ dict_keys d.
Proof.
  unfold dict_keys. induction d as [|[k' v'] d IH]; simpl.
  - by intros ?%elem_of_nil.
  - intros [?|?]%elem_of_cons; [simplify_eq; left | right; auto].
Qed.

Lemma dict_get_Some_elem {K V} `{EqDecision K} (k : K) (v : V) (d : list (K * V)) :
  NoDup (dict_keys d) -> (k, v) ∈ d -> dict_get k d = Some v.
Proof.
  unfold dict_keys. induction d as [|[k' v'] d IH]; simpl.
  - by intros _ ?%elem_of_nil.
  - intros [Hnin Hnd]%NoDup_cons [Heq|Hin]%elem_of_cons.
    + simplify_eq. by rewrite decide_True.
    + rewrite decide_False; [by apply IH|].
      intros ->. apply Hnin. by apply (dict_keys_elem k v).
Qed.

Lemma dict_get_None {K V} `{EqDecision K} (k : K) (d : list (K * V)) :
  k ∉ dict_keys d -> dict_get k d = None.
Proof.
  unfold dict_keys. induction d as [|[k' v'] d IH]; simpl; [done|].
  intros Hnin. rewrite decide_False.
  - apply IH. intros ?. apply Hnin. by right.
  - intros ->. apply Hnin. left.
Qed.







Lemma kwargs_get_notin {K V} `{EqDecision K} (k : K) (kw d : list (K * V)) :
  k ∉ dict_keys kw ->
  dict_get k (fold_left (fun d kv => dict_set kv.1 kv.2 d) kw d) = dict_get k d.
Proof.
  revert d. induction kw as [|[k' v'] kw IH]; intros d Hnin; simpl; [done|].
  rewrite IH.
  - apply dict_get_set_ne. intros ->. apply Hnin. left.
  - intros ?. apply Hnin. by right.
Qed.

Lemma kwargs_get_in {K V} `{EqDecision K} (k : K) (v : V) (kw d : list (K * V)) :
  NoDup (dict_keys kw) -> (k, v) ∈ kw ->
  dict_get k (fold_left (fun d kv => dict_set kv.1 kv.2 d) kw d) = Some v.
Proof.
  revert d. induction kw as [|[k' v'] kw IH]; intros d; simpl.
  - by intros _ ?%elem_of_nil.
  - intros [Hnin Hnd]%NoDup_cons [Heq|Hin]%elem_of_cons.
    + simplify_eq. rewrite kwargs_get_notin by exact Hnin. apply dict_get_set.
    + by apply IH.
Qed.

Lemma filter_agree {A} (P Q : A -> Prop) `{!forall x, Decision (P x)}
    `{!forall x, Decision (Q x)} (l : list A) :
  (forall x, x ∈ l -> P x <-> Q x) -> filter P l = filter Q l.
Proof.
  induction l as [|x l IH]; intros Hl; [done|].
  rewrite !filter_cons.
  rewrite IH by (intros y Hy; apply Hl; by right).
  destruct (decide (P x)) as [HP|HP], (decide (Q x)) as [HQ|HQ]; try done.
  - exfalso. apply HQ, Hl; [left | done].
  - exfalso. apply HP, Hl; [left | done].
Qed.

Lemma kwargs_keys {K V} `{EqDecision K} (kw d : list (K * V)) :
  NoDup (dict_keys kw) ->
  dict_keys (fold_left (fun d kv => dict_set kv.1 kv.2 d) kw d)
  = dict_keys d ++ filter (fun k => k ∉ dict_keys d) (dict_keys kw).
Proof.
  revert d. induction kw as [|[k v] kw IH]; intros d.
  - intros _. simpl. by rewrite app_nil_r.
  - intros [Hnin Hnd]%NoDup_cons. cbn [fold_left fst snd].
    rewrite IH by exact Hnd. rewrite dict_keys_set.
    change (dict_keys ((k, v) :: kw)) with (k :: dict_keys kw).
    rewrite filter_cons.
    destruct (decide (k ∈ dict_keys d)) as [Hin|Hout].
    + rewrite decide_False by (intros Hc; by apply Hc). done.
    + rewrite decide_True by exact Hout.
      rewrite <- app_assoc. simpl. do 2 f_equal.
      apply filter_agree. intros x Hx. rewrite not_elem_of_app.
      split; [by intros [? _] | intros Hxd; split; [exact Hxd|]].
      intros ->%list_elem_of_singleton. by apply Hnin.
Qed.

(** X14: the tool name of an event is logged in two forms.  A call of
    [log_event] that names a tool other than ["?"] records the name as it
    was given and stores its normalised form; a later call that names no
    tool (or ["?"]) records the stored, normalised form and leaves it in
    place.  Both calls hand exactly one event to the logger.  The extra
    fields cannot be called [active_tool_id], which is a parameter. *)
Theorem logged_tool_name_has_two_forms (st1 ty1 : string) (c1 : EventLogger.value)
    (tool : string) (kw1 : list (string * EventLogger.value))
    (st2 ty2 : string) (c2 : EventLogger.value) (id2 : option string)
    (kw2 : list (string * EventLogger.value)) (s : EventLogger.t) :
  tool <> "?"%string ->
  id2 = None \/ id2 = Some "?"%string ->
  "active_tool_id"%string ∉ dict_keys kw1 ->
  "active_tool_id"%string ∉ dict_keys kw2 ->
  let s1 := EventLogger.log_event st1 ty1 c1 (Some tool) kw1 s in
  let s2 := EventLogger.log_event st2 ty2 c2 id2 kw2 s1 in
  exists d1 d2,
    EventLogger.emitted s1 = EventLogger.emitted s ++ [d1] /\
    EventLogger.emitted s2 = EventLogger.emitted s ++ [d1; d2] /\
    dict_get "active_tool_id"%string d1 = Some (EventLogger.VStr tool) /\
    dict_get "active_tool_id"%string d2
      = Some (EventLogger.VStr (str_replace_char " " "_" (str_lower tool))) /\
    EventLogger._active_tool s2 = str_replace_char " " "_" (str_lower tool).
Proof.
  intros Htool Hid2 Hkw1 Hkw2 s1 s2.
  assert (Hd1 : exists d1,
             s1 = EventLogger.info d1 (EventLogger.active_tool_set tool s) /\
             dict_get "active_tool_id"%string d1 = Some (EventLogger.VStr tool)).
  { unfold s1, EventLogger.log_event. rewrite decide_False by exact Htool.
    eexists; split; [reflexivity|].
    by rewrite kwargs_get_notin by exact Hkw1. }
  destruct Hd1 as (d1 & Hs1 & Hget1).
  assert (Hd2 : exists d2,
             EventLogger.log_event st2 ty2 c2 id2 kw2 s1
             = EventLogger.info d2 s1 /\
             dict_get "active_tool_id"%string d2
             = Some (EventLogger.VStr (EventLogger._active_tool s1))).
  { destruct Hid2 as [-> | ->]; unfold EventLogger.log_event;
      rewrite ?decide_True by reflexivity;
      (eexists; split; [reflexivity|]);
      by rewrite kwargs_get_notin by exact Hkw2. }
  destruct Hd2 as (d2 & Hs2 & Hget2).
  exists d1, d2. unfold s2. rewrite Hs2, Hs1. rewrite Hs1 in Hget2.
  split_and!.
  - reflexivity.
  - simpl. by rewrite <- app_assoc.
  - exact Hget1.
  - exact Hget2.
  - reflexivity.
Qed.

Lemma logged_tool_name_has_two_forms_witness :
  exists d1 d2,
    EventLogger.emitted
      (EventLogger.log_event "t1" "click" (EventLogger.VCoord (0, 1))
                             (Some "Threshold Tool"%string) [] EventLogger.init)
    = [] ++ [d1] /\
    EventLogger.emitted
      (EventLogger.log_event "t2" "zoom" EventLogger.VNone None
         [("zoom_factor"%string, EventLogger.VInt 2)]
         (EventLogger.log_event "t1" "click" (EventLogger.VCoord (0, 1))
                                (Some "Threshold Tool"%string) [] EventLogger.init))
    = [] ++ [d1; d2] /\
    dict_get "active_tool_id"%string d1 = Some (EventLogger.VStr "Threshold Tool") /\
    dict_get "active_tool_id"%string d2 = Some (EventLogger.VStr "threshold_tool") /\
    EventLogger._active_tool
      (EventLogger.log_event "t2" "zoom" EventLogger.VNone None
         [("zoom_factor"%string, EventLogger.VInt 2)]
         (EventLogger.log_event "t1" "click" (EventLogger.VCoord (0, 1))
                                (Some "Threshold Tool"%string) [] EventLogger.init))
    = "threshold_tool"%string.
Proof.
  refine (logged_tool_name_has_two_forms "t1" "click" (EventLogger.VCoord (0, 1))
            "Threshold Tool" [] "t2" "zoom" EventLogger.VNone None
            [("zoom_factor"%string, EventLogger.VInt 2)] EventLogger.init _ _ _ _).
  - discriminate.
  - by left.
  - apply not_elem_of_nil.
  - intros [Heq|Hin%elem_of_nil]%elem_of_cons; [discriminate Heq | exact Hin].
Defined.

(** X15: the fields of a logged event.  The event dict starts with
    [event_type_id], [timestamp], [patch_grid_coordinate] and
    [active_tool_id], in that order, followed by the extra fields that have
    none of these names, in the order they were passed; every extra field
    is stored with its value, also when it is called [timestamp] or
    [patch_grid_coordinate], whose computed value it then replaces; a name
    that is not among the extra fields keeps the value of the four base
    fields, if it is one of them. *)
Theorem log_event_fields (st ty : string) (c : EventLogger.value)
    (id : option string) (kw : list (string * EventLogger.value))
    (s : EventLogger.t) :
  NoDup (dict_keys kw) ->
  exists d recorded,
    EventLogger.emitted (EventLogger.log_event st ty c id kw s)
      = EventLogger.emitted s ++ [d] /\
    let base := [("event_type_id"%string, EventLogger.VStr ty);
                 ("timestamp"%string, EventLogger.VStr st);
                 ("patch_grid_coordinate"%string, c);
                 ("active_tool_id"%string, EventLogger.VStr recorded)] in
    dict_keys d
      = dict_keys base ++ filter (fun k => k ∉ dict_keys base) (dict_keys kw) /\
    (forall k v, (k, v) ∈ kw -> dict_get k d = Some v) /\
    (forall k, k ∉ dict_keys kw -> dict_get k d = dict_get k base).
Proof.
  intros Hnd.
  assert (Hrun : exists recorded s1,
             EventLogger.emitted s1 = EventLogger.emitted s /\
             EventLogger.log_event st ty c id kw s
             = EventLogger.info
                 (fold_left (fun d kv => dict_set kv.1 kv.2 d) kw
                    [("event_type_id"%string, EventLogger.VStr ty);
                     ("timestamp"%string, EventLogger.VStr st);
                     ("patch_grid_coordinate"%string, c);
                     ("active_tool_id"%string, EventLogger.VStr recorded)]) s1).
  { unfold EventLogger.log_event. destruct id as [i|]; [case_decide|];
      eexists _, _; (split; [|reflexivity]); reflexivity. }
  destruct Hrun as (recorded & s1 & Hem & ->).
  eexists _, recorded. split; [simpl; by rewrite Hem|].
  cbv zeta. split_and!.
  - by apply kwargs_keys.
  - intros k v Hin. by apply kwargs_get_in.
  - intros k Hk. by apply kwargs_get_notin.
Qed.

Lemma log_event_fields_witness :
  exists d recorded,
    EventLogger.emitted
      (EventLogger.log_event "12:00" "zoom" EventLogger.VNone None
         [("timestamp"%string, EventLogger.VStr "never");
          ("zoom_factor"%string, EventLogger.VInt 2)] EventLogger.init)
      = [] ++ [d] /\
    let base := [("event_type_id"%string, EventLogger.VStr "zoom");
                 ("timestamp"%string, EventLogger.VStr "12:00");
                 ("patch_grid_coordinate"%string, EventLogger.VNone);
                 ("active_tool_id"%string, EventLogger.VStr recorded)] in
    dict_keys d
      = dict_keys base
        ++ filter (fun k => k ∉ dict_keys base)
                  (dict_keys [("timestamp"%string, EventLogger.VStr "never");
                              ("zoom_factor"%string, EventLogger.VInt 2)]) /\
    (forall k v,
       (k, v) ∈ [("timestamp"%string, EventLogger.VStr "never");
                 ("zoom_factor"%string, EventLogger.VInt 2)] ->
       dict_get k d = Some v) /\
    (forall k,
       k ∉ dict_keys [("timestamp"%string, EventLogger.VStr "never");
                      ("zoom_factor"%string, EventLogger.VInt 2)] ->
       dict_get k d = dict_get k base).
Proof.
  refine (log_event_fields "12:00" "zoom" EventLogger.VNone None
            [("timestamp"%string, EventLogger.VStr "never");
             ("zoom_factor"%string, EventLogger.VInt 2)] EventLogger.init _).
  apply (bool_decide_unpack _). vm_compute. reflexivity.
Defined.

(** * Properties of the main window *)

Lemma dict_set_fresh {K V} `{EqDecision K} (k : K) (v : V) (d : list (K * V)) :
  k ∉ dict_keys d -> dict_set k v d = d ++ [(k, v)].
Proof.
  unfold dict_keys. induction d as [|[k' v'] d IH]; simpl; [done|].
  intros Hnin. rewrite decide_False.
  - rewrite IH; [done|]. intros ?. apply Hnin. by right.
  - intros ->. apply Hnin. left.
Qed.

Lemma dict_set_middle {K V} `{EqDecision K} (k : K) (v v' : V) (d1 d2 : list (K * V)) :
  k ∉ dict_keys d1 -> dict_set k v (d1 ++ (k, v') :: d2) = d1 ++ (k, v) :: d2.
Proof.
  unfold dict_keys. induction d1 as [|[k0 v0] d1 IH]; simpl.
  - intros _. by rewrite decide_True.
  - intros Hnin. rewrite decide_False.
    + rewrite IH; [done|]. intros ?. apply Hnin. by right.
    + intros ->. apply Hnin. left.
Qed.

(** The last assignment to a key is the one a dict keeps. *)
Lemma fold_set_last {A K V} `{EqDecision K} (f : A -> K) (g : A -> V) (k : K)
    (l : list A) (d : list (K * V)) :
  dict_get k (fold_left (fun r a => dict_set (f a) (g a) r) l d)
  = match last (filter (fun a => f a = k) l) with
    | Some a => Some (g a)
    | None => dict_get k d
    end.
Proof.
  induction l as [|a l IH] using rev_ind; [done|].
  rewrite fold_left_app, filter_app. simpl.
  rewrite filter_cons, filter_nil.
  destruct (decide (f a = k)) as [<-|Hne].
  - by rewrite last_snoc, dict_get_set.
  - rewrite app_nil_r, dict_get_set_ne by done. exact IH.
Qed.

(** The first loop of [_register_key_mappings]. *)
Lemma register_keys_loop (ps : list (Z * Window.Tool)) (s : Window.t) :
  (forall i t, (i, t) ∈ ps -> dict_get i (Window.image_tools s) = Some t) ->
  Window.for_each_w (dict_keys ps) (fun tool_id =>
    s ← Window.read;
    tool ← Window.getitem tool_id (Window.image_tools s);
    Window.update (Window.with_key_mappings
                     (dict_set tool_id (Window.key_mapping tool)))) s
  = (Window.Done tt,
     Window.with_key_mappings
       (fun m => fold_left (fun m p => dict_set p.1 (Window.key_mapping p.2) m) ps m) s).
Proof.
  revert s. induction ps as [|[i t] ps IH]; intros s Hget.
  - by destruct s.
  - cbn [dict_keys map fst Window.for_each_w].
    unfold mbind at 1, Window.W_bind at 1.
    unfold mbind at 1, Window.W_bind at 1. cbn [Window.read].
    unfold Window.getitem. rewrite (Hget i t) by left.
    unfold mbind at 1, Window.W_bind at 1. cbn [mret Window.W_ret Window.update].
    rewrite IH; [reflexivity|].
    intros i' t' Hin. cbn. apply Hget. by right.
Qed.

(** The second loop of [_register_key_mappings]. *)
Lemma register_reverse_loop (km : list (Z * string)) (s : Window.t) :
  (forall i k, (i, k) ∈ km -> dict_get i (Window._key_mappings s) = Some k) ->
  Window.for_each_w (dict_keys km) (fun tool_id =>
    s ← Window.read;
    key ← Window.getitem tool_id (Window._key_mappings s);
    Window.update (Window.with_reverse_key_mappings (dict_set key tool_id))) s
  = (Window.Done tt,
     Window.with_reverse_key_mappings
       (fun r => fold_left (fun r p => dict_set p.2 p.1 r) km r) s).
Proof.
  revert s. induction km as [|[i k] km IH]; intros s Hget.
  - by destruct s.
  - cbn [dict_keys map fst Window.for_each_w].
    unfold mbind at 1, Window.W_bind at 1.
    unfold mbind at 1, Window.W_bind at 1. cbn [Window.read].
    unfold Window.getitem. rewrite (Hget i k) by left.
    unfold mbind at 1, Window.W_bind at 1. cbn [mret Window.W_ret Window.update].
    rewrite IH; [reflexivity|].
    intros i' k' Hin. cbn. apply Hget. by right.
Qed.

Lemma fold_set_fresh {A K V} `{EqDecision K} (f : A -> K) (g : A -> V)
    (l : list A) (d : list (K * V)) :
  NoDup (dict_keys d ++ map f l) ->
  fold_left (fun r a => dict_set (f a) (g a) r) l d
  = d ++ map (fun a => (f a, g a)) l.
Proof.
  revert d. induction l as [|a l IH]; intros d Hnd; simpl.
  - by rewrite app_nil_r.
  - simpl in Hnd. apply NoDup_app in Hnd as (Hd & Hdis & [Hnin Hl]%NoDup_cons).
    rewrite dict_set_fresh by (intros Hin; apply (Hdis _ Hin); left).
    rewrite IH.
    + by rewrite <- app_assoc.
    + unfold dict_keys. rewrite map_app. simpl. rewrite <- app_assoc. simpl.
      apply NoDup_app. split_and!; [exact Hd | | by apply NoDup_cons].
      exact Hdis.
Qed.

Lemma fold_left_over_map {A B C} (h : A -> B) (f : C -> B -> C) (l : list A) (c : C) :
  fold_left f (map h l) c = fold_left (fun c a => f c (h a)) l c.
Proof. revert c. induction l as [|a l IH]; intros c; simpl; [done | apply IH]. Qed.

(** [_register_key_mappings] on a window that has just been set up. *)
Lemma register_key_mappings_run (tools : list (Z * Window.Tool)) :
  NoDup (dict_keys tools) ->
  Window._register_key_mappings (Window.init tools)
  = (Window.Done tt,
     Window.mk tools 0
       (map (fun p => (p.1, Window.key_mapping p.2)) tools)
       (fold_left (fun r p => dict_set (Window.key_mapping p.2) p.1 r) tools [])
       [] []).
Proof.
  intros Hnd.
  pose proof (register_keys_loop tools (Window.init tools)
                (fun i t Hin => dict_get_Some_elem i t tools Hnd Hin)) as Hloop1.
  set (s1 := Window.with_key_mappings _ (Window.init tools)) in Hloop1.
  assert (Hkm : Window._key_mappings s1
                = map (fun p => (p.1, Window.key_mapping p.2)) tools).
  { unfold s1. cbn.
    exact (fold_set_fresh fst (fun p => Window.key_mapping p.2) tools [] Hnd). }
  assert (Hnd' : NoDup (dict_keys (Window._key_mappings s1))).
  { rewrite Hkm. unfold dict_keys. rewrite map_map. exact Hnd. }
  pose proof (register_reverse_loop (Window._key_mappings s1) s1
                (fun i k Hin => dict_get_Some_elem i k _ Hnd' Hin)) as Hloop2.
  unfold Window._register_key_mappings.
  unfold mbind at 1, Window.W_bind at 1. cbn [Window.read].
  unfold mbind at 1, Window.W_bind at 1. cbn [Window.init Window.image_tools].
  fold (Window.init tools). rewrite Hloop1.
  unfold mbind at 1, Window.W_bind at 1. cbn [Window.read].
  rewrite Hloop2. f_equal.
  unfold Window.with_reverse_key_mappings. rewrite Hkm, fold_left_over_map.
  reflexivity.
Qed.

(** X16: registering the key mappings of a window that has just been
    set up.  Every tool of the controller gets its key under its
    identifier, in the order of the tools; the reverse mapping sends a key
    to the last tool, in that order, that has this key, and knows no other
    key; two tools with the same key thus leave only the later one
    reachable.  Nothing raises and nothing else changes. *)
Theorem key_mappings_registered (tools : list (Z * Window.Tool)) :
  NoDup (dict_keys tools) ->
  exists s',
    Window._register_key_mappings (Window.init tools) = (Window.Done tt, s') /\
    Window._key_mappings s' = map (fun p => (p.1, Window.key_mapping p.2)) tools /\
    (forall k, dict_get k (Window._reverse_key_mappings s')
               = fst <$> last (filter (fun p => Window.key_mapping p.2 = k) tools)) /\
    Window.image_tools s' = tools /\
    Window._toolbar_buttons s' = [] /\
    Window._previous_state s' = 0 /\
    Window.calls s' = [].
Proof.
  intros Hnd. rewrite (register_key_mappings_run tools Hnd).
  eexists. split; [reflexivity|]. split_and!; try reflexivity.
  intros k. cbn [Window._reverse_key_mappings].
  rewrite (fold_set_last (fun p => Window.key_mapping p.2) fst k tools []).
  by destruct (last _).
Qed.

Lemma key_mappings_registered_witness :
  exists s',
    Window._register_key_mappings (Window.init fgt_tools) = (Window.Done tt, s') /\
    Window._key_mappings s'
      = map (fun p => (p.1, Window.key_mapping p.2)) fgt_tools /\
    (forall k, dict_get k (Window._reverse_key_mappings s')
               = fst <$> last (filter (fun p => Window.key_mapping p.2 = k) fgt_tools)) /\
    Window.image_tools s' = fgt_tools /\
    Window._toolbar_buttons s' = [] /\
    Window._previous_state s' = 0 /\
    Window.calls s' = [].
Proof.
  refine (key_mappings_registered fgt_tools _).
  apply (bool_decide_unpack _). vm_compute. reflexivity.
Defined.

(** The loop of [_update_toolbar_state] for a persistent tool: the buttons
    already visited are [done], those still to visit [todo]. *)
Lemma toolbar_loop (tool_id : Z) (tool : Window.Tool)
    (done todo : list (Z * bool)) (s : Window.t) :
  dict_get tool_id (Window.image_tools s) = Some tool ->
  Window.persistant tool = true ->
  NoDup (dict_keys (done ++ todo)) ->
  Window._toolbar_buttons s = done ++ todo ->
  Window.for_each_w (dict_keys todo) (fun id =>
    s ← Window.read;
    chosen ← (if decide (id = tool_id)
              then tool ← Window.getitem id (Window.image_tools s);
                   mret (Window.persistant tool)
              else mret false);
    Window.update (Window.with_toolbar_buttons (dict_set id chosen))) s
  = (Window.Done tt,
     Window.with_toolbar_buttons
       (fun _ => done ++ map (fun p => (p.1, bool_decide (p.1 = tool_id))) todo) s).
Proof.
  intros Htool Hpers. revert done s Htool.
  induction todo as [|[i b] todo IH]; intros done s Htool Hnd Hbuttons.
  - simpl. rewrite app_nil_r in *. destruct s. simpl in *. by subst.
  - cbn [dict_keys map fst Window.for_each_w].
    unfold mbind at 1, Window.W_bind at 1.
    unfold mbind at 1, Window.W_bind at 1. cbn [Window.read].
    assert (Hchosen :
              (if decide (i = tool_id)
               then tool ← Window.getitem i (Window.image_tools s);
                    mret (Window.persistant tool)
               else mret false) s
              = (Window.Done (bool_decide (i = tool_id)), s)).
    { destruct (decide (i = tool_id)) as [->|Hne].
      - unfold Window.getitem. rewrite Htool.
        unfold mbind, Window.W_bind, mret, Window.W_ret.
        by rewrite Hpers, bool_decide_eq_true_2.
      - by rewrite bool_decide_eq_false_2. }
    unfold mbind at 1, Window.W_bind at 1. rewrite Hchosen.
    cbn [Window.update].
    assert (Hi : i ∉ dict_keys done).
    { unfold dict_keys in *. rewrite map_app in Hnd.
      apply NoDup_app in Hnd as (_ & Hdis & _).
      intros Hin. apply (Hdis _ Hin). left. }
    rewrite (IH (done ++ [(i, bool_decide (i = tool_id))])).
    + unfold Window.with_toolbar_buttons. cbn. by rewrite <- app_assoc.
    + exact Htool.
    + unfold dict_keys in *. rewrite <- app_assoc. simpl.
      rewrite !map_app in *. exact Hnd.
    + cbn. rewrite Hbuttons, <- app_assoc. simpl. by apply dict_set_middle.
Qed.

(** What [_update_toolbar_state] does, by the tool it is given. *)
Lemma update_toolbar_state_run (tool_id : Z) (s : Window.t) :
  NoDup (dict_keys (Window._toolbar_buttons s)) ->
  Window._update_toolbar_state tool_id s
  = match dict_get tool_id (Window.image_tools s) with
    | None => (Window.Raised Window.KeyError, s)
    | Some tool =>
        if Window.persistant tool
        then (Window.Done tt,
              Window.with_toolbar_buttons
                (map (fun p => (p.1, bool_decide (p.1 = tool_id)))) s)
        else (Window.Done tt, s)
    end.
Proof.
  intros Hnd. unfold Window._update_toolbar_state.
  unfold mbind at 1, Window.W_bind at 1. cbn [Window.read].
  unfold mbind at 1, Window.W_bind at 1. unfold Window.getitem at 1.
  destruct (dict_get tool_id (Window.image_tools s)) as [tool|] eqn:Htool;
    [|reflexivity].
  cbn [mret Window.W_ret].
  destruct (Window.persistant tool) eqn:Hpers; [|reflexivity].
  cbn [negb].
  by rewrite (toolbar_loop tool_id tool [] (Window._toolbar_buttons s) s).
Qed.

(** X17: the toolbar after a tool is chosen.  For a tool that is not among
    the controller's tools [_update_toolbar_state] raises [KeyError] and
    changes nothing; for a tool that is not persistent it changes nothing;
    for a persistent tool it leaves the button of that tool disabled and
    every other button enabled, whatever their states were, so that at most
    one button is disabled afterwards, and keeps the buttons and their
    order. *)
Theorem toolbar_marks_the_chosen_tool (tool_id : Z) (s : Window.t) :
  NoDup (dict_keys (Window._toolbar_buttons s)) ->
  (dict_get tool_id (Window.image_tools s) = None ->
     Window._update_toolbar_state tool_id s = (Window.Raised Window.KeyError, s)) /\
  (forall tool, dict_get tool_id (Window.image_tools s) = Some tool ->
     Window.persistant tool = false ->
     Window._update_toolbar_state tool_id s = (Window.Done tt, s)) /\
  (forall tool, dict_get tool_id (Window.image_tools s) = Some tool ->
     Window.persistant tool = true ->
     exists s',
       Window._update_toolbar_state tool_id s = (Window.Done tt, s') /\
       dict_keys (Window._toolbar_buttons s') = dict_keys (Window._toolbar_buttons s) /\
       (forall id disabled,
          dict_get id (Window._toolbar_buttons s') = Some disabled ->
          disabled = bool_decide (id = tool_id)) /\
       Window.image_tools s' = Window.image_tools s /\
       Window._key_mappings s' = Window._key_mappings s /\
       Window._reverse_key_mappings s' = Window._reverse_key_mappings s /\
       Window._previous_state s' = Window._previous_state s /\
       Window.calls s' = Window.calls s).
Proof.
  intros Hnd. rewrite (update_toolbar_state_run tool_id s Hnd). split_and!.
  - by intros ->.
  - by intros tool -> ->.
  - intros tool -> ->. eexists. split; [reflexivity|].
    split_and!; try reflexivity.
    + cbn. unfold dict_keys. rewrite map_map. reflexivity.
    + intros id disabled. cbn.
      induction (Window._toolbar_buttons s) as [|[i b] bs IH]; simpl; [done|].
      destruct (decide (i = id)) as [->|Hne]; [by intros [= <-]|].
      apply IH. by apply NoDup_cons in Hnd as [_ ?].
Qed.

Lemma toolbar_marks_the_chosen_tool_witness :
  (dict_get 2 (Window.image_tools demo_toolbar) = None ->
     Window._update_toolbar_state 2 demo_toolbar
     = (Window.Raised Window.KeyError, demo_toolbar)) /\
  (forall tool, dict_get 2 (Window.image_tools demo_toolbar) = Some tool ->
     Window.persistant tool = false ->
     Window._update_toolbar_state 2 demo_toolbar = (Window.Done tt, demo_toolbar)) /\
  (forall tool, dict_get 2 (Window.image_tools demo_toolbar) = Some tool ->
     Window.persistant tool = true ->
     exists s',
       Window._update_toolbar_state 2 demo_toolbar = (Window.Done tt, s') /\
       dict_keys (Window._toolbar_buttons s')
         = dict_keys (Window._toolbar_buttons demo_toolbar) /\
       (forall id disabled,
          dict_get id (Window._toolbar_buttons s') = Some disabled ->
          disabled = bool_decide (id = 2)) /\
       Window.image_tools s' = Window.image_tools demo_toolbar /\
       Window._key_mappings s' = Window._key_mappings demo_toolbar /\
       Window._reverse_key_mappings s' = Window._reverse_key_mappings demo_toolbar /\
       Window._previous_state s' = Window._previous_state demo_toolbar /\
       Window.calls s' = Window.calls demo_toolbar).
Proof.
  refine (toolbar_marks_the_chosen_tool 2 demo_toolbar _).
  apply (bool_decide_unpack _). vm_compute. reflexivity.
Defined.

(** [_on_tool_selected] inside the [try] of [_keystroke]. *)
Lemma select_or_report_run (key : string) (s : Window.t) :
  NoDup (dict_keys (Window._toolbar_buttons s)) ->
  Window.try_except_KeyError
    (s ← Window.read;
     tool_id ← Window.getitem key (Window._reverse_key_mappings s);
     Window._on_tool_selected tool_id)
    (Window.call (Window.Debug (key +:+ " is not a valid key code"))) s
  = (Window.Done tt,
     match dict_get key (Window._reverse_key_mappings s) with
     | None => called (Window.Debug (key +:+ " is not a valid key code")) s
     | Some tool_id =>
         match dict_get tool_id (Window.image_tools s) with
         | None => called (Window.Debug (key +:+ " is not a valid key code"))
                          (called (Window.ActivateTool tool_id) s)
         | Some tool =>
             if Window.persistant tool
             then Window.with_toolbar_buttons (marked tool_id)
                    (called (Window.ActivateTool tool_id) s)
             else called (Window.ActivateTool tool_id) s
         end
     end).
Proof.
  intros Hnd. unfold Window.try_except_KeyError.
  unfold mbind at 1, Window.W_bind at 1. cbn [Window.read].
  unfold mbind at 1, Window.W_bind at 1. unfold Window.getitem at 1.
  destruct (dict_get key (Window._reverse_key_mappings s)) as [tool_id|];
    [|reflexivity].
  cbn [mret Window.W_ret]. unfold Window._on_tool_selected.
  unfold mbind at 1, Window.W_bind at 1.
  change (Window.call (Window.ActivateTool tool_id) s)
    with (Window.Done tt, called (Window.ActivateTool tool_id) s).
  cbv iota beta.
  rewrite update_toolbar_state_run by exact Hnd.
  change (Window.image_tools (called (Window.ActivateTool tool_id) s))
    with (Window.image_tools s).
  destruct (dict_get tool_id (Window.image_tools s)) as [tool|]; [|reflexivity].
  by destruct (Window.persistant tool).
Qed.

(** [_keystroke], step by step. *)
Lemma keystroke_run (event : Window.KeyEvent) (s : Window.t) :
  NoDup (dict_keys (Window._toolbar_buttons s)) ->
  let key := Window.key_of event s in
  let s1 := if decide (Window.state event - Window._previous_state s = 4) then s
            else Window.with_previous_state (Window.state event) s in
  let s2 := called (Window.Debug ("KEY: " +:+ key)) s1 in
  Window._keystroke event s
  = (Window.Done tt,
     if decide (key = "CTRL+equal"%string \/ key = "CTRL+="%string)
     then called (Window.AdjustTool 1) s2
     else if decide (key = "CTRL+minus"%string \/ key = "CTRL+-"%string)
     then called (Window.AdjustTool (-1)) s2
     else if decide (key = "f11"%string) then called (Window.Fullscreen true) s2
     else if decide (key = "escape"%string) then called (Window.Fullscreen false) s2
     else
       match dict_get key (Window._reverse_key_mappings s) with
       | None => called (Window.Debug (key +:+ " is not a valid key code")) s2
       | Some tool_id =>
           match dict_get tool_id (Window.image_tools s) with
           | None => called (Window.Debug (key +:+ " is not a valid key code"))
                            (called (Window.ActivateTool tool_id) s2)
           | Some tool =>
               if Window.persistant tool
               then Window.with_toolbar_buttons (marked tool_id)
                      (called (Window.ActivateTool tool_id) s2)
               else called (Window.ActivateTool tool_id) s2
           end
       end).
Proof.
  intros Hnd key s1 s2.
  assert (Hnd2 : NoDup (dict_keys (Window._toolbar_buttons s2))).
  { unfold s2, s1. by destruct (decide _). }
  assert (Hrev : Window._reverse_key_mappings s2 = Window._reverse_key_mappings s).
  { unfold s2, s1. by destruct (decide _). }
  assert (Htools : Window.image_tools s2 = Window.image_tools s).
  { unfold s2, s1. by destruct (decide _). }
  pose proof (select_or_report_run key s2 Hnd2) as Htry.
  rewrite Hrev, Htools in Htry.
  unfold Window._keystroke.
  unfold mbind at 1, Window.W_bind at 1. cbn [Window.read].
  unfold mbind at 1, Window.W_bind at 1.
  assert (Hkey :
            (if decide (Window.state event - Window._previous_state s = 4)
             then mret "CTRL+"%string
             else Window.update (Window.with_previous_state (Window.state event));;
                  mret ""%string) s
            = (Window.Done (if decide (Window.state event - Window._previous_state s = 4)
                            then "CTRL+" else "")%string, s1)).
  { unfold s1. by destruct (decide _). }
  rewrite Hkey. cbv zeta. fold (Window.key_of event s). fold key.
  unfold mbind at 1, Window.W_bind at 1.
  change (Window.call (Window.Debug ("KEY: " +:+ key)) s1)
    with (Window.Done tt, s2).
  cbv iota beta.
  destruct (decide (key = "CTRL+equal"%string \/ key = "CTRL+="%string));
    [reflexivity|].
  destruct (decide (key = "CTRL+minus"%string \/ key = "CTRL+-"%string));
    [reflexivity|].
  destruct (decide (key = "f11"%string)); [reflexivity|].
  destruct (decide (key = "escape"%string)); [reflexivity|].
  exact Htry.
Qed.

Lemma marked_keys (tool_id : Z) (buttons : list (Z * bool)) :
  dict_keys (marked tool_id buttons) = dict_keys buttons.
Proof. unfold dict_keys, marked. by rewrite map_map. Qed.

(** X18: a key press never raises.  Whatever the key and whatever tools
    are registered, [_keystroke] returns normally: a key without a tool,
    and a tool the controller does not know, end in the [except KeyError]
    branch.  It remembers the modifier state of the event unless that
    state is 4 above the remembered one (the Control test), in which
    case the remembered state is kept; it logs the key first and makes at
    most two more calls; it changes neither the tools nor the key
    mappings, and keeps the buttons of the toolbar and their order. *)
Theorem keystroke_never_raises (event : Window.KeyEvent) (s : Window.t) :
  NoDup (dict_keys (Window._toolbar_buttons s)) ->
  exists s',
    Window._keystroke event s = (Window.Done tt, s') /\
    Window._previous_state s'
      = (if decide (Window.state event - Window._previous_state s = 4)
         then Window._previous_state s else Window.state event) /\
    Window.image_tools s' = Window.image_tools s /\
    Window._key_mappings s' = Window._key_mappings s /\
    Window._reverse_key_mappings s' = Window._reverse_key_mappings s /\
    dict_keys (Window._toolbar_buttons s') = dict_keys (Window._toolbar_buttons s) /\
    exists cs,
      Window.calls s'
        = Window.calls s ++ Window.Debug ("KEY: " +:+ Window.key_of event s) :: cs /\
      (length cs <= 2)%nat.
Proof.
  intros Hnd. rewrite (keystroke_run event s Hnd). cbv zeta.
  set (key := Window.key_of event s).
  eexists. split; [reflexivity|].
  destruct (decide (Window.state event - Window._previous_state s = 4));
    repeat (destruct (decide _); [
      split_and!; try reflexivity;
      eexists; split; [cbn; rewrite <- app_assoc; reflexivity | simpl; lia] |]);
    (destruct (dict_get key (Window._reverse_key_mappings s)) as [tool_id|];
     [destruct (dict_get tool_id (Window.image_tools s)) as [tool|];
      [destruct (Window.persistant tool)|]|]);
    (split_and!; try reflexivity; try apply marked_keys;
     eexists; split; [cbn; rewrite <- ?app_assoc; reflexivity | simpl; lia]).
Qed.

Lemma keystroke_never_raises_witness :
  exists s',
    Window._keystroke (Window.mkKeyEvent 16 "Q") demo_toolbar = (Window.Done tt, s') /\
    Window._previous_state s'
      = (if decide (Window.state (Window.mkKeyEvent 16 "Q")
                    - Window._previous_state demo_toolbar = 4)
         then Window._previous_state demo_toolbar
         else Window.state (Window.mkKeyEvent 16 "Q")) /\
    Window.image_tools s' = Window.image_tools demo_toolbar /\
    Window._key_mappings s' = Window._key_mappings demo_toolbar /\
    Window._reverse_key_mappings s' = Window._reverse_key_mappings demo_toolbar /\
    dict_keys (Window._toolbar_buttons s')
      = dict_keys (Window._toolbar_buttons demo_toolbar) /\
    exists cs,
      Window.calls s'
        = Window.calls demo_toolbar
          ++ Window.Debug ("KEY: " +:+ Window.key_of (Window.mkKeyEvent 16 "Q") demo_toolbar)
             :: cs /\
      (length cs <= 2)%nat.
Proof.
  refine (keystroke_never_raises (Window.mkKeyEvent 16 "Q") demo_toolbar _).
  apply (bool_decide_unpack _). vm_compute. reflexivity.
Defined.

(** X19: what a key press selects.  A reserved key (Control with [=],
    [equal], [-] or [minus]; [F11]; [Escape]) adjusts the tool by 1 or -1
    or switches full screen, and never activates a tool, even when a tool
    is registered under that key; a key that is neither reserved nor
    registered is only reported to the debug log; a registered key has the
    controller activate its tool, after which the toolbar marks the tool
    if it is persistent and is left as it was otherwise. *)
Theorem keystroke_dispatch (event : Window.KeyEvent) (s : Window.t) :
  NoDup (dict_keys (Window._toolbar_buttons s)) ->
  let key := Window.key_of event s in
  let s' := (Window._keystroke event s).2 in
  let logged := Window.Debug ("KEY: " +:+ key) in
  (reserved_key key ->
     Window._toolbar_buttons s' = Window._toolbar_buttons s /\
     exists c, Window.calls s' = Window.calls s ++ [logged; c] /\
               match c with
               | Window.AdjustTool d => d = 1 \/ d = -1
               | Window.Fullscreen _ => True
               | _ => False
               end) /\
  (~ reserved_key key ->
   dict_get key (Window._reverse_key_mappings s) = None ->
     Window._toolbar_buttons s' = Window._toolbar_buttons s /\
     Window.calls s'
       = Window.calls s ++ [logged; Window.Debug (key +:+ " is not a valid key code")]) /\
  (forall tool_id tool,
     ~ reserved_key key ->
     dict_get key (Window._reverse_key_mappings s) = Some tool_id ->
     dict_get tool_id (Window.image_tools s) = Some tool ->
     Window._toolbar_buttons s'
       = (if Window.persistant tool
          then marked tool_id (Window._toolbar_buttons s)
          else Window._toolbar_buttons s) /\
     Window.calls s' = Window.calls s ++ [logged; Window.ActivateTool tool_id]).
Proof.
  intros Hnd key s' logged.
  unfold s'. rewrite (keystroke_run event s Hnd). cbv zeta. fold key. cbn [snd].
  unfold reserved_key. rewrite !elem_of_cons, elem_of_nil.
  split_and!.
  - intros Hr.
    destruct (decide (Window.state event - Window._previous_state s = 4)).
    all: repeat (destruct (decide _) as [?|?]; [
      split; [reflexivity|]; eexists; split;
        [cbn; rewrite <- app_assoc; reflexivity | cbn; auto] |]).
    all: exfalso; tauto.
  - intros Hr ->.
    destruct (decide (Window.state event - Window._previous_state s = 4)).
    all: repeat (destruct (decide _) as [?|?]; [exfalso; tauto|]).
    all: split; [reflexivity | cbn; by rewrite <- app_assoc].
  - intros tool_id tool Hr -> ->. rewrite !elem_of_cons, elem_of_nil in Hr.
    destruct (decide (Window.state event - Window._previous_state s = 4)).
    all: repeat (destruct (decide _) as [?|?]; [exfalso; tauto|]).
    all: destruct (Window.persistant tool);
      (split; [reflexivity | cbn; by rewrite <- app_assoc]).
Qed.

Lemma keystroke_dispatch_witness :
  let event := Window.mkKeyEvent 0 "A" in
  let s := demo_toolbar in
  let key := Window.key_of event s in
  let s' := (Window._keystroke event s).2 in
  let logged := Window.Debug ("KEY: " +:+ key) in
  (reserved_key key ->
     Window._toolbar_buttons s' = Window._toolbar_buttons s /\
     exists c, Window.calls s' = Window.calls s ++ [logged; c] /\
               match c with
               | Window.AdjustTool d => d = 1 \/ d = -1
               | Window.Fullscreen _ => True
               | _ => False
               end) /\
  (~ reserved_key key ->
   dict_get key (Window._reverse_key_mappings s) = None ->
     Window._toolbar_buttons s' = Window._toolbar_buttons s /\
     Window.calls s'
       = Window.calls s ++ [logged; Window.Debug (key +:+ " is not a valid key code")]) /\
  (forall tool_id tool,
     ~ reserved_key key ->
     dict_get key (Window._reverse_key_mappings s) = Some tool_id ->
     dict_get tool_id (Window.image_tools s) = Some tool ->
     Window._toolbar_buttons s'
       = (if Window.persistant tool
          then marked tool_id (Window._toolbar_buttons s)
          else Window._toolbar_buttons s) /\
     Window.calls s' = Window.calls s ++ [logged; Window.ActivateTool tool_id]).
Proof.
  refine (keystroke_dispatch (Window.mkKeyEvent 0 "A") demo_toolbar _).
  apply (bool_decide_unpack _). vm_compute. reflexivity.
Defined.

(** X20: the mouse wheel.  Without the Control test succeeding
    [_on_mousewheel] does nothing.  With it, a wheel event that has a zero
    [delta] and a [num] other than 4 and 5 raises [UnboundLocalError],
    since [rotation] was never bound, and the controller is not called;
    every other event makes exactly one call of [adjust_tool], with a
    rotation that is never 0: [delta] when that is not 0, and 120 or -120
    for [num] 4 or 5 otherwise. *)
Theorem mousewheel_adjusts_or_fails (event : Window.WheelEvent) (s : Window.t) :
  let control := Window.wheel_state event - Window._previous_state s = 4 in
  let unbound := Window.delta event = 0 /\ Window.num event <> Some 4
                 /\ Window.num event <> Some 5 in
  (~ control -> Window._on_mousewheel event s = (Window.Done tt, s)) /\
  (control -> unbound ->
     Window._on_mousewheel event s = (Window.Raised Window.UnboundLocalError, s)) /\
  (control -> ~ unbound ->
     exists r,
       Window._on_mousewheel event s = (Window.Done tt, called (Window.AdjustTool r) s) /\
       r <> 0 /\
       (Window.delta event <> 0 -> r = Window.delta event) /\
       (Window.delta event = 0 -> Window.num event = Some 4 -> r = 120) /\
       (Window.delta event = 0 -> Window.num event = Some 5 -> r = -120)).
Proof.
  cbv zeta. unfold Window._on_mousewheel. cbv zeta.
  unfold mbind, Window.W_bind. cbn [Window.read].
  split_and!.
  - intros Hc. by rewrite decide_False.
  - intros Hc (Hd & H4 & H5). rewrite (decide_True _ _ Hc).
    rewrite (decide_False _ _ H4), (decide_False _ _ H5).
    by rewrite decide_False by (intros Hne; by apply Hne).
  - intros Hc Hu. rewrite (decide_True _ _ Hc).
    destruct (decide (Window.delta event <> 0)) as [Hd|Hd].
    + eexists. split; [reflexivity|]. split_and!; [done | done | done | done].
    + assert (Hz : Window.delta event = 0) by lia.
      destruct (decide (Window.num event = Some 4)) as [H4|H4].
      * eexists. split; [reflexivity|].
        split_and!; [done | done | done | rewrite H4; discriminate].
      * destruct (decide (Window.num event = Some 5)) as [H5|H5].
        -- eexists. split; [reflexivity|]. split_and!; done.
        -- exfalso. apply Hu. done.
Qed.

Lemma mousewheel_adjusts_or_fails_witness :
  let event := Window.mkWheelEvent None 0 4 in
  let s := demo_toolbar in
  let control := Window.wheel_state event - Window._previous_state s = 4 in
  let unbound := Window.delta event = 0 /\ Window.num event <> Some 4
                 /\ Window.num event <> Some 5 in
  (~ control -> Window._on_mousewheel event s = (Window.Done tt, s)) /\
  (control -> unbound ->
     Window._on_mousewheel event s = (Window.Raised Window.UnboundLocalError, s)) /\
  (control -> ~ unbound ->
     exists r,
       Window._on_mousewheel event s = (Window.Done tt, called (Window.AdjustTool r) s) /\
       r <> 0 /\
       (Window.delta event <> 0 -> r = Window.delta event) /\
       (Window.delta event = 0 -> Window.num event = Some 4 -> r = 120) /\
       (Window.delta event = 0 -> Window.num event = Some 5 -> r = -120)).
Proof.
  exact (mousewheel_adjusts_or_fails (Window.mkWheelEvent None 0 4) demo_toolbar).
Defined.

(** Where the grouping loop of [_create_toolbar] puts one tool. *)
Lemma place_run (g0 g1 g2 g3 : list Window.Tool) (tool : Window.Tool) :
  Window.place [g0; g1; g2; g3] tool
  = if decide (Window.group tool = Some "Markups"%string)
    then [g0 ++ [tool]; g1; g2; g3]
    else if decide (Window.group tool = Some "Navigation"%string)
    then [g0; g1 ++ [tool]; g2; g3]
    else if decide (Window.group tool = Some "Undo"%string)
    then [g0; g1; g2 ++ [tool]; g3]
    else [g0; g1; g2; g3 ++ [tool]].
Proof.
  unfold Window.place, Window.group_priorities. simpl.
  destruct (decide (Window.group tool = Some "Markups"%string)) as [HM|HM]; simpl;
    (destruct (decide (Window.group tool = Some "Navigation"%string)) as [HN|HN]; simpl;
     (destruct (decide (Window.group tool = Some "Undo"%string)) as [HU|HU]; simpl;
      try reflexivity; exfalso; congruence)).
Qed.

Lemma place_fold (l g0 g1 g2 g3 : list Window.Tool) :
  fold_left Window.place l [g0; g1; g2; g3]
  = [g0 ++ filter (fun t => Window.group t = Some "Markups"%string) l;
     g1 ++ filter (fun t => Window.group t = Some "Navigation"%string) l;
     g2 ++ filter (fun t => Window.group t = Some "Undo"%string) l;
     g3 ++ filter (fun t => Window.group t ∉ [Some "Markups"%string;
                                               Some "Navigation"%string;
                                               Some "Undo"%string]) l].
Proof.
  revert g0 g1 g2 g3. induction l as [|t l IH]; intros g0 g1 g2 g3.
  - simpl. by rewrite !app_nil_r.
  - cbn [fold_left]. rewrite place_run, !filter_cons.
    assert (Hrest : Window.group t ∉ [Some "Markups"%string; Some "Navigation"%string;
                                       Some "Undo"%string]
                    <-> Window.group t <> Some "Markups"%string
                        /\ Window.group t <> Some "Navigation"%string
                        /\ Window.group t <> Some "Undo"%string).
    { rewrite !elem_of_cons, elem_of_nil. tauto. }
    destruct (decide (Window.group t = Some "Markups"%string)) as [HM|HM].
    { rewrite IH. rewrite !decide_False by (rewrite ?Hrest; intros ?; intuition congruence).
      by rewrite <- app_assoc. }
    destruct (decide (Window.group t = Some "Navigation"%string)) as [HN|HN].
    { rewrite IH. rewrite !decide_False by (rewrite ?Hrest; intros ?; intuition congruence).
      by rewrite <- app_assoc. }
    destruct (decide (Window.group t = Some "Undo"%string)) as [HU|HU].
    { rewrite IH. rewrite !decide_False by (rewrite ?Hrest; intros ?; intuition congruence).
      by rewrite <- app_assoc. }
    rewrite IH. rewrite decide_True by (rewrite Hrest; tauto).
    by rewrite <- app_assoc.
Qed.

(** The loop over [image_tools.keys()] sees each tool once. *)
Lemma groups_loop (tools ps : list (Z * Window.Tool)) (groups : list (list Window.Tool)) :
  (forall i t, (i, t) ∈ ps -> dict_get i tools = Some t) ->
  fold_left (fun (acc : Window.Outcome (list (list Window.Tool))) (tool_id : Z) =>
               match acc with
               | Window.Done groups =>
                   match dict_get tool_id tools with
                   | Some tool => Window.Done (Window.place groups tool)
                   | None => Window.Raised Window.KeyError
                   end
               | Window.Raised e => Window.Raised e
               end) (dict_keys ps) (Window.Done groups)
  = Window.Done (fold_left Window.place (map snd ps) groups).
Proof.
  revert groups. induction ps as [|[i t] ps IH]; intros groups Hget; [done|].
  cbn [dict_keys map fst snd fold_left]. rewrite (Hget i t) by left.
  apply IH. intros i' t' Hin. apply Hget. by right.
Qed.

(** X21: the groups of the toolbar.  [_create_toolbar] lays the tools out
    in four groups: those of group [Markups], then [Navigation], then
    [Undo], then the tools of any other group or of none; within a group
    the tools keep the order of the controller's dict, and the fourth group
    is left out when it is empty.  Every tool is thus in exactly one
    group, and no lookup fails. *)
Theorem toolbar_groups_by_priority (tools : list (Z * Window.Tool)) (s : Window.t) :
  NoDup (dict_keys tools) ->
  let ts := map snd tools in
  let named n := filter (fun t => Window.group t = Some n) ts in
  let rest := filter (fun t => Window.group t ∉ [Some "Markups"%string;
                                                  Some "Navigation"%string;
                                                  Some "Undo"%string]) ts in
  Window.toolbar_groups tools s
  = (Window.Done ([named "Markups"%string; named "Navigation"%string;
                   named "Undo"%string]
                  ++ match rest with [] => [] | _ => [rest] end), s).
Proof.
  intros Hnd. cbv zeta. unfold Window.toolbar_groups. cbv zeta.
  rewrite (groups_loop tools tools)
    by (intros i t Hin; by apply dict_get_Some_elem).
  cbn [map Window.group_priorities app]. rewrite place_fold. cbn [app].
  cbn [last removelast].
  by destruct (filter (fun t => Window.group t ∉ _) (map snd tools)).
Qed.

Lemma toolbar_groups_by_priority_witness :
  let ts := map snd fgt_tools in
  let named n := filter (fun t => Window.group t = Some n) ts in
  let rest := filter (fun t => Window.group t ∉ [Some "Markups"%string;
                                                  Some "Navigation"%string;
                                                  Some "Undo"%string]) ts in
  Window.toolbar_groups fgt_tools demo_toolbar
  = (Window.Done ([named "Markups"%string; named "Navigation"%string;
                   named "Undo"%string]
                  ++ match rest with [] => [] | _ => [rest] end), demo_toolbar).
Proof.
  refine (toolbar_groups_by_priority fgt_tools demo_toolbar _).
  apply (bool_decide_unpack _). vm_compute. reflexivity.
Defined.

Lemma filter_none {A} (P : A -> Prop) `{!forall x, Decision (P x)} (l : list A) :
  (forall x, x ∈ l -> ~ P x) -> filter P l = [].
Proof.
  induction l as [|x l IH]; intros Hl; [done|].
  rewrite filter_cons, decide_False by (apply Hl; left).
  apply IH. intros y Hy. apply Hl. by right.
Qed.

Lemma filter_only {A K} `{EqDecision K} (f : A -> K) (a : A) (l : list A) :
  NoDup (map f l) -> a ∈ l -> filter (fun x => f x = f a) l = [a].
Proof.
  induction l as [|x l IH]; simpl; [by intros _ ?%elem_of_nil|].
  intros [Hx Hnd]%NoDup_cons Hin. rewrite filter_cons.
  assert (Hmap : forall y, y ∈ l -> f y ∈ map f l).
  { intros y Hy. apply list_elem_of_In, in_map, list_elem_of_In, Hy. }
  apply elem_of_cons in Hin as [->|Hin].
  - rewrite decide_True by done. f_equal. apply filter_none.
    intros y Hy Heq. apply Hx. rewrite <- Heq. by apply Hmap.
  - rewrite decide_False; [by apply IH|].
    intros Heq. apply Hx. rewrite Heq. by apply Hmap.
Qed.

(** X22: a registered key reaches its tool.  When the tools of the
    controller have pairwise different keys, then after the keys are
    registered a key press that spells the key of a tool has the
    controller activate that tool and no other, unless the key is one of
    the reserved ones; the toolbar then marks the tool if it is
    persistent. *)
Theorem registered_key_selects_its_tool (tools : list (Z * Window.Tool))
    (buttons : list (Z * bool)) (i : Z) (t : Window.Tool) (event : Window.KeyEvent) :
  NoDup (dict_keys tools) ->
  NoDup (map (fun p => Window.key_mapping p.2) tools) ->
  NoDup (dict_keys buttons) ->
  (i, t) ∈ tools ->
  let s := Window.with_toolbar_buttons (fun _ => buttons)
             (Window._register_key_mappings (Window.init tools)).2 in
  Window.key_of event s = Window.key_mapping t ->
  ~ reserved_key (Window.key_mapping t) ->
  let s' := (Window._keystroke event s).2 in
  Window.calls s'
    = [Window.Debug ("KEY: " +:+ Window.key_mapping t); Window.ActivateTool i] /\
  Window._toolbar_buttons s'
    = (if Window.persistant t then marked i buttons else buttons).
Proof.
  intros Hnd Hkeys Hbuttons Hin s Hkey Hres s'.
  assert (Hs : s = Window.mk tools 0
                     (map (fun p => (p.1, Window.key_mapping p.2)) tools)
                     (fold_left (fun r p => dict_set (Window.key_mapping p.2) p.1 r)
                                tools [])
                     buttons []).
  { unfold s. by rewrite (register_key_mappings_run tools Hnd). }
  clearbody s. subst s.
  set (s := Window.mk _ _ _ _ _ _) in *.
  assert (Hs : s = s) by reflexivity. unfold s at 2 in Hs.
  assert (Hrev : dict_get (Window.key_mapping t) (Window._reverse_key_mappings s)
                 = Some i).
  { rewrite Hs. cbn [Window._reverse_key_mappings].
    rewrite (fold_set_last (fun p => Window.key_mapping p.2) fst).
    by rewrite (filter_only (fun p => Window.key_mapping p.2) (i, t) tools Hkeys Hin). }
  assert (Htool : dict_get i (Window.image_tools s) = Some t).
  { rewrite Hs. by apply dict_get_Some_elem. }
  assert (Hnd' : NoDup (dict_keys (Window._toolbar_buttons s))) by by rewrite Hs.
  unfold s'. rewrite (keystroke_run event s Hnd'). cbv zeta. cbn [snd].
  rewrite Hkey, Hrev, Htool.
  unfold reserved_key in Hres. rewrite !elem_of_cons, elem_of_nil in Hres.
  repeat (destruct (decide _) as [?|?]; [exfalso; tauto|]).
  destruct (decide (Window.state event - Window._previous_state s = 4));
    destruct (Window.persistant t); split; reflexivity.
Qed.

Lemma registered_key_selects_its_tool_witness :
  let buttons := map (fun p => (p.1, false)) fgt_tools in
  let event := Window.mkKeyEvent 4 "Z" in
  let t := Window.mkTool 9 "Undo" "CTRL+z" false (Some "Undo"%string) in
  let s := Window.with_toolbar_buttons (fun _ => buttons)
             (Window._register_key_mappings (Window.init fgt_tools)).2 in
  let s' := (Window._keystroke event s).2 in
  Window.calls s'
    = [Window.Debug ("KEY: " +:+ Window.key_mapping t); Window.ActivateTool 9] /\
  Window._toolbar_buttons s'
    = (if Window.persistant t then marked 9 buttons else buttons).
Proof.
  refine (registered_key_selects_its_tool fgt_tools
            (map (fun p => (p.1, false)) fgt_tools) 9
            (Window.mkTool 9 "Undo" "CTRL+z" false (Some "Undo"%string))
            (Window.mkKeyEvent 4 "Z") _ _ _ _ _ _).
  - apply (bool_decide_unpack _). vm_compute. reflexivity.
  - apply (bool_decide_unpack _). vm_compute. reflexivity.
  - apply (bool_decide_unpack _). vm_compute. reflexivity.
  - apply list_elem_of_In. simpl. do 8 right. left. reflexivity.
  - vm_compute. reflexivity.
  - apply (bool_decide_unpack _). vm_compute. reflexivity.
Defined.
